(** * cyc.datasets: the [ProteinDataset] adapter

    A shallow embedding of [src/cyc/datasets.py] and the properties of its
    constructor, its FASTA/FASTQ entry point and its item access.

    The Python class is glue around three libraries; each is embedded at
    the level the class relies on:

    - pandas: a [DataFrame] is a list of rows under a list of column
      names, each column with its type, every row carrying its index
      label; a [Series] is a list of labelled values.  Cells are integers
      or text (ASCII, so that a length in bytes is a length in
      characters).  Missing values and floats in the cells, and named or
      non-integer indexes, are outside the model.  [reset_index()] keeps
      the former labels in a new first column, as pandas does; the
      lengths that [.str.len()] gives, which may be NaN, are held in a
      series of their own.
    - numpy: [unique] returns the distinct values of a column in ascending
      order, and refuses a column that mixes integers and text.
    - the tokenizer: an opaque callable; its answer may depend on the calls
      made before, and every call is recorded in the world.

    Random draws, the file system and the tokenizer calls are threaded
    through a small state-and-exception monad.  The [print] calls of the
    class only produce console output and are left out.

    The file has the model first (libraries, then the class line by line),
    then the facts about its parts, then the properties of the class
    (C1 to C10, each about the dataset of a successful construction, with
    [init_succeeds] saying when construction succeeds), then further
    properties of the constructor, the entry point and item access (X1 to
    X13: effects, failures, the layout after resampling, the saved id
    map, the column of the former labels), and last the properties
    evaluated in the concrete worlds of [Demo] and [Cases]. *)

From Stdlib Require Import List String Ascii ZArith QArith Lia Bool.
From Stdlib Require Import Permutation Sorted DecimalString OrderedTypeEx.
Import ListNotations.

Open Scope string_scope.
Open Scope Z_scope.
Open Scope list_scope.

Set Implicit Arguments.

(** ** Exceptions and results *)

Inductive exn : Type :=
| KeyError
| TypeError
| ValueError
| AttributeError
| FileNotFoundError.

Inductive result (A : Type) : Type :=
| Ok (a : A)
| Raise (e : exn).

Arguments Ok {A} a.
Arguments Raise {A} e.

Definition rbind {A B} (r : result A) (k : A -> result B) : result B :=
  match r with
  | Ok a => k a
  | Raise e => Raise e
  end.

Fixpoint rmap {A B} (f : A -> result B) (l : list A) : result (list B) :=
  match l with
  | [] => Ok []
  | x :: l' =>
      rbind (f x) (fun y => rbind (rmap f l') (fun ys => Ok (y :: ys)))
  end.

(** ** Keys with a boolean equality, as Python's hashable objects *)

Class Eqb (K : Type) : Type := {
  eqb : K -> K -> bool;
  eqb_spec : forall x y : K, reflect (x = y) (eqb x y)
}.

#[export] Instance Eqb_string : Eqb string :=
  {| eqb := String.eqb; eqb_spec := String.eqb_spec |}.

#[export] Instance Eqb_Z : Eqb Z :=
  {| eqb := Z.eqb; eqb_spec := Z.eqb_spec |}.

Definition mem {K} `{Eqb K} (x : K) (l : list K) : bool :=
  existsb (eqb x) l.

(** ** Python dictionaries

    A [dict] keeps its items in insertion order; assigning to a key that is
    already there replaces the value in place. *)

Module PyDict.

Fixpoint get {K V} `{Eqb K} (k : K) (d : list (K * V)) : option V :=
  match d with
  | [] => None
  | (k', v) :: d' => if eqb k k' then Some v else get k d'
  end.

Fixpoint set {K V} `{Eqb K} (k : K) (v : V) (d : list (K * V))
  : list (K * V) :=
  match d with
  | [] => [(k, v)]
  | (k', v') :: d' =>
      if eqb k k' then (k', v) :: d' else (k', v') :: set k v d'
  end.

Definition keys {K V} (d : list (K * V)) : list K := map fst d.

Definition values {K V} (d : list (K * V)) : list V := map snd d.

(** [dict(pairs)]: the pairs are inserted from left to right. *)
Definition of_items {K V} `{Eqb K} (l : list (K * V)) : list (K * V) :=
  fold_left (fun d kv => set (fst kv) (snd kv) d) l [].

(** [d[k]] *)
Definition subscript {K V} `{Eqb K} (d : list (K * V)) (k : K) : result V :=
  match get k d with
  | Some v => Ok v
  | None => Raise KeyError
  end.

End PyDict.

(** ** Cell values *)

Inductive value : Type :=
| VInt (z : Z)
| VStr (s : string).

Definition value_eqb (a b : value) : bool :=
  match a, b with
  | VInt x, VInt y => Z.eqb x y
  | VStr s, VStr t => String.eqb s t
  | _, _ => false
  end.

#[export] Instance Eqb_value : Eqb value.
Proof.
  refine {| eqb := value_eqb; eqb_spec := _ |}.
  intros [x|s] [y|t]; simpl; try (constructor; discriminate).
  - destruct (Z.eqb_spec x y); constructor; congruence.
  - destruct (String.eqb_spec s t); constructor; congruence.
Defined.

Definition value_eq_dec (a b : value) : {a = b} + {a <> b}.
Proof.
  decide equality; [apply Z.eq_dec | apply string_dec].
Defined.

(** The order in which values sort: integers by size, text as Python
    compares [str] (code point by code point); an integer comes before a
    text, as pandas orders mixed group keys. *)
Definition value_leb (a b : value) : bool :=
  match a, b with
  | VInt x, VInt y => Z.leb x y
  | VInt _, VStr _ => true
  | VStr _, VInt _ => false
  | VStr s, VStr t => String.leb s t
  end.

Definition value_ltb (a b : value) : bool := negb (value_leb b a).

Definition is_int (v : value) : bool :=
  match v with VInt _ => true | VStr _ => false end.

Definition is_str (v : value) : bool :=
  match v with VInt _ => false | VStr _ => true end.

(** ** Sorting *)

Fixpoint insert_sorted {A} (leb : A -> A -> bool) (x : A) (l : list A)
  : list A :=
  match l with
  | [] => [x]
  | y :: l' => if leb x y then x :: l else y :: insert_sorted leb x l'
  end.

Definition sort {A} (leb : A -> A -> bool) (l : list A) : list A :=
  fold_right (insert_sorted leb) [] l.

(** ** numpy *)

(** [numpy.unique(ar)]: the sorted distinct elements.  Sorting an array
    that holds both [int] and [str] objects raises [TypeError]. *)
Definition unique (ar : list value) : result (list value) :=
  if forallb is_int ar || forallb is_str ar
  then Ok (sort value_leb (nodup value_eq_dec ar))
  else Raise TypeError.

(** ** pandas *)

Record Row : Type := mkRow {
  ix : Z;                    (* the row's index label *)
  cell : string -> value     (* the cell under each column name *)
}.

(** The type of the values of a column.  A column of text, or of text and
    integers, has type [object]. *)
Inductive dtype : Type :=
| int64
| float64
| object.

Record DataFrame : Type := mkDataFrame {
  columns : list string;
  dtypes : string -> dtype;   (* the type of each column *)
  rows : list Row
}.

Definition Series : Type := list (Z * value).

(** A series of floats that are whole numbers or NaN ([None]). *)
Definition FloatSeries : Type := list (Z * option Z).

(** The type pandas gives the column made of a list: [float64] for an
    empty list, [int64] for integers, [object] otherwise. *)
Definition infer_dtype (col : list value) : dtype :=
  match col with
  | [] => float64
  | _ :: _ => if forallb is_int col then int64 else object
  end.

(** [DataFrame(d)] for a dict [d] of equally long lists. *)
Definition DataFrame_of_dict (d : list (string * list value)) : DataFrame :=
  let n := match d with [] => 0%nat | (_, col) :: _ => List.length col end in
  {| columns := PyDict.keys d;
     dtypes := fun c => match PyDict.get c d with
                        | Some col => infer_dtype col
                        | None => object
                        end;
     rows := map (fun i =>
               {| ix := Z.of_nat i;
                  cell := fun c => match PyDict.get c d with
                                   | Some col => nth i col (VInt 0)
                                   | None => VInt 0
                                   end |})
             (seq 0 n) |}.

(** [df[c]] *)
Definition getcol (df : DataFrame) (c : string) : result Series :=
  if mem c (columns df)
  then Ok (map (fun r => (ix r, cell r c)) (rows df))
  else Raise KeyError.

(** Whether a column [s] of type [dt] has the [.str] accessor: a column
    of type [object] that holds a text, alone or among other values, or
    nothing at all. *)
Definition has_str (dt : dtype) (s : Series) : bool :=
  match dt with
  | object =>
      match s with
      | [] => true
      | _ :: _ => existsb (fun p => is_str (snd p)) s
      end
  | int64 | float64 => false
  end.

(** [s.str.len()] for a column [s] of type [dt]: [AttributeError] when
    the column has no [.str] accessor; the length of a cell that is not
    text is NaN. *)
Definition str_len (dt : dtype) (s : Series) : result FloatSeries :=
  if has_str dt s
  then Ok (map (fun p => (fst p,
                          match snd p with
                          | VStr t => Some (Z.of_nat (String.length t))
                          | VInt _ => None
                          end)) s)
  else Raise AttributeError.

(** [df[c] = s] for a series [s] of floats over the index of [df].  The
    cells of a table are integers or text: of a column of floats the
    table records the name and the type, and the values stay in [s]. *)
Definition setcol (c : string) (s : FloatSeries) (df : DataFrame)
  : DataFrame :=
  {| columns := if mem c (columns df) then columns df else columns df ++ [c];
     dtypes := fun c' => if String.eqb c' c then float64 else dtypes df c';
     rows := rows df |}.

(** [s <= n]: a comparison with NaN is [False]. *)
Definition series_le (s : FloatSeries) (n : Z) : list bool :=
  map (fun p => match snd p with
                | Some z => Z.leb z n
                | None => false
                end) s.

(** [df[mask]] for a boolean mask: the rows keep their index labels. *)
Fixpoint boolean_index (rs : list Row) (mask : list bool) : list Row :=
  match rs, mask with
  | r :: rs', b :: mask' =>
      if b then r :: boolean_index rs' mask' else boolean_index rs' mask'
  | _, _ => []
  end.

Definition select (mask : list bool) (df : DataFrame) : DataFrame :=
  {| columns := columns df; dtypes := dtypes df;
     rows := boolean_index (rows df) mask |}.

(** [df.drop(c, axis=1)] *)
Definition drop (c : string) (df : DataFrame) : result DataFrame :=
  if mem c (columns df)
  then Ok {| columns := filter (fun c' => negb (String.eqb c' c)) (columns df);
             dtypes := dtypes df;
             rows := rows df |}
  else Raise KeyError.

(** The cells of a row with its index label under the column [name]. *)
Definition keep_label (name : string) (r : Row) : string -> value :=
  fun c => if String.eqb c name then VInt (ix r) else cell r c.

(** The rows labelled 0, 1, 2, ..., their former labels in the column
    [name]. *)
Definition renumber (name : string) (rs : list Row) : list Row :=
  map (fun ir =>
         {| ix := Z.of_nat (fst ir); cell := keep_label name (snd ir) |})
    (combine (seq 0 (List.length rs)) rs).

(** The name [reset_index] gives the column of the former labels. *)
Definition index_name (cols : list string) : string :=
  if mem "index" cols then "level_0" else "index".

Definition with_index (df : DataFrame) : DataFrame :=
  let name := index_name (columns df) in
  {| columns := name :: columns df;
     dtypes := fun c => if String.eqb c name then int64 else dtypes df c;
     rows := renumber name (rows df) |}.

(** [df.reset_index()]: the rows are labelled 0, 1, 2, ... anew, and their
    former labels are kept in a new first column.  The column is named
    [index], or [level_0] when the table has a column [index] already;
    when it has that one too, the insertion raises [ValueError]. *)
Definition reset_index (df : DataFrame) : result DataFrame :=
  if mem (index_name (columns df)) (columns df)
  then Raise ValueError
  else Ok (with_index df).

(** [df.groupby(key)]: the groups, in ascending order of their keys. *)
Definition groupby (key : option string) (df : DataFrame)
  : result (list (value * list Row)) :=
  match key with
  | None => Raise TypeError
  | Some c =>
      if mem c (columns df)
      then
        let keys :=
          sort value_leb
            (nodup value_eq_dec (map (fun r => cell r c) (rows df))) in
        Ok (map (fun k =>
                   (k, filter (fun r => eqb (cell r c) k) (rows df))) keys)
      else Raise KeyError
  end.

(** [.size()] *)
Definition size (groups : list (value * list Row)) : list Z :=
  map (fun g => Z.of_nat (List.length (snd g))) groups.

(** [.median()]: a float; [None] stands for NaN, the median of nothing. *)
Definition median (l : list Z) : option Q :=
  let s := sort Z.leb l in
  let n := List.length s in
  match n with
  | O => None
  | _ =>
      if Nat.even n
      then Some (Qdiv (Qplus (inject_Z (nth (n / 2 - 1)%nat s 0))
                             (inject_Z (nth (n / 2)%nat s 0)))
                      (inject_Z 2))
      else Some (inject_Z (nth (n / 2)%nat s 0))
  end.

(** [int(x)] for a float [x]: truncation toward zero; NaN is refused. *)
Definition py_int (x : option Q) : result Z :=
  match x with
  | None => Raise ValueError
  | Some q => Ok (Z.quot (Qnum q) (Zpos (Qden q)))
  end.

(** [s[idx]] for an integer [idx]: a lookup by index label. *)
Definition series_getitem (s : Series) (idx : Z) : result value :=
  match find (fun p => Z.eqb (fst p) idx) s with
  | Some p => Ok (snd p)
  | None => Raise KeyError
  end.

(** A string's last five characters, [name[-5:]]. *)
Definition last5 (name : string) : string :=
  substring (String.length name - 5)%nat 5 name.

(** [str(n)] *)
Definition str_of_Z (n : Z) : string := NilZero.string_of_int (Z.to_int n).

(** ** The world: random draws, files, tokenizer calls *)

Record World : Type := mkWorld {
  draws : nat;                                 (* random numbers consumed *)
  dirs : list string;                          (* directories on disk *)
  files : list (string * list (Z * value));    (* pickled id maps, by path *)
  tokenizer_calls : list string                (* texts given to the tokenizer *)
}.

Definition M (A : Type) : Type := World -> result A * World.

Definition ret {A} (a : A) : M A := fun w => (Ok a, w).

Definition raise {A} (e : exn) : M A := fun w => (Raise e, w).

Definition bind {A B} (m : M A) (k : A -> M B) : M B :=
  fun w =>
    match m w with
    | (Ok a, w') => k a w'
    | (Raise e, w') => (Raise e, w')
    end.

Definition lift {A} (r : result A) : M A := fun w => (r, w).

Notation "x <- m ;; k" := (bind m (fun x => k))
  (at level 61, m at next level, right associativity).

Notation "x <~ r ;; k" := (rbind r (fun x => k))
  (at level 61, r at next level, right associativity).

(** ** Samples *)

Inductive field : Type :=
| FTensor (t : list (list Z))
| FInt (z : Z)
| FValue (v : value).

Definition Encoding : Type := list (string * field).

(** ** Sequence records of Biopython *)

Record SeqRecord : Type := mkSeqRecord {
  rec_id : string;
  rec_seq : string
}.

(** ** The dataset object *)

Record ProteinDataset : Type := mkProteinDataset {
  return_seqs : bool;
  dataframe : DataFrame;
  label_dict : list (value * Z);
  labels : option Series;       (* set only when a label column is given *)
  nu_labels : option nat;
  label_name : option string;
  id2label : list (Z * value);
  seqs : Series
}.

(** The arguments of [ProteinDataset.__init__], the tokenizer apart. *)
Module Args.

Record t : Type := make {
  csv_file : option string;
  label_column : option string;
  seq_column : string;
  dataframe : option DataFrame;
  sim : Z;
  nsamples : Z;
  return_seqs : bool;
  mapper : option (list (value * Z));
  save_id_map : bool
}.

End Args.

(** Lines 42-57: keep the rows whose sequence has at most 1024 characters.
    The column [seq_length] is a scratch column; a column of that name in
    the input is overwritten and dropped with it.  Line 49 reads back the
    lengths that line 45 has just stored, the series [lens].  (Line 45
    also leaves the scratch column in the caller's own table; no later
    line reads it.) *)
Definition filter_by_length (seq_column : string) (data : DataFrame)
  : result DataFrame :=
  if mem seq_column (columns data)
  then
    s <~ getcol data seq_column ;;
    lens <~ str_len (dtypes data seq_column) s ;;
    let data := setcol "seq_length" lens data in
    let mask := series_le lens 1024 in
    let data := select mask data in
    data <~ drop "seq_length" data ;;
    reset_index data
  else Ok data.

(** Lines 88-91: [label_dict[label_list[i]] = i] for [i] in
    [range(len(label_list))]. *)
Definition build_label_dict (label_list : list value) : list (value * Z) :=
  fold_left
    (fun label_dict i =>
       match nth_error label_list i with
       | Some l => PyDict.set l (Z.of_nat i) label_dict
       | None => label_dict
       end)
    (seq 0 (List.length label_list)) [].

(** Line 94: [dict([(k, v) for v, k in label_dict.items()])]. *)
Definition invert (label_dict : list (value * Z)) : list (Z * value) :=
  PyDict.of_items (map (fun vk => (snd vk, fst vk)) label_dict).

Definition id_map_dir : string := "cyc_id_maps".

Definition id_map_path (sim : Z) : string :=
  "cyc_id_maps/cyc_label_id_map_" ++ str_of_Z sim ++ ".pickle".

(** [os.path.exists(path)] *)
Definition path_exists (path : string) : M bool :=
  fun w =>
    (Ok (mem path (dirs w)
         || match PyDict.get path (files w) with
            | Some _ => true
            | None => false
            end), w).

(** [with open(path, "wb") as f: dump(obj, f, ...)], for a path in
    directory [dir]. *)
Definition dump_to (dir path : string) (obj : list (Z * value)) : M unit :=
  fun w =>
    if mem dir (dirs w)
    then (Ok tt,
          {| draws := draws w; dirs := dirs w;
             files := PyDict.set path obj (files w);
             tokenizer_calls := tokenizer_calls w |})
    else (Raise FileNotFoundError, w).

Section Environment.

(** The pseudo-random generator: its [i]-th output. *)
Variable rand : nat -> nat.

(** [pandas.read_csv] on the files of the disk. *)
Variable read_csv : string -> result DataFrame.

(** [open] followed by [SeqIO.parse(handle, format)], read to the end. *)
Variable SeqIO_parse : string -> string -> result (list SeqRecord).

(** The tokenizer: from the texts of the earlier calls and the text of
    this call to an encoding. *)
Variable tokenizer : list string -> string -> Encoding.

(** One random integer in [0, high). *)
Definition randint (high : nat) : M nat :=
  fun w =>
    (Ok (rand (draws w) mod high)%nat,
     {| draws := S (draws w); dirs := dirs w; files := files w;
        tokenizer_calls := tokenizer_calls w |}).

(** [n] random positions in [0, high), with replacement. *)
Fixpoint choice (high n : nat) : M (list nat) :=
  match n with
  | O => ret []
  | S n' => i <- randint high ;; l <- choice high n' ;; ret (i :: l)
  end.

Definition sample_group (n : nat) (group : list Row) : M (list Row) :=
  match group with
  | [] => ret []
  | r0 :: _ =>
      picks <- choice (List.length group) n ;;
      ret (map (fun i => nth i group r0) picks)
  end.

Fixpoint sample_groups (n : nat) (groups : list (list Row)) : M (list Row) :=
  match groups with
  | [] => ret []
  | g :: groups' =>
      a <- sample_group n g ;;
      b <- sample_groups n groups' ;;
      ret (a ++ b)
  end.

(** [df.groupby(key).sample(n=n, replace=True)]: group after group, [n]
    rows drawn from the group with replacement; the rows keep their index
    labels. *)
Definition groupby_sample (key : option string) (n : Z) (df : DataFrame)
  : M DataFrame :=
  groups <- lift (groupby key df) ;;
  if n <? 0 then raise ValueError
  else
    rs <- sample_groups (Z.to_nat n) (map snd groups) ;;
    ret {| columns := columns df; dtypes := dtypes df; rows := rs |}.

(** Lines 61-69. *)
Definition median_sampling (label_column : option string) (nsamples : Z)
  (data : DataFrame) : M DataFrame :=
  if nsamples =? -1
  then
    groups <- lift (groupby label_column data) ;;
    mean_samples <- lift (py_int (median (size groups))) ;;
    data' <- groupby_sample label_column mean_samples data ;;
    lift (reset_index data')
  else ret data.

(** Lines 71-78. *)
Definition specific_sampling (label_column : option string) (nsamples : Z)
  (data : DataFrame) : M DataFrame :=
  if 0 <? nsamples
  then
    data' <- groupby_sample label_column nsamples data ;;
    lift (reset_index data')
  else ret data.

(** Lines 96-99. *)
Definition save_map (save_id_map : bool) (sim : Z)
  (id2label : list (Z * value)) : M unit :=
  if save_id_map
  then
    present <- path_exists (id_map_path sim) ;;
    if present then ret tt
    else dump_to id_map_dir (id_map_path sim) id2label
  else ret tt.

(** Lines 36-40: the table given, or else the one read from [csv_file]. *)
Definition load_table (a : Args.t) : result DataFrame :=
  match Args.dataframe a with
  | Some df => Ok df
  | None =>
      match Args.csv_file a with
      | Some path => read_csv path
      | None => Raise ValueError
      end
  end.

(** [ProteinDataset.__init__] *)
Definition init (a : Args.t) : M ProteinDataset :=
  data <- lift (load_table a) ;;
  data <- lift (filter_by_length (Args.seq_column a) data) ;;
  let self_dataframe := data in
  data <- median_sampling (Args.label_column a) (Args.nsamples a) data ;;
  data <- specific_sampling (Args.label_column a) (Args.nsamples a) data ;;
  let self_label_dict := Args.mapper a in
  self_labels <- match Args.label_column a with
                 | Some c => s <- lift (getcol data c) ;; ret (Some s)
                 | None => ret None
                 end ;;
  self_nu_labels <- match self_labels with
                    | Some s =>
                        u <- lift (unique (map snd s)) ;;
                        ret (Some (List.length u))
                    | None => ret None
                    end ;;
  self_label_dict <- match self_labels, Args.mapper a with
                     | Some s, None =>
                         label_list <- lift (unique (map snd s)) ;;
                         ret (Some (build_label_dict label_list))
                     | _, _ => ret self_label_dict
                     end ;;
  let self_label_name :=
    match self_labels with
    | Some _ => Args.label_column a
    | None => None
    end in
  ld <- match self_label_dict with
        | Some d => ret d
        | None => raise AttributeError   (* [None] has no [items] *)
        end ;;
  let self_id2label := invert ld in
  _ <- save_map (Args.save_id_map a) (Args.sim a) self_id2label ;;
  self_seqs <- lift (getcol data (Args.seq_column a)) ;;
  ret {| return_seqs := Args.return_seqs a;
         dataframe := self_dataframe;
         label_dict := ld;
         labels := self_labels;
         nu_labels := self_nu_labels;
         label_name := self_label_name;
         id2label := self_id2label;
         seqs := self_seqs |}.

(** [ProteinDataset.from_fastx]: the [nsamples] argument is accepted and
    not used. *)
Definition from_fastx (fasta_filename : string) (seq_column : string)
  (label_column : option string) (nsamples : Z)
  (mapper : option (list (value * Z))) : M ProteinDataset :=
  let file_suffix := last5 fasta_filename in
  records <- lift (SeqIO_parse fasta_filename file_suffix) ;;
  let identifiers := map (fun r => VStr (rec_id r)) records in
  let seqs := map (fun r => VStr (rec_seq r)) records in
  let df := DataFrame_of_dict [("IDs", identifiers); ("SEQS", seqs)] in
  init {| Args.csv_file := None;
          Args.label_column := label_column;
          Args.seq_column := seq_column;
          Args.dataframe := Some df;
          Args.sim := 40;
          Args.nsamples := 0;
          Args.return_seqs := true;
          Args.mapper := mapper;
          Args.save_id_map := false |}.

(** [ProteinDataset.__len__] *)
Definition len (self : ProteinDataset) : nat := List.length (seqs self).

(** The call [self.tokenizer(text, ...)]. *)
Definition call_tokenizer (text : string) : M Encoding :=
  fun w =>
    (Ok (tokenizer (tokenizer_calls w) text),
     {| draws := draws w; dirs := dirs w; files := files w;
        tokenizer_calls := tokenizer_calls w ++ [text] |}).

(** [ProteinDataset.__getitem__] *)
Definition getitem (self : ProteinDataset) (idx : Z) : M Encoding :=
  s <- lift (series_getitem (seqs self) idx) ;;
  sample <- match s with
            | VStr text => call_tokenizer text
            | VInt _ => raise TypeError   (* the tokenizer takes text *)
            end ;;
  sample <- match labels self with
            | Some ls =>
                l <- lift (series_getitem ls idx) ;;
                i <- lift (PyDict.subscript (label_dict self) l) ;;
                ret (PyDict.set "label" (FInt i) sample)
            | None => ret sample
            end ;;
  if return_seqs self
  then
    s' <- lift (series_getitem (seqs self) idx) ;;
    ret (PyDict.set "sequence" (FValue s') sample)
  else ret sample.

End Environment.

(** ** Notions used in the statements *)

(** The sequence of a row has at most 1024 characters. *)
Definition short_enough (seq_column : string) (r : Row) : bool :=
  match cell r seq_column with
  | VStr t => Z.leb (Z.of_nat (String.length t)) 1024
  | VInt _ => false
  end.

(** The rows of lines 42-57, before they are labelled anew: the rows with
    a short sequence, under the columns other than the scratch column. *)
Definition kept (seq_column : string) (data : DataFrame) : DataFrame :=
  {| columns :=
       List.filter (fun c' => negb (String.eqb c' "seq_length"))
         (columns data);
     dtypes :=
       fun c' => if String.eqb c' "seq_length" then float64
                 else dtypes data c';
     rows := List.filter (short_enough seq_column) (rows data) |}.

(** What lines 42-57 make of a table that has the sequence column: the
    kept rows, labelled 0, 1, 2, ..., with their former labels in a new
    first column. *)
Definition filtered (seq_column : string) (data : DataFrame) : DataFrame :=
  with_index (kept seq_column data).

(** The values of a series, without their index labels. *)
Definition values_of (s : Series) : list value := map snd s.

(** How many entries of a series hold the value [v]. *)
Definition occurrences (v : value) (s : Series) : nat :=
  count_occ value_eq_dec (values_of s) v.

(** The indices 0, 1, ..., n-1. *)
Definition ids (n : nat) : list Z := map Z.of_nat (seq 0 n).

(** A tokenizer whose answer does not depend on the earlier calls. *)
Definition deterministic (tok : list string -> string -> Encoding) : Prop :=
  forall h1 h2 text, tok h1 text = tok h2 text.

(** The rows of [rs'] are copies of rows of [rs], each with the index
    label of the row it copies in the column [name]. *)
Definition drawn_from (name : string) (rs rs' : list Row) : Prop :=
  incl (map cell rs') (map (keep_label name) rs).

(** The column [c] of a list of rows. *)
Definition column_of (c : string) (rs : list Row) : list value :=
  map (fun r => cell r c) rs.

(** [data'] is [data] resampled to [n] rows per value of column [c]: the
    rows are copies of rows of [data], labelled 0, 1, 2, ..., with the
    label of the row copied in a new first column, and every value of the
    column [c] is met [n] times. *)
Definition sampled (c : string) (n : nat) (data data' : DataFrame) : Prop :=
  ~ In (index_name (columns data)) (columns data) /\
  columns data' = index_name (columns data) :: columns data /\
  map ix (rows data') = ids (List.length (rows data')) /\
  drawn_from (index_name (columns data)) (rows data) (rows data') /\
  forall k,
    count_occ value_eq_dec (column_of c (rows data')) k
    = if in_dec value_eq_dec k (column_of c (rows data)) then n else O.

(** The world after one more call of the tokenizer, on [text]. *)
Definition called (text : string) (w : World) : World :=
  {| draws := draws w; dirs := dirs w; files := files w;
     tokenizer_calls := tokenizer_calls w ++ [text] |}.

(** The sample with the raw sequence under ["sequence"], when the dataset
    returns sequences. *)
Definition with_sequence (d : ProteinDataset) (text : string)
  (sample : Encoding) : Encoding :=
  if return_seqs d
  then PyDict.set "sequence" (FValue (VStr text)) sample
  else sample.

(** The world after [n] more random draws. *)
Definition advance (n : nat) (w : World) : World :=
  {| draws := draws w + n; dirs := dirs w; files := files w;
     tokenizer_calls := tokenizer_calls w |}.

(** ** A concrete world, for the examples *)

Module Demo.

Definition rand (i : nat) : nat := (7 * i + 3)%nat.

Definition tokenizer (history : list string) (text : string) : Encoding :=
  [("input_ids",
    FTensor [map (fun ch => Z.of_nat (nat_of_ascii ch))
               (list_ascii_of_string text)]);
   ("attention_mask",
    FTensor [map (fun _ => 1) (list_ascii_of_string text)])].

Definition world0 : World :=
  {| draws := 0; dirs := []; files := []; tokenizer_calls := [] |}.

(** A table with the columns [label] and [sequence]. *)
Definition table (l : list (string * string)) : DataFrame :=
  DataFrame_of_dict
    [("label", map (fun p => VStr (fst p)) l);
     ("sequence", map (fun p => VStr (snd p)) l)].

(** Two rows labelled A, six labelled B. *)
Definition table_2_6 : DataFrame :=
  table [("A", "MKV"); ("B", "MAL"); ("B", "MGS"); ("A", "MKT");
         ("B", "MPQ"); ("B", "MRR"); ("B", "MWY"); ("B", "MCC")].

(** Two rows labelled A, seven labelled B. *)
Definition table_2_7 : DataFrame :=
  table [("A", "MKV"); ("B", "MAL"); ("B", "MGS"); ("A", "MKT");
         ("B", "MPQ"); ("B", "MRR"); ("B", "MWY"); ("B", "MCC");
         ("B", "MDE")].

Definition long_sequence : string :=
  string_of_list_ascii (repeat "M"%char 2000).

Definition short_sequence : string := "MKVLAAGIVG".

(** A sequence of 2000 characters and one of 10. *)
Definition table_long : DataFrame :=
  table [("A", long_sequence); ("B", short_sequence)].

Definition read_csv (path : string) : result DataFrame :=
  if String.eqb path "train.csv" then Ok table_2_6
  else Raise FileNotFoundError.

Definition records : list SeqRecord :=
  [ {| rec_id := "sp|P1"; rec_seq := "MKV" |};
    {| rec_id := "sp|P2"; rec_seq := "MALW" |} ].

Definition SeqIO_parse (path format : string) : result (list SeqRecord) :=
  if String.eqb path "two.fasta"
  then if String.eqb format "fasta" then Ok records else Raise ValueError
  else Raise FileNotFoundError.

(** The arguments [ProteinDataset(None, tokenizer, "label", "sequence",
    dataframe=df, nsamples=n, mapper=m)]. *)
Definition args (df : DataFrame) (n : Z) (m : option (list (value * Z)))
  : Args.t :=
  {| Args.csv_file := None;
     Args.label_column := Some "label";
     Args.seq_column := "sequence";
     Args.dataframe := Some df;
     Args.sim := 40;
     Args.nsamples := n;
     Args.return_seqs := false;
     Args.mapper := m;
     Args.save_id_map := false |}.

Definition nothing : ProteinDataset :=
  {| return_seqs := false;
     dataframe := {| columns := []; dtypes := fun _ => object; rows := [] |};
     label_dict := []; labels := None; nu_labels := None;
     label_name := None; id2label := []; seqs := [] |}.

(** The dataset a construction returned. *)
Definition dataset_of (run : result ProteinDataset * World) : ProteinDataset :=
  match fst run with
  | Ok d => d
  | Raise _ => nothing
  end.

Definition construct (a : Args.t) : result ProteinDataset * World :=
  init rand read_csv a world0.

(** The world a construction left. *)
Definition world_after (a : Args.t) : World := snd (construct a).

(** The defaults of the constructor, without a label column. *)
Definition unlabelled (df : DataFrame) : Args.t :=
  {| Args.csv_file := None;
     Args.label_column := None;
     Args.seq_column := "sequence";
     Args.dataframe := Some df;
     Args.sim := 40;
     Args.nsamples := -1;
     Args.return_seqs := false;
     Args.mapper := None;
     Args.save_id_map := false |}.

(** Median sampling of the 2-and-6 table. *)
Definition median_2_6 : ProteinDataset :=
  dataset_of (construct (args table_2_6 (-1) None)).

(** Three rows per label of the 2-and-6 table. *)
Definition three_each : ProteinDataset :=
  dataset_of (construct (args table_2_6 3 None)).

(** The 2-and-6 table as it is. *)
Definition plain : ProteinDataset :=
  dataset_of (construct (args table_2_6 0 None)).

(** Median sampling of the 2-and-7 table. *)
Definition median_2_7 : ProteinDataset :=
  dataset_of (construct (args table_2_7 (-1) None)).

(** The long-and-short table, with the defaults. *)
Definition one_short : ProteinDataset :=
  dataset_of (construct (args table_long (-1) None)).

(** The 2-and-6 table with an external map that knows label A only. *)
Definition partial_map : ProteinDataset :=
  dataset_of (construct (args table_2_6 0 (Some [(VStr "A", 0)]))).

End Demo.

(** ** Notions used in the further properties *)

(** Every run of [m] leaves a world related by [R] to the one it found. *)
Definition keeps (R : World -> World -> Prop) {A} (m : M A) : Prop :=
  forall w, R w (snd (m w)).

(** The tokenizer calls and the directories are those of before. *)
Definition same_calls (w w' : World) : Prop :=
  tokenizer_calls w' = tokenizer_calls w /\ dirs w' = dirs w.

Definition same_files (w w' : World) : Prop := files w' = files w.

Definition same_draws (w w' : World) : Prop := draws w' = draws w.

(** What [os.path.exists(path)] answers in world [w]. *)
Definition exists_on_disk (path : string) (w : World) : bool :=
  mem path (dirs w)
  || match PyDict.get path (files w) with
     | Some _ => true
     | None => false
     end.

(** The files and the directories are those of before. *)
Definition same_disk (w w' : World) : Prop :=
  files w' = files w /\ dirs w' = dirs w.

(** The records of a file whose sequence has at most 1024 characters. *)
Definition short_records (records : list SeqRecord) : list SeqRecord :=
  List.filter (fun r => Nat.leb (String.length (rec_seq r)) 1024) records.

(** ** Further concrete inputs *)

Module Cases.

(** A disk with the directory of the id maps, and nothing in it. *)
Definition disk : World :=
  {| draws := 0; dirs := ["cyc_id_maps"]; files := [];
     tokenizer_calls := [] |}.

(** The 2-and-6 table as it is, the id map saved. *)
Definition saving : Args.t :=
  {| Args.csv_file := None;
     Args.label_column := Some "label";
     Args.seq_column := "sequence";
     Args.dataframe := Some Demo.table_2_6;
     Args.sim := 40;
     Args.nsamples := 0;
     Args.return_seqs := false;
     Args.mapper := None;
     Args.save_id_map := true |}.

Definition saved : ProteinDataset :=
  Demo.dataset_of (init Demo.rand Demo.read_csv saving disk).

(** The 2-and-6 table, its sequences asked for under a name it lacks. *)
Definition wrong_column : Args.t :=
  {| Args.csv_file := None;
     Args.label_column := Some "label";
     Args.seq_column := "SEQS";
     Args.dataframe := Some Demo.table_2_6;
     Args.sim := 40;
     Args.nsamples := 0;
     Args.return_seqs := false;
     Args.mapper := None;
     Args.save_id_map := false |}.

(** A table whose only sequence is too long. *)
Definition only_long : DataFrame := Demo.table [("A", Demo.long_sequence)].

(** An external map, and the 2-and-6 table served with it. *)
Definition both_labels : list (value * Z) := [(VStr "A", 7); (VStr "B", 9)].

Definition mapped : ProteinDataset :=
  Demo.dataset_of (Demo.construct (Demo.args Demo.table_2_6 0 (Some both_labels))).

(** The long-and-short table, three rows asked for each label. *)
Definition three_of_short : ProteinDataset :=
  Demo.dataset_of (Demo.construct (Demo.args Demo.table_long 3 None)).

(** A tokenizer that answers with the number of calls made before. *)
Definition counting (history : list string) (text : string) : Encoding :=
  [("input_ids", FTensor [[Z.of_nat (List.length history)]])].

(** A tokenizer whose encoding has a field named [sequence]. *)
Definition tagging (history : list string) (text : string) : Encoding :=
  [("input_ids", FTensor [[1]]); ("sequence", FValue (VStr "tokens"))].

(** A table with a column named [index] of its own. *)
Definition own_index : DataFrame :=
  DataFrame_of_dict
    [("index", [VStr "p1"; VStr "p2"]);
     ("label", [VStr "A"; VStr "B"]);
     ("sequence", [VStr "MKV"; VStr "MAL"])].

(** The 2-and-6 table, three rows asked for each label, the sequences
    asked for under the name [index]. *)
Definition index_for_sequences : Args.t :=
  {| Args.csv_file := None;
     Args.label_column := Some "label";
     Args.seq_column := "index";
     Args.dataframe := Some Demo.table_2_6;
     Args.sim := 40;
     Args.nsamples := 3;
     Args.return_seqs := false;
     Args.mapper := None;
     Args.save_id_map := false |}.

Definition row_labels : ProteinDataset :=
  Demo.dataset_of (Demo.construct index_for_sequences).

(** The file of two records, its identifiers taken as labels. *)
Definition from_file : ProteinDataset :=
  Demo.dataset_of
    (from_fastx Demo.rand Demo.read_csv Demo.SeqIO_parse
       "two.fasta" "SEQS" (Some "IDs") 5 None Demo.world0).

End Cases.

(** The 2-and-6 table, its sequences asked for under a name it lacks, the
    id map saved. *)
Definition saving_wrong_column : Args.t :=
  {| Args.csv_file := None;
     Args.label_column := Some "label";
     Args.seq_column := "SEQS";
     Args.dataframe := Some Demo.table_2_6;
     Args.sim := 40;
     Args.nsamples := -1;
     Args.return_seqs := false;
     Args.mapper := None;
     Args.save_id_map := true |}.

(** * Facts *)

Section Properties.

Variable rand : nat -> nat.
Variable read_csv : string -> result DataFrame.
Variable SeqIO_parse : string -> string -> result (list SeqRecord).
Variable tokenizer : list string -> string -> Encoding.

(** ** Boolean equality and membership *)

Lemma eqb_refl {K} `{Eqb K} (x : K) : eqb x x = true.
Proof. destruct (eqb_spec x x); congruence. Qed.

Lemma eqb_eq {K} `{Eqb K} (x y : K) : eqb x y = true <-> x = y.
Proof. destruct (eqb_spec x y); split; congruence. Qed.

Lemma eqb_neq {K} `{Eqb K} (x y : K) : eqb x y = false <-> x <> y.
Proof. destruct (eqb_spec x y); split; congruence. Qed.

Lemma mem_In {K} `{Eqb K} (x : K) (l : list K) : mem x l = true <-> In x l.
Proof.
  unfold mem. rewrite existsb_exists. split.
  - intros [y [Hy Hxy]]. apply eqb_eq in Hxy. now subst.
  - intros Hx. exists x. split; [exact Hx | apply eqb_refl].
Qed.

Lemma mem_nIn {K} `{Eqb K} (x : K) (l : list K) :
  mem x l = false <-> ~ In x l.
Proof.
  rewrite <- mem_In. destruct (mem x l); split; congruence.
Qed.

(** ** Dictionaries *)

Lemma get_set_same {K V} `{Eqb K} (k : K) (v : V) d :
  PyDict.get k (PyDict.set k v d) = Some v.
Proof.
  induction d as [|[k' v'] d IH]; simpl.
  - now rewrite eqb_refl.
  - destruct (eqb k k') eqn:E; simpl; rewrite E; auto.
Qed.

Lemma get_set_other {K V} `{Eqb K} (k k' : K) (v : V) d :
  k <> k' -> PyDict.get k' (PyDict.set k v d) = PyDict.get k' d.
Proof.
  intros Hne. induction d as [|[k0 v0] d IH]; simpl.
  - assert (E : eqb k' k = false) by (apply eqb_neq; congruence).
    now rewrite E.
  - destruct (eqb k k0) eqn:E; simpl.
    + apply eqb_eq in E. subst k0.
      assert (E' : eqb k' k = false) by (apply eqb_neq; congruence).
      now rewrite E'.
    + destruct (eqb k' k0); auto.
Qed.

Lemma set_fresh {K V} `{Eqb K} (k : K) (v : V) d :
  ~ In k (PyDict.keys d) -> PyDict.set k v d = d ++ [(k, v)].
Proof.
  induction d as [|[k' v'] d IH]; simpl; intros Hn; auto.
  assert (E : eqb k k' = false) by (apply eqb_neq; intuition congruence).
  rewrite E. f_equal. apply IH. intuition.
Qed.

Lemma get_None {K V} `{Eqb K} (k : K) (d : list (K * V)) :
  PyDict.get k d = None <-> ~ In k (PyDict.keys d).
Proof.
  induction d as [|[k' v'] d IH]; simpl.
  - intuition.
  - destruct (eqb_spec k k') as [->|Hne].
    + split; [discriminate | intuition].
    + rewrite IH. intuition congruence.
Qed.

Lemma get_In {K V} `{Eqb K} (k : K) (v : V) d :
  PyDict.get k d = Some v -> In (k, v) d.
Proof.
  induction d as [|[k' v'] d IH]; simpl; [discriminate|].
  destruct (eqb_spec k k') as [->|Hne].
  - intros [= ->]. now left.
  - intros Hg. right. now apply IH.
Qed.

Lemma In_get {K V} `{Eqb K} (k : K) (v : V) d :
  NoDup (PyDict.keys d) -> In (k, v) d -> PyDict.get k d = Some v.
Proof.
  induction d as [|[k' v'] d IH]; simpl; [intuition|].
  intros Hnd [Heq|Hin].
  - injection Heq as -> ->. now rewrite eqb_refl.
  - inversion Hnd as [|? ? Hk' Hnd']; subst.
    destruct (eqb_spec k k') as [->|Hne].
    + exfalso. apply Hk'. change k' with (fst (k', v)). now apply in_map.
    + now apply IH.
Qed.

Lemma fst_combine {A B} (l : list A) (l' : list B) :
  List.length l = List.length l' -> map fst (combine l l') = l.
Proof.
  revert l'. induction l as [|x l IH]; intros [|y l'] Hlen;
    simpl in *; try discriminate; auto.
  f_equal. apply IH. now injection Hlen.
Qed.

Lemma snd_combine {A B} (l : list A) (l' : list B) :
  List.length l = List.length l' -> map snd (combine l l') = l'.
Proof.
  revert l'. induction l as [|x l IH]; intros [|y l'] Hlen;
    simpl in *; try discriminate; auto.
  f_equal. apply IH. now injection Hlen.
Qed.

(** Looking up the [i]-th key of two aligned lists. *)
Lemma get_combine_nth {K V} `{Eqb K} (ks : list K) (vs : list V) i k v :
  NoDup ks -> List.length ks = List.length vs ->
  nth_error ks i = Some k -> nth_error vs i = Some v ->
  PyDict.get k (combine ks vs) = Some v.
Proof.
  intros Hnd Hlen Hk Hv. apply In_get.
  - unfold PyDict.keys. now rewrite fst_combine.
  - revert vs i Hlen Hk Hv. induction ks as [|k0 ks IH];
      intros [|v0 vs] [|i] Hlen Hk Hv; simpl in *; try discriminate.
    + injection Hk as ->. injection Hv as ->. now left.
    + right. inversion Hnd; subst. eapply IH; eauto.
Qed.

(** ** Sorting by insertion *)

Section Sorting.

Context {A : Type} (leb : A -> A -> bool).

Let le (x y : A) : Prop := leb x y = true.

Lemma insert_sorted_perm x l : Permutation (insert_sorted leb x l) (x :: l).
Proof.
  induction l as [|y l IH]; simpl; auto.
  destruct (leb x y); auto.
  rewrite IH. apply perm_swap.
Qed.

Lemma sort_perm l : Permutation (sort leb l) l.
Proof.
  induction l as [|x l IH]; simpl; auto.
  rewrite insert_sorted_perm. now constructor.
Qed.

Lemma sort_In x l : In x (sort leb l) <-> In x l.
Proof.
  split; apply Permutation_in; [|symmetry]; apply sort_perm.
Qed.

Lemma sort_length l : List.length (sort leb l) = List.length l.
Proof. apply Permutation_length, sort_perm. Qed.

Lemma sort_NoDup l : NoDup l -> NoDup (sort leb l).
Proof. apply Permutation_NoDup. symmetry. apply sort_perm. Qed.

Hypothesis leb_total : forall x y, leb x y = true \/ leb y x = true.

Lemma insert_sorted_Sorted x l :
  Sorted le l -> Sorted le (insert_sorted leb x l).
Proof.
  induction l as [|y l IH]; simpl; intros Hs.
  - repeat constructor.
  - destruct (leb x y) eqn:E.
    + constructor; [exact Hs | constructor; exact E].
    + inversion Hs as [|? ? Hs' Hhd]; subst.
      constructor; [now apply IH|].
      assert (Hyx : le y x) by (destruct (leb_total x y); congruence).
      destruct l as [|z l]; simpl.
      * now constructor.
      * destruct (leb x z); constructor; auto.
        now inversion Hhd.
Qed.

Lemma sort_Sorted l : Sorted le (sort leb l).
Proof.
  induction l as [|x l IH]; simpl; [constructor|].
  now apply insert_sorted_Sorted.
Qed.

Hypothesis leb_trans :
  forall x y z, leb x y = true -> leb y z = true -> leb x z = true.

Lemma sort_StronglySorted l : StronglySorted le (sort leb l).
Proof.
  apply Sorted_StronglySorted; [|apply sort_Sorted].
  intros x y z. apply leb_trans.
Qed.

(** In a sorted list, an earlier element is below a later one. *)
Lemma StronglySorted_nth l i j x y :
  StronglySorted le l ->
  nth_error l i = Some x -> nth_error l j = Some y -> (i < j)%nat ->
  le x y.
Proof.
  intros Hs. revert i j. induction Hs as [|a l Hs IH Hall];
    intros [|i] [|j] Hx Hy Hij; simpl in *; try discriminate; try lia.
  - injection Hx as ->. rewrite Forall_forall in Hall.
    apply Hall. eapply nth_error_In; eauto.
  - eapply IH; eauto. lia.
Qed.

End Sorting.

(** ** The order on values *)

Lemma string_leb_refl s : String.leb s s = true.
Proof.
  unfold String.leb.
  destruct (String.compare s s) eqn:E; auto.
  pose proof (String.compare_antisym s s) as Ha.
  rewrite E in Ha. discriminate.
Qed.

Lemma string_leb_trans s t u :
  String.leb s t = true -> String.leb t u = true -> String.leb s u = true.
Proof.
  unfold String.leb. intros Hst Htu.
  destruct (String.compare s t) eqn:Est; try discriminate.
  - apply String.compare_eq_iff in Est. now subst.
  - destruct (String.compare t u) eqn:Etu; try discriminate.
    + apply String.compare_eq_iff in Etu. subst. now rewrite Est.
    + assert (Hlt : String.compare s u = Lt).
      { apply String_as_OT.cmp_lt.
        eapply String_as_OT.lt_trans; apply String_as_OT.cmp_lt; eauto. }
      now rewrite Hlt.
Qed.

Lemma value_leb_total a b : value_leb a b = true \/ value_leb b a = true.
Proof.
  destruct a as [x|s], b as [y|t]; simpl; auto.
  - destruct (Z.leb_spec x y); auto. right. apply Z.leb_le. lia.
  - apply String.leb_total.
Qed.

Lemma value_leb_trans a b c :
  value_leb a b = true -> value_leb b c = true -> value_leb a c = true.
Proof.
  destruct a as [x|s], b as [y|t], c as [z|u]; simpl; auto;
    try discriminate.
  - rewrite !Z.leb_le. lia.
  - apply string_leb_trans.
Qed.

Lemma value_leb_antisym a b :
  value_leb a b = true -> value_leb b a = true -> a = b.
Proof.
  destruct a as [x|s], b as [y|t]; simpl; try discriminate.
  - rewrite !Z.leb_le. intros. f_equal. lia.
  - intros H1 H2. f_equal. now apply String.leb_antisym.
Qed.

Lemma value_ltb_spec a b :
  value_ltb a b = true <-> value_leb a b = true /\ a <> b.
Proof.
  unfold value_ltb. rewrite negb_true_iff. split.
  - intros Hba. split.
    + destruct (value_leb_total a b); congruence.
    + intros ->. destruct (value_leb_total b b); congruence.
  - intros [Hab Hne]. destruct (value_leb b a) eqn:E; auto.
    exfalso. apply Hne. now apply value_leb_antisym.
Qed.

(** ** numpy's [unique] *)

Lemma unique_NoDup ar u : unique ar = Ok u -> NoDup u.
Proof.
  unfold unique. destruct (_ || _); [|discriminate].
  intros [= <-]. apply sort_NoDup, NoDup_nodup.
Qed.

Lemma unique_In ar u v : unique ar = Ok u -> (In v u <-> In v ar).
Proof.
  unfold unique. destruct (_ || _); [|discriminate].
  intros [= <-]. rewrite sort_In. apply nodup_In.
Qed.

Lemma unique_sorted ar u :
  unique ar = Ok u -> StronglySorted (fun x y => value_leb x y = true) u.
Proof.
  unfold unique. destruct (_ || _); [|discriminate].
  intros [= <-].
  apply sort_StronglySorted; [apply value_leb_total | apply value_leb_trans].
Qed.

(** ** The label map and its inverse *)

Lemma ids_length n : List.length (ids n) = n.
Proof. unfold ids. now rewrite length_map, length_seq. Qed.

Lemma ids_S n : ids (S n) = ids n ++ [Z.of_nat n].
Proof. unfold ids. now rewrite seq_S, map_app. Qed.

Lemma ids_NoDup n : NoDup (ids n).
Proof.
  unfold ids. apply Finite.Injective_map_NoDup.
  - intros x y. apply Nat2Z.inj.
  - apply seq_NoDup.
Qed.

Lemma ids_nth_error n i :
  nth_error (ids n) i = if (i <? n)%nat then Some (Z.of_nat i) else None.
Proof.
  unfold ids. rewrite nth_error_map, nth_error_seq.
  now destruct (i <? n)%nat.
Qed.

Lemma combine_snoc {A B} (l : list A) (l' : list B) x y :
  List.length l = List.length l' ->
  combine (l ++ [x]) (l' ++ [y]) = combine l l' ++ [(x, y)].
Proof.
  revert l'. induction l as [|a l IH]; intros [|b l'] Hlen;
    simpl in *; try discriminate; auto.
  f_equal. apply IH. now injection Hlen.
Qed.

Lemma build_label_dict_from (label_list pre l : list value) :
  label_list = pre ++ l -> NoDup label_list ->
  fold_left
    (fun label_dict i =>
       match nth_error label_list i with
       | Some v => PyDict.set v (Z.of_nat i) label_dict
       | None => label_dict
       end)
    (seq (List.length pre) (List.length l))
    (combine pre (ids (List.length pre)))
  = combine label_list (ids (List.length label_list)).
Proof.
  revert pre. induction l as [|x l IH]; intros pre Heq Hnd.
  - simpl. rewrite app_nil_r in Heq. now subst.
  - simpl.
    assert (Hx : nth_error label_list (List.length pre) = Some x).
    { subst. rewrite nth_error_app2, Nat.sub_diag by lia. reflexivity. }
    rewrite Hx.
    assert (Hfresh : ~ In x (PyDict.keys (combine pre (ids (List.length pre))))).
    { unfold PyDict.keys. rewrite fst_combine by now rewrite ids_length.
      subst. apply NoDup_remove_2 in Hnd. intros Hin. apply Hnd.
      apply in_or_app. now left. }
    rewrite set_fresh by exact Hfresh.
    rewrite <- combine_snoc by now rewrite ids_length.
    rewrite <- ids_S.
    replace (S (List.length pre)) with (List.length (pre ++ [x]))
      by (rewrite length_app; simpl; lia).
    apply IH; [|exact Hnd].
    rewrite <- app_assoc. exact Heq.
Qed.

Lemma build_label_dict_combine (label_list : list value) :
  NoDup label_list ->
  build_label_dict label_list
  = combine label_list (ids (List.length label_list)).
Proof.
  intros Hnd. unfold build_label_dict.
  exact (@build_label_dict_from label_list [] label_list eq_refl Hnd).
Qed.

Lemma of_items_from {K V} `{Eqb K} (acc l : list (K * V)) :
  NoDup (PyDict.keys (acc ++ l)) ->
  fold_left (fun d kv => PyDict.set (fst kv) (snd kv) d) l acc = acc ++ l.
Proof.
  revert acc. induction l as [|[k v] l IH]; intros acc Hnd; simpl.
  - now rewrite app_nil_r.
  - assert (Hfresh : ~ In k (PyDict.keys acc)).
    { unfold PyDict.keys in *. rewrite map_app in Hnd. simpl in Hnd.
      apply NoDup_remove_2 in Hnd. intros Hin. apply Hnd.
      apply in_or_app. now left. }
    rewrite set_fresh by exact Hfresh.
    rewrite IH; rewrite <- app_assoc; [reflexivity | exact Hnd].
Qed.

Lemma of_items_NoDup {K V} `{Eqb K} (l : list (K * V)) :
  NoDup (PyDict.keys l) -> PyDict.of_items l = l.
Proof. intros Hnd. unfold PyDict.of_items. now rewrite of_items_from. Qed.

Lemma swap_combine {A B} (l : list A) (l' : list B) :
  map (fun p => (snd p, fst p)) (combine l l') = combine l' l.
Proof.
  revert l'. induction l as [|x l IH]; intros [|y l']; simpl; auto.
  now rewrite IH.
Qed.

Lemma invert_combine (label_list : list value) :
  invert (combine label_list (ids (List.length label_list)))
  = combine (ids (List.length label_list)) label_list.
Proof.
  unfold invert. rewrite swap_combine. apply of_items_NoDup.
  unfold PyDict.keys. rewrite fst_combine by apply ids_length.
  apply ids_NoDup.
Qed.

Lemma get_combine_inv {K V} `{Eqb K} (ks : list K) (vs : list V) k v :
  PyDict.get k (combine ks vs) = Some v ->
  exists i, nth_error ks i = Some k /\ nth_error vs i = Some v.
Proof.
  revert vs. induction ks as [|k0 ks IH]; intros [|v0 vs]; simpl;
    try discriminate.
  destruct (eqb_spec k k0) as [->|Hne].
  - intros [= ->]. now exists 0%nat.
  - intros Hg. destruct (IH _ Hg) as [i [Hk Hv]]. now exists (S i).
Qed.

(** ** Tables *)

Lemma rbind_Ok {A B} (r : result A) (k : A -> result B) b :
  rbind r k = Ok b -> exists a, r = Ok a /\ k a = Ok b.
Proof. destruct r as [a|e]; simpl; [eauto | discriminate]. Qed.

Lemma getcol_Ok df c s :
  getcol df c = Ok s ->
  In c (columns df) /\ s = map (fun r => (ix r, cell r c)) (rows df).
Proof.
  unfold getcol. destruct (mem c (columns df)) eqn:E; [|discriminate].
  intros [= <-]. split; [now apply mem_In | reflexivity].
Qed.

Lemma getcol_present df c :
  In c (columns df) ->
  getcol df c = Ok (map (fun r => (ix r, cell r c)) (rows df)).
Proof. intros Hin. unfold getcol. apply mem_In in Hin. now rewrite Hin. Qed.

Lemma renumber_length name rs :
  List.length (renumber name rs) = List.length rs.
Proof.
  unfold renumber. rewrite length_map, length_combine, length_seq. lia.
Qed.

Lemma renumber_from_cells name (rs : list Row) (a : nat) :
  map cell
    (map (fun ir =>
            {| ix := Z.of_nat (fst ir); cell := keep_label name (snd ir) |})
       (combine (seq a (List.length rs)) rs))
  = map (keep_label name) rs.
Proof.
  revert a. induction rs as [|r rs IH]; intros a; simpl; auto.
  now rewrite IH.
Qed.

Lemma renumber_cells name rs :
  map cell (renumber name rs) = map (keep_label name) rs.
Proof. apply renumber_from_cells. Qed.

Lemma renumber_ix name rs : map ix (renumber name rs) = ids (List.length rs).
Proof.
  unfold renumber, ids. rewrite map_map. simpl.
  rewrite <- (map_map fst Z.of_nat). f_equal.
  apply fst_combine. now rewrite length_seq.
Qed.

Lemma keep_label_other name r c :
  c <> name -> keep_label name r c = cell r c.
Proof.
  intros Hne. unfold keep_label.
  destruct (String.eqb_spec c name); congruence.
Qed.

Lemma keep_label_same name r : keep_label name r name = VInt (ix r).
Proof. unfold keep_label. now rewrite String.eqb_refl. Qed.

(** A column of a renumbered table, without the index. *)
Lemma renumber_column name rs c :
  c <> name ->
  map (fun r => cell r c) (renumber name rs) = map (fun r => cell r c) rs.
Proof.
  intros Hne.
  rewrite <- (map_map cell (fun f => f c)), renumber_cells, map_map.
  apply map_ext. intros r. now apply keep_label_other.
Qed.

(** The new column holds the former labels. *)
Lemma renumber_labels name rs :
  map (fun r => cell r name) (renumber name rs)
  = map (fun r => VInt (ix r)) rs.
Proof.
  rewrite <- (map_map cell (fun f => f name)), renumber_cells, map_map.
  apply map_ext. intros r. apply keep_label_same.
Qed.

Lemma index_name_cases cols :
  index_name cols = "index" /\ ~ In "index" cols
  \/ index_name cols = "level_0" /\ In "index" cols.
Proof.
  unfold index_name. destruct (mem "index" cols) eqn:E.
  - right. split; auto. now apply mem_In.
  - left. split; auto. now apply mem_nIn.
Qed.

Lemma reset_index_Ok df df' :
  reset_index df = Ok df' ->
  ~ In (index_name (columns df)) (columns df) /\ df' = with_index df.
Proof.
  unfold reset_index.
  destruct (mem (index_name (columns df)) (columns df)) eqn:E;
    [discriminate|].
  intros [= <-]. split; auto. now apply mem_nIn.
Qed.

Lemma reset_index_fresh df :
  ~ In (index_name (columns df)) (columns df) ->
  reset_index df = Ok (with_index df).
Proof.
  intros Hn. unfold reset_index. apply mem_nIn in Hn. now rewrite Hn.
Qed.

(** Lookup by label in a series indexed 0, 1, ..., n-1. *)
Lemma find_label_from (s : Series) (a : nat) (idx : Z) :
  map fst s = map Z.of_nat (seq a (List.length s)) ->
  find (fun p => Z.eqb (fst p) idx) s
  = if (Z.of_nat a <=? idx) && (idx <? Z.of_nat (a + List.length s))
    then nth_error s (Z.to_nat idx - a)
    else None.
Proof.
  revert a. induction s as [|[i v] s IH]; intros a Hix; simpl in *.
  - rewrite Nat.add_0_r.
    destruct (Z.leb_spec (Z.of_nat a) idx), (Z.ltb_spec idx (Z.of_nat a));
      simpl; auto; lia.
  - injection Hix as Hi Hs. subst i.
    destruct (Z.eqb_spec (Z.of_nat a) idx) as [<-|Hne].
    + rewrite Z.leb_refl, Nat2Z.id, Nat.sub_diag. simpl.
      destruct (Z.ltb_spec (Z.of_nat a) (Z.of_nat (a + S (List.length s))));
        [reflexivity | lia].
    + rewrite (IH (S a) Hs).
      destruct (Z.leb_spec (Z.of_nat (S a)) idx),
        (Z.ltb_spec idx (Z.of_nat (S a + List.length s))),
        (Z.leb_spec (Z.of_nat a) idx),
        (Z.ltb_spec idx (Z.of_nat (a + S (List.length s))));
        simpl; try lia; auto.
      replace (Z.to_nat idx - a)%nat with (S (Z.to_nat idx - S a)) by lia.
      reflexivity.
Qed.

Lemma series_getitem_range (s : Series) (idx : Z) :
  map fst s = ids (List.length s) ->
  series_getitem s idx
  = if (0 <=? idx) && (idx <? Z.of_nat (List.length s))
    then match nth_error s (Z.to_nat idx) with
         | Some p => Ok (snd p)
         | None => Raise KeyError
         end
    else Raise KeyError.
Proof.
  intros Hix. unfold series_getitem.
  rewrite (find_label_from s 0 idx Hix). simpl.
  rewrite Nat.sub_0_r.
  destruct ((0 <=? idx) && (idx <? Z.of_nat (List.length s))); reflexivity.
Qed.

(** ** The length filter *)

(** The mask of line 49, row by row. *)
Lemma mask_short_enough (rs : list Row) sc :
  series_le
    (map (fun p => (fst p,
                    match snd p with
                    | VStr t => Some (Z.of_nat (String.length t))
                    | VInt _ => None
                    end))
       (map (fun r => (ix r, cell r sc)) rs))
    1024
  = map (short_enough sc) rs.
Proof.
  unfold series_le. rewrite !map_map. apply map_ext. intros r. simpl.
  unfold short_enough. destruct (cell r sc); reflexivity.
Qed.

Lemma boolean_index_filter (p : Row -> bool) (l : list Row) :
  boolean_index l (map p l) = List.filter p l.
Proof.
  induction l as [|x l IH]; simpl; auto.
  destruct (p x); simpl; now rewrite IH.
Qed.

Lemma filter_snoc_seq_length (cols : list string) :
  List.filter (fun c' => negb (String.eqb c' "seq_length"))
    (if mem "seq_length" cols then cols else cols ++ ["seq_length"])
  = List.filter (fun c' => negb (String.eqb c' "seq_length")) cols.
Proof.
  destruct (mem "seq_length" cols); auto.
  rewrite filter_app. simpl. apply app_nil_r.
Qed.

Lemma mem_seq_length_added (cols : list string) :
  mem "seq_length"
    (if mem "seq_length" cols then cols else cols ++ ["seq_length"]) = true.
Proof.
  destruct (mem "seq_length" cols) eqn:E; auto.
  apply mem_In, in_or_app. right. now left.
Qed.

(** The whole step, as one equation. *)
Lemma filter_by_length_eq sc data :
  filter_by_length sc data
  = if mem sc (columns data)
    then if has_str (dtypes data sc)
              (map (fun r => (ix r, cell r sc)) (rows data))
         then reset_index (kept sc data)
         else Raise AttributeError
    else Ok data.
Proof.
  unfold filter_by_length.
  destruct (mem sc (columns data)) eqn:Hsc; auto.
  unfold getcol at 1. rewrite Hsc. simpl. unfold str_len.
  destruct (has_str _ _); simpl; auto.
  rewrite mask_short_enough.
  unfold drop, select, setcol. simpl.
  rewrite mem_seq_length_added.
  rewrite boolean_index_filter, filter_snoc_seq_length.
  reflexivity.
Qed.

(** A column of type [object] that holds text has the accessor. *)
Lemma has_str_text dt (rs : list Row) sc :
  dt = object ->
  forallb (fun r => is_str (cell r sc)) rs = true ->
  has_str dt (map (fun r => (ix r, cell r sc)) rs) = true.
Proof.
  intros -> Hall. destruct rs as [|r rs]; [reflexivity|].
  simpl in *. apply andb_prop in Hall as [Hr _]. now rewrite Hr.
Qed.

(** What went through the filter. *)
Lemma filter_by_length_Ok sc data data1 :
  filter_by_length sc data = Ok data1 ->
  (In sc (columns data) /\ dtypes data sc = object /\
   ~ In (index_name (columns (kept sc data))) (columns (kept sc data)) /\
   data1 = filtered sc data)
  \/ (~ In sc (columns data) /\ data1 = data).
Proof.
  rewrite filter_by_length_eq.
  destruct (mem sc (columns data)) eqn:Hsc.
  - destruct (has_str _ _) eqn:Hstr; [|discriminate].
    intros Hr. apply reset_index_Ok in Hr as [Hn ->].
    left. repeat split; auto; [now apply mem_In|].
    unfold has_str in Hstr. destruct (dtypes data sc); congruence.
  - intros [= <-]. right. split; auto. now apply mem_nIn.
Qed.

Lemma kept_columns sc data c :
  In c (columns (kept sc data)) <->
  In c (columns data) /\ c <> "seq_length".
Proof.
  unfold kept. simpl. rewrite filter_In, negb_true_iff.
  now rewrite String.eqb_neq.
Qed.

Lemma filtered_columns sc data c :
  In c (columns (filtered sc data)) <->
  c = index_name (columns (kept sc data))
  \/ In c (columns data) /\ c <> "seq_length".
Proof.
  change (columns (filtered sc data))
    with (index_name (columns (kept sc data)) :: columns (kept sc data)).
  rewrite <- (kept_columns sc data c). split.
  - intros [<-|H]; [now left | now right].
  - intros [->|H]; [now left | now right].
Qed.

(** The cells of the kept rows are those of the input. *)
Lemma filtered_column sc data c :
  c <> index_name (columns (kept sc data)) ->
  map (fun r => cell r c) (rows (filtered sc data))
  = map (fun r => cell r c) (List.filter (short_enough sc) (rows data)).
Proof.
  intros Hne. unfold filtered, with_index. cbn [rows].
  now rewrite renumber_column.
Qed.

Lemma filtered_ix sc data :
  map ix (rows (filtered sc data))
  = ids (List.length (rows (filtered sc data))).
Proof.
  unfold filtered, with_index. cbn [rows].
  now rewrite renumber_ix, renumber_length.
Qed.

Lemma filtered_length sc data :
  List.length (rows (filtered sc data))
  = List.length (List.filter (short_enough sc) (rows data)).
Proof. unfold filtered, with_index. cbn [rows]. apply renumber_length. Qed.

(** ** The monad *)

Lemma bind_Ok {A B} (m : M A) (k : A -> M B) w b w' :
  bind m k w = (Ok b, w') ->
  exists a w1, m w = (Ok a, w1) /\ k a w1 = (Ok b, w').
Proof.
  unfold bind. destruct (m w) as [[a|e] w1]; [eauto | discriminate].
Qed.

Lemma lift_Ok {A} (r : result A) w a w' :
  lift r w = (Ok a, w') -> r = Ok a /\ w' = w.
Proof. unfold lift. intros [= -> ->]. auto. Qed.

Lemma ret_Ok {A} (x : A) w a w' : ret x w = (Ok a, w') -> a = x /\ w' = w.
Proof. unfold ret. intros [= -> ->]. auto. Qed.

(** Inversion of a successful run, one bind at a time. *)
Ltac invert_run H :=
  repeat
    match type of H with
    | bind _ _ _ = (Ok _, _) =>
        let a := fresh "a" in
        let w := fresh "w" in
        let H1 := fresh "Hrun" in
        apply bind_Ok in H; destruct H as [a [w [H1 H]]]
    end.

(** ** Random sampling *)

Lemma advance_0 w : advance 0 w = w.
Proof. destruct w. unfold advance. simpl. now rewrite Nat.add_0_r. Qed.

Lemma advance_S n w :
  advance n
    {| draws := S (draws w); dirs := dirs w; files := files w;
       tokenizer_calls := tokenizer_calls w |}
  = advance (S n) w.
Proof. unfold advance. simpl. f_equal. lia. Qed.

Lemma choice_run high n w :
  exists picks,
    choice rand high n w = (Ok picks, advance n w) /\
    List.length picks = n /\
    (high <> O -> Forall (fun i => (i < high)%nat) picks).
Proof.
  revert w. induction n as [|n IH]; intros w; simpl.
  - exists []. rewrite advance_0. repeat split; auto.
  - unfold bind, randint at 1.
    destruct (IH {| draws := S (draws w); dirs := dirs w; files := files w;
                    tokenizer_calls := tokenizer_calls w |})
      as [picks [Hrun [Hlen Hlt]]].
    rewrite Hrun. unfold ret. rewrite advance_S.
    eexists. split; [reflexivity|]. simpl. split; [now rewrite Hlen|].
    intros Hh. constructor; [|now apply Hlt].
    now apply Nat.mod_upper_bound.
Qed.

Lemma sample_group_run n group w :
  group <> [] ->
  exists rs,
    sample_group rand n group w = (Ok rs, advance n w) /\
    List.length rs = n /\ incl rs group.
Proof.
  intros Hne. destruct group as [|r0 group]; [congruence|].
  unfold sample_group, bind.
  destruct (choice_run (List.length (r0 :: group)) n w)
    as [picks [Hrun [Hlen Hlt]]].
  rewrite Hrun. unfold ret. eexists. split; [reflexivity|].
  split; [now rewrite length_map|].
  intros r Hr. apply in_map_iff in Hr as [i [<- Hi]].
  apply nth_In. assert (Hh : List.length (r0 :: group) <> O) by (simpl; lia).
  specialize (Hlt Hh). rewrite Forall_forall in Hlt. now apply Hlt.
Qed.

Lemma count_occ_constant (l : list value) k0 k :
  (forall x, In x l -> x = k0) ->
  count_occ value_eq_dec l k
  = if value_eq_dec k k0 then List.length l else O.
Proof.
  intros Hall. induction l as [|x l IH]; simpl.
  - now destruct (value_eq_dec k k0).
  - assert (Hx : x = k0) by (apply Hall; now left). subst x.
    rewrite IH by (intros y Hy; apply Hall; now right).
    destruct (value_eq_dec k0 k), (value_eq_dec k k0); congruence.
Qed.

Lemma sample_groups_run n c (rs0 : list Row) keys w :
  NoDup keys -> incl keys (column_of c rs0) ->
  exists rs w',
    sample_groups rand n
      (map (fun k => List.filter (fun r => eqb (cell r c) k) rs0) keys) w
    = (Ok rs, w') /\
    incl rs rs0 /\
    forall k,
      count_occ value_eq_dec (column_of c rs) k
      = if in_dec value_eq_dec k keys then n else O.
Proof.
  revert w. induction keys as [|k0 keys IH]; intros w Hnd Hincl;
    cbn [map sample_groups].
  - exists [], w. repeat split; auto. intros r [].
  - inversion Hnd as [|? ? Hk0 Hnd']; subst.
    assert (Hg : List.filter (fun r => eqb (cell r c) k0) rs0 <> []).
    { assert (Hin : In k0 (column_of c rs0)) by (apply Hincl; now left).
      apply in_map_iff in Hin as [r [Hr Hin]].
      intros Hnil.
      assert (Hf : In r (List.filter (fun r => eqb (cell r c) k0) rs0)).
      { apply filter_In. split; auto. apply eqb_eq. exact Hr. }
      rewrite Hnil in Hf. destruct Hf. }
    destruct (sample_group_run n w Hg) as [a [Ha [Hlen Hsub]]].
    destruct (IH (advance n w) Hnd') as [b [w' [Hb [Hbsub Hcount]]]].
    { intros k Hk. apply Hincl. now right. }
    unfold bind. rewrite Ha, Hb. unfold ret.
    exists (a ++ b), w'. split; [reflexivity|]. split.
    + intros r Hr. apply in_app_or in Hr as [Hr|Hr]; auto.
      apply Hsub in Hr. now apply filter_In in Hr.
    + intros k. unfold column_of in *. rewrite map_app, count_occ_app.
      rewrite Hcount.
      rewrite (@count_occ_constant _ k0).
      2:{ intros x Hx. apply in_map_iff in Hx as [r [<- Hr]].
          apply Hsub, filter_In in Hr. now apply eqb_eq. }
      rewrite length_map, Hlen.
      destruct (value_eq_dec k k0) as [->|Hne].
      * destruct (in_dec value_eq_dec k0 keys); [contradiction|].
        destruct (in_dec value_eq_dec k0 (k0 :: keys)) as [|Hn]; [lia|].
        exfalso. apply Hn. now left.
      * destruct (in_dec value_eq_dec k keys) as [Hin|Hnin],
          (in_dec value_eq_dec k (k0 :: keys)) as [Hin'|Hnin'];
          simpl in *; try lia.
        -- exfalso. apply Hnin'. now right.
        -- destruct Hin' as [?|?]; [congruence | contradiction].
Qed.

Lemma groupby_Ok key df groups :
  groupby key df = Ok groups ->
  exists c,
    key = Some c /\ In c (columns df) /\
    groups
    = map (fun k => (k, List.filter (fun r => eqb (cell r c) k) (rows df)))
        (sort value_leb (nodup value_eq_dec (column_of c (rows df)))).
Proof.
  unfold groupby. destruct key as [c|]; [|discriminate].
  destruct (mem c (columns df)) eqn:E; [|discriminate].
  intros [= <-]. exists c. repeat split. now apply mem_In.
Qed.

Lemma groupby_keys c df groups k :
  groupby (Some c) df = Ok groups ->
  (In k (map fst groups) <-> In k (column_of c (rows df))).
Proof.
  intros Hg. apply groupby_Ok in Hg as [c' [[= <-] [_ ->]]].
  rewrite map_map. simpl. rewrite map_id, sort_In. apply nodup_In.
Qed.

Lemma in_dec_iff (l l' : list value) k (n : nat) :
  (In k l <-> In k l') ->
  (if in_dec value_eq_dec k l then n else O)
  = (if in_dec value_eq_dec k l' then n else O).
Proof.
  intros Hiff.
  destruct (in_dec value_eq_dec k l), (in_dec value_eq_dec k l');
    tauto.
Qed.

(** The rows of a table regrouped and resampled. *)
Lemma groupby_sample_Ok key n df w df' w' :
  groupby_sample rand key n df w = (Ok df', w') ->
  exists c,
    key = Some c /\ In c (columns df) /\ 0 <= n /\
    columns df' = columns df /\
    incl (rows df') (rows df) /\
    forall k,
      count_occ value_eq_dec (column_of c (rows df')) k
      = if in_dec value_eq_dec k (column_of c (rows df))
        then Z.to_nat n else O.
Proof.
  unfold groupby_sample. intros Hrun.
  apply bind_Ok in Hrun as [groups [w1 [Hg Hrun]]].
  apply lift_Ok in Hg as [Hg ->].
  destruct (Z.ltb_spec n 0) as [Hneg|Hpos]; [discriminate|].
  apply groupby_Ok in Hg as [c [-> [Hc ->]]].
  exists c.
  rewrite map_map in Hrun. cbn [snd] in Hrun.
  destruct (@sample_groups_run (Z.to_nat n) c (rows df)
              (sort value_leb (nodup value_eq_dec (column_of c (rows df))))
              w) as [rs [w2 [Hs [Hsub Hcount]]]].
  { apply sort_NoDup, NoDup_nodup. }
  { intros k Hk. now apply sort_In, nodup_In in Hk. }
  unfold bind in Hrun. rewrite Hs in Hrun.
  apply ret_Ok in Hrun as [-> _]. simpl.
  repeat split; auto.
  intros k. rewrite Hcount.
  apply in_dec_iff. rewrite sort_In. apply nodup_In.
Qed.

(** The resampled rows, labelled anew. *)
Lemma sampled_reset c n df df' data' :
  In c (columns df) ->
  columns df' = columns df ->
  incl (rows df') (rows df) ->
  (forall k,
     count_occ value_eq_dec (column_of c (rows df')) k
     = if in_dec value_eq_dec k (column_of c (rows df)) then n else O) ->
  reset_index df' = Ok data' ->
  sampled c n df data'.
Proof.
  intros Hc Hcols Hsub Hcount Hr.
  apply reset_index_Ok in Hr as [Hfresh ->].
  rewrite Hcols in Hfresh.
  unfold sampled, with_index. cbn [columns rows]. rewrite Hcols.
  split; [exact Hfresh|]. split; [reflexivity|]. split; [|split].
  - now rewrite renumber_ix, renumber_length.
  - unfold drawn_from. rewrite renumber_cells.
    intros f Hf. apply in_map_iff in Hf as [r [<- Hr]].
    apply in_map. now apply Hsub.
  - intros k. unfold column_of at 1. rewrite renumber_column.
    + apply Hcount.
    + intros ->. contradiction.
Qed.

(** ** The two sampling steps *)

Lemma median_sampling_Ok lc ns data w data' w' :
  median_sampling rand lc ns data w = (Ok data', w') ->
  (ns = -1 /\
   exists c groups m,
     lc = Some c /\ groupby (Some c) data = Ok groups /\
     py_int (median (size groups)) = Ok m /\ 0 <= m /\
     sampled c (Z.to_nat m) data data')
  \/ (ns <> -1 /\ data' = data /\ w' = w).
Proof.
  unfold median_sampling. destruct (Z.eqb_spec ns (-1)) as [->|Hne].
  - intros Hrun. left. split; auto.
    apply bind_Ok in Hrun as [groups [w0 [Hg Hrun]]].
    apply bind_Ok in Hrun as [m [w1 [Hm Hrun]]].
    apply bind_Ok in Hrun as [df' [w2 [Hs Hrun]]].
    apply lift_Ok in Hg as [Hg ->].
    apply lift_Ok in Hm as [Hm ->].
    apply lift_Ok in Hrun as [Hr ->].
    apply groupby_sample_Ok in Hs
      as (c & -> & Hc & Hpos & Hcols & Hsub & Hcount).
    exists c, groups, m.
    split; [reflexivity|]. split; [exact Hg|]. split; [exact Hm|].
    split; [exact Hpos|]. eapply sampled_reset; eauto.
  - intros Hrun. apply ret_Ok in Hrun as [-> ->]. now right.
Qed.

Lemma specific_sampling_Ok lc ns data w data' w' :
  specific_sampling rand lc ns data w = (Ok data', w') ->
  (0 < ns /\
   exists c,
     lc = Some c /\ In c (columns data) /\
     sampled c (Z.to_nat ns) data data')
  \/ (ns <= 0 /\ data' = data /\ w' = w).
Proof.
  unfold specific_sampling. destruct (Z.ltb_spec 0 ns) as [Hpos|Hle].
  - intros Hrun. left. split; auto.
    apply bind_Ok in Hrun as [df' [w2 [Hs Hrun]]].
    apply lift_Ok in Hrun as [Hr ->].
    apply groupby_sample_Ok in Hs
      as (c & -> & Hc & _ & Hcols & Hsub & Hcount).
    exists c. split; [reflexivity|]. split; [exact Hc|].
    eapply sampled_reset; eauto.
  - intros Hrun. apply ret_Ok in Hrun as [-> ->]. now right.
Qed.

(** ** What a successful construction went through *)

Lemma init_Ok a w d w' :
  init rand read_csv a w = (Ok d, w') ->
  exists data0 data3,
    load_table read_csv a = Ok data0 /\
    filter_by_length (Args.seq_column a) data0 = Ok (dataframe d) /\
    ((Args.nsamples a = -1 /\
      exists c groups m,
        Args.label_column a = Some c /\
        groupby (Some c) (dataframe d) = Ok groups /\
        py_int (median (size groups)) = Ok m /\ 0 <= m /\
        sampled c (Z.to_nat m) (dataframe d) data3)
     \/ (0 < Args.nsamples a /\
         exists c,
           Args.label_column a = Some c /\
           In c (columns (dataframe d)) /\
           sampled c (Z.to_nat (Args.nsamples a)) (dataframe d) data3)
     \/ (Args.nsamples a <> -1 /\ Args.nsamples a <= 0 /\
         data3 = dataframe d)) /\
    In (Args.seq_column a) (columns data3) /\
    seqs d
    = map (fun r => (ix r, cell r (Args.seq_column a))) (rows data3) /\
    labels d
    = option_map
        (fun c => map (fun r => (ix r, cell r c)) (rows data3))
        (Args.label_column a) /\
    (forall c, Args.label_column a = Some c ->
       In c (columns data3) /\
       exists u,
         unique (column_of c (rows data3)) = Ok u /\
         nu_labels d = Some (List.length u) /\
         (Args.mapper a = None -> label_dict d = build_label_dict u)) /\
    (forall m, Args.mapper a = Some m -> label_dict d = m) /\
    (Args.label_column a = None -> Args.mapper a <> None) /\
    id2label d = invert (label_dict d) /\
    return_seqs d = Args.return_seqs a.
Proof.
  unfold init. intros Hrun.
  apply bind_Ok in Hrun as [data0 [w0 [Hload Hrun]]].
  apply bind_Ok in Hrun as [data1 [w1 [Hfilter Hrun]]].
  apply bind_Ok in Hrun as [data2 [w2 [Hmedian Hrun]]].
  apply bind_Ok in Hrun as [data3 [w3 [Hspecific Hrun]]].
  apply bind_Ok in Hrun as [ls [w4 [Hlabels Hrun]]].
  apply bind_Ok in Hrun as [nu [w5 [Hnu Hrun]]].
  apply bind_Ok in Hrun as [old [w6 [Hdict Hrun]]].
  apply bind_Ok in Hrun as [ld [w7 [Hld Hrun]]].
  apply bind_Ok in Hrun as [u0 [w8 [Hsave Hrun]]].
  apply bind_Ok in Hrun as [ss [w9 [Hseqs Hrun]]].
  apply ret_Ok in Hrun as [-> _]. simpl.
  apply lift_Ok in Hload as [Hload ->].
  apply lift_Ok in Hfilter as [Hfilter ->].
  apply lift_Ok in Hseqs as [Hseqs ->].
  apply getcol_Ok in Hseqs as [Hsc ->].
  (* at most one of the two sampling steps runs *)
  assert (Hcases :
    (Args.nsamples a = -1 /\
     exists c groups m,
       Args.label_column a = Some c /\
       groupby (Some c) data1 = Ok groups /\
       py_int (median (size groups)) = Ok m /\ 0 <= m /\
       sampled c (Z.to_nat m) data1 data3)
    \/ (0 < Args.nsamples a /\
        exists c,
          Args.label_column a = Some c /\
          In c (columns data1) /\
          sampled c (Z.to_nat (Args.nsamples a)) data1 data3)
    \/ (Args.nsamples a <> -1 /\ Args.nsamples a <= 0 /\ data3 = data1)).
  { apply median_sampling_Ok in Hmedian
      as [[Hns [c [groups [m [Hlc [Hg [Hm [Hpos Hs]]]]]]]]|[Hns [-> ->]]].
    - apply specific_sampling_Ok in Hspecific
        as [[Hpos' _]|[_ [-> _]]]; [lia|].
      left. split; auto. exists c, groups, m. auto.
    - apply specific_sampling_Ok in Hspecific
        as [[Hpos [c [Hlc [Hc Hs]]]]|[Hle [-> _]]].
      + right. left. split; auto. exists c. auto.
      + right. right. auto. }
  (* the label series *)
  assert (Hls : ls = option_map
                       (fun c => map (fun r => (ix r, cell r c)) (rows data3))
                       (Args.label_column a) /\
                (forall c, Args.label_column a = Some c ->
                           In c (columns data3))).
  { destruct (Args.label_column a) as [c|]; simpl.
    - apply bind_Ok in Hlabels as [s [wl [Hl Hlabels]]].
      apply ret_Ok in Hlabels as [-> _].
      apply lift_Ok in Hl as [Hl _]. apply getcol_Ok in Hl as [Hc ->].
      split; auto. now intros c' [= <-].
    - apply ret_Ok in Hlabels as [-> _]. split; auto. discriminate. }
  destruct Hls as [-> Hlc].
  exists data0, data3.
  split; [exact Hload|]. split; [exact Hfilter|]. split; [exact Hcases|].
  split; [exact Hsc|]. split; [reflexivity|]. split; [reflexivity|].
  split; [|split; [|split; [|split; [reflexivity|reflexivity]]]].
  - (* unique, nu_labels, label_dict *)
    intros c Hc. split; [now apply Hlc|].
    rewrite Hc in *. simpl in *.
    apply bind_Ok in Hnu as [u [wu [Hu Hnu]]].
    apply ret_Ok in Hnu as [-> ->].
    apply lift_Ok in Hu as [Hu ->].
    rewrite map_map in Hu. simpl in Hu.
    exists u. split; [exact Hu|]. split; [reflexivity|].
    intros Hmap. rewrite Hmap in Hdict.
    apply bind_Ok in Hdict as [u' [wd [Hu' Hdict]]].
    apply ret_Ok in Hdict as [-> ->].
    apply lift_Ok in Hu' as [Hu' ->].
    rewrite map_map in Hu'. simpl in Hu'.
    unfold column_of in Hu. rewrite Hu in Hu'. injection Hu' as <-.
    now apply ret_Ok in Hld as [-> _].
  - (* an external map is kept *)
    intros m Hmap. rewrite Hmap in Hdict.
    assert (Hold : old = Some m).
    { destruct (option_map _ _); now apply ret_Ok in Hdict as [-> _]. }
    subst old. now apply ret_Ok in Hld as [-> _].
  - (* no label column and no map: line 94 raises *)
    intros Hnone Hmap. rewrite Hnone, Hmap in Hdict. simpl in Hdict.
    apply ret_Ok in Hdict as [-> ->]. discriminate.
Qed.

(** ** Constructed datasets *)

Lemma column_getitem (rs : list Row) c idx :
  map ix rs = ids (List.length rs) ->
  series_getitem (map (fun r => (ix r, cell r c)) rs) idx
  = if (0 <=? idx) && (idx <? Z.of_nat (List.length rs))
    then match nth_error rs (Z.to_nat idx) with
         | Some r => Ok (cell r c)
         | None => Raise KeyError
         end
    else Raise KeyError.
Proof.
  intros Hix. rewrite series_getitem_range.
  - rewrite length_map, nth_error_map.
    destruct (nth_error rs (Z.to_nat idx)); reflexivity.
  - rewrite map_map, length_map. simpl. exact Hix.
Qed.

Lemma index_name_not_scratch cols : index_name cols <> "seq_length".
Proof. unfold index_name. destruct (mem "index" cols); discriminate. Qed.

(** A row of a resampled table, and the row it copies. *)
Lemma sampled_row c n data data' r' :
  sampled c n data data' -> In r' (rows data') ->
  exists r,
    In r (rows data) /\
    cell r' = keep_label (index_name (columns data)) r /\
    (forall c', In c' (columns data) -> cell r' c' = cell r c') /\
    cell r' (index_name (columns data)) = VInt (ix r).
Proof.
  intros (Hfresh & _ & _ & Hdrawn & _) Hr'.
  assert (Hin : In (cell r') (map (keep_label (index_name (columns data)))
                                (rows data))).
  { apply Hdrawn. now apply in_map. }
  apply in_map_iff in Hin as [r [Heq Hr]].
  exists r. split; [exact Hr|]. split; [now symmetry|]. split.
  - intros c' Hc'. rewrite <- Heq. apply keep_label_other.
    intros ->. contradiction.
  - rewrite <- Heq. apply keep_label_same.
Qed.

(** The rows a constructed dataset serves: labelled 0, 1, 2, ..., each a
    copy of a row of the table kept by the dataset.  When that table has no
    column of the name given for the sequences, the column served is the
    one the resampling step made of the row labels. *)
Lemma constructed_rows a w d w' :
  init rand read_csv a w = (Ok d, w') ->
  exists rs,
    seqs d = map (fun r => (ix r, cell r (Args.seq_column a))) rs /\
    labels d
    = option_map (fun c => map (fun r => (ix r, cell r c)) rs)
        (Args.label_column a) /\
    map ix rs = ids (List.length rs) /\
    forall r', In r' rs ->
      exists r,
        In r (rows (dataframe d)) /\
        (forall c, In c (columns (dataframe d)) -> cell r' c = cell r c) /\
        (~ In (Args.seq_column a) (columns (dataframe d)) ->
         cell r' (Args.seq_column a) = VInt (ix r)).
Proof.
  intros Hinit.
  apply init_Ok in Hinit
    as (data0 & data3 & _ & Hfilter & Hcases & Hsc & Hseqs & Hlabels & _).
  exists (rows data3).
  split; [exact Hseqs|]. split; [exact Hlabels|].
  assert (Hsampled : forall c n,
            sampled c n (dataframe d) data3 ->
            map ix (rows data3) = ids (List.length (rows data3)) /\
            forall r', In r' (rows data3) ->
              exists r,
                In r (rows (dataframe d)) /\
                (forall c, In c (columns (dataframe d)) ->
                           cell r' c = cell r c) /\
                (~ In (Args.seq_column a) (columns (dataframe d)) ->
                 cell r' (Args.seq_column a) = VInt (ix r))).
  { intros c n Hs. split; [apply Hs|]. intros r' Hr'.
    destruct (@sampled_row c n (dataframe d) data3 r' Hs Hr')
      as (r & Hr & _ & Hsame & Hix).
    exists r. split; [exact Hr|]. split; [exact Hsame|].
    intros Hnot. destruct Hs as (_ & Hcols & _).
    rewrite Hcols in Hsc. destruct Hsc as [<-|Hin]; [exact Hix|contradiction]. }
  destruct Hcases as [[_ (c & g & m & _ & _ & _ & _ & Hs)]
                     |[[_ (c & _ & _ & Hs)]|(_ & _ & ->)]];
    try (eapply Hsampled; eassumption).
  apply filter_by_length_Ok in Hfilter
    as [(_ & _ & _ & Hdf)|(Hnot & Hdf)].
  - split.
    + rewrite Hdf. apply filtered_ix.
    + intros r' Hr'. exists r'. split; [exact Hr'|]. split; auto.
      intros Hn. contradiction.
  - rewrite Hdf in Hsc. contradiction.
Qed.

(** When the input has the sequence column, the table kept by the dataset
    is the filtered one, and it has the column. *)
Lemma constructed_filtered a w d w' data0 :
  init rand read_csv a w = (Ok d, w') ->
  load_table read_csv a = Ok data0 ->
  In (Args.seq_column a) (columns data0) ->
  dtypes data0 (Args.seq_column a) = object /\
  ~ In (index_name (columns (kept (Args.seq_column a) data0)))
      (columns (kept (Args.seq_column a) data0)) /\
  dataframe d = filtered (Args.seq_column a) data0 /\
  Args.seq_column a <> "seq_length" /\
  In (Args.seq_column a) (columns (kept (Args.seq_column a) data0)) /\
  In (Args.seq_column a) (columns (dataframe d)).
Proof.
  intros Hinit Hload Hsc0.
  apply init_Ok in Hinit
    as (data0' & data3 & Hload' & Hfilter & Hcases & Hsc & _).
  rewrite Hload in Hload'. injection Hload' as <-.
  apply filter_by_length_Ok in Hfilter
    as [(_ & Hdt & Hfresh & Hdf)|(Hnot & _)]; [|contradiction].
  assert (Hne : Args.seq_column a <> "seq_length").
  { intros Heq.
    assert (Hcols : forall c, In c (columns data3) ->
               c <> "seq_length").
    { assert (H1 : forall c, In c (columns (dataframe d)) ->
                 c <> "seq_length").
      { intros c Hc. rewrite Hdf in Hc. apply filtered_columns in Hc
          as [->|[_ Hc]]; [apply index_name_not_scratch | exact Hc]. }
      assert (H2 : forall c0 n, sampled c0 n (dataframe d) data3 ->
                 forall c, In c (columns data3) -> c <> "seq_length").
      { intros c0 n (_ & Hcols & _) c Hc. rewrite Hcols in Hc.
        destruct Hc as [<-|Hc]; [apply index_name_not_scratch | now apply H1]. }
      destruct Hcases as [[_ (c & g & m & _ & _ & _ & _ & Hs)]
                         |[[_ (c & _ & _ & Hs)]|(_ & _ & ->)]];
        [eapply H2; eassumption | eapply H2; eassumption | exact H1]. }
    now apply Hcols in Hsc. }
  assert (Hk : In (Args.seq_column a)
                 (columns (kept (Args.seq_column a) data0)))
    by now apply kept_columns.
  repeat split; auto.
  rewrite Hdf. apply filtered_columns. right. split; auto.
Qed.

(** The rows that passed the filter hold a text of at most 1024
    characters in the sequence column. *)
Lemma filtered_short sc data r :
  In sc (columns (kept sc data)) ->
  ~ In (index_name (columns (kept sc data))) (columns (kept sc data)) ->
  In r (rows (filtered sc data)) ->
  exists r0 t,
    In r0 (rows data) /\ cell r sc = VStr t /\
    (String.length t <= 1024)%nat /\
    forall c, In c (columns (kept sc data)) -> cell r c = cell r0 c.
Proof.
  intros Hsc Hfresh Hin.
  assert (Hcell : In (cell r) (map cell (rows (filtered sc data))))
    by now apply in_map.
  unfold filtered, with_index in Hcell. cbn [rows] in Hcell.
  rewrite renumber_cells in Hcell.
  apply in_map_iff in Hcell as [r0 [Heq Hr0]].
  change (rows (kept sc data))
    with (List.filter (short_enough sc) (rows data)) in Hr0.
  apply filter_In in Hr0 as [Hr0 Hshort].
  assert (Hsame : forall c, In c (columns (kept sc data)) ->
                            cell r c = cell r0 c).
  { intros c Hc. rewrite <- Heq. apply keep_label_other.
    intros ->. contradiction. }
  unfold short_enough in Hshort.
  destruct (cell r0 sc) as [z|t] eqn:E; [discriminate|].
  exists r0, t. split; [exact Hr0|]. split; [|split; [|exact Hsame]].
  - rewrite Hsame by exact Hsc. exact E.
  - apply Z.leb_le in Hshort. lia.
Qed.

(** What is stored at an index within the bounds. *)
Lemma constructed_lookup a w d w' idx :
  init rand read_csv a w = (Ok d, w') ->
  0 <= idx < Z.of_nat (len d) ->
  exists r' r,
    series_getitem (seqs d) idx = Ok (cell r' (Args.seq_column a)) /\
    In r (rows (dataframe d)) /\
    (forall c, In c (columns (dataframe d)) -> cell r' c = cell r c) /\
    (~ In (Args.seq_column a) (columns (dataframe d)) ->
     cell r' (Args.seq_column a) = VInt (ix r)) /\
    match Args.label_column a with
    | Some c =>
        exists ls,
          labels d = Some ls /\ series_getitem ls idx = Ok (cell r' c)
    | None => labels d = None
    end.
Proof.
  intros Hinit Hidx.
  apply constructed_rows in Hinit as (rs & Hseqs & Hlabels & Hix & Hfrom).
  unfold len in Hidx. rewrite Hseqs, length_map in Hidx.
  assert (Hin : (0 <=? idx) && (idx <? Z.of_nat (List.length rs)) = true).
  { apply andb_true_intro. split; [apply Z.leb_le | apply Z.ltb_lt]; lia. }
  destruct (nth_error rs (Z.to_nat idx)) as [r'|] eqn:Hr.
  2:{ apply nth_error_None in Hr. lia. }
  destruct (Hfrom r') as (r & Hr0 & Hsame & Hlab);
    [eapply nth_error_In; eauto|].
  exists r', r. split; [|split; [exact Hr0|split; [exact Hsame|split]]].
  - now rewrite Hseqs, column_getitem, Hin, Hr by exact Hix.
  - exact Hlab.
  - rewrite Hlabels. destruct (Args.label_column a) as [c|]; simpl; auto.
    eexists. split; [reflexivity|].
    now rewrite column_getitem, Hin, Hr by exact Hix.
Qed.

(** With the sequence column in the table kept, what is stored is a text
    of at most 1024 characters. *)
Lemma constructed_text a w d w' r' r :
  init rand read_csv a w = (Ok d, w') ->
  In (Args.seq_column a) (columns (dataframe d)) ->
  In r (rows (dataframe d)) ->
  cell r' (Args.seq_column a) = cell r (Args.seq_column a) ->
  exists t,
    cell r' (Args.seq_column a) = VStr t /\
    (String.length t <= 1024)%nat.
Proof.
  intros Hinit Hsc Hr Heq.
  apply init_Ok in Hinit as (data0 & data3 & _ & Hfilter & _).
  apply filter_by_length_Ok in Hfilter
    as [(Hsc0 & _ & Hfresh & Hdf)|(Hnot & Hdf)].
  - rewrite Hdf in Hr, Hsc.
    assert (Hk : In (Args.seq_column a)
                   (columns (kept (Args.seq_column a) data0))).
    { apply filtered_columns in Hsc as [Hsc|Hsc].
      - (* the sequence column is not the new column: its cells would be
           integers, and the filter keeps text only *)
        exfalso.
        assert (Hcell : In (cell r)
                          (map cell (rows (filtered (Args.seq_column a)
                                             data0))))
          by now apply in_map.
        unfold filtered, with_index in Hcell. cbn [rows] in Hcell.
        rewrite renumber_cells in Hcell.
        apply in_map_iff in Hcell as [r0 [_ Hr0]].
        change (rows (kept (Args.seq_column a) data0))
          with (List.filter (short_enough (Args.seq_column a))
                  (rows data0)) in Hr0.
        apply filter_In in Hr0 as [_ Hshort].
        apply Hfresh. rewrite <- Hsc. apply kept_columns. split; auto.
        rewrite Hsc. apply index_name_not_scratch.
      - now apply kept_columns. }
    destruct (@filtered_short (Args.seq_column a) data0 r Hk Hfresh Hr)
      as (r0 & t & _ & Ht & Hlen & _).
    exists t. split; [congruence | exact Hlen].
  - rewrite Hdf in Hsc. contradiction.
Qed.

Lemma constructed_out_of_range a w d w' idx :
  init rand read_csv a w = (Ok d, w') ->
  idx < 0 \/ Z.of_nat (len d) <= idx ->
  series_getitem (seqs d) idx = Raise KeyError.
Proof.
  intros Hinit Hidx.
  pose proof Hinit as Hrows.
  apply constructed_rows in Hrows as (rs & Hseqs & _ & Hix & _).
  unfold len in Hidx. rewrite Hseqs, length_map in Hidx.
  rewrite Hseqs, column_getitem by exact Hix.
  destruct (Z.leb_spec 0 idx), (Z.ltb_spec idx (Z.of_nat (List.length rs)));
    simpl; auto; lia.
Qed.

(** ** Item access *)

Lemma getitem_run d idx text w1 :
  series_getitem (seqs d) idx = Ok (VStr text) ->
  getitem tokenizer d idx w1
  = let enc := tokenizer (tokenizer_calls w1) text in
    match labels d with
    | Some ls =>
        match series_getitem ls idx with
        | Ok l =>
            match PyDict.get l (label_dict d) with
            | Some i =>
                (Ok (with_sequence d text (PyDict.set "label" (FInt i) enc)),
                 called text w1)
            | None => (Raise KeyError, called text w1)
            end
        | Raise e => (Raise e, called text w1)
        end
    | None => (Ok (with_sequence d text enc), called text w1)
    end.
Proof.
  intros Hs. unfold getitem, bind, lift, with_sequence, PyDict.subscript.
  rewrite Hs. simpl. unfold called.
  destruct (labels d) as [ls|].
  - destruct (series_getitem ls idx) as [l|e]; auto.
    destruct (PyDict.get l (label_dict d)); auto.
    destruct (return_seqs d); reflexivity.
  - destruct (return_seqs d); reflexivity.
Qed.

Lemma getitem_KeyError d idx w1 :
  series_getitem (seqs d) idx = Raise KeyError ->
  getitem tokenizer d idx w1 = (Raise KeyError, w1).
Proof.
  intros Hs. unfold getitem, bind, lift. now rewrite Hs.
Qed.

(** With the map built by the constructor, every label served has an
    index. *)
Lemma built_label_dict_covers a w d w' c :
  init rand read_csv a w = (Ok d, w') ->
  Args.label_column a = Some c -> Args.mapper a = None ->
  exists u ls,
    labels d = Some ls /\
    unique (values_of ls) = Ok u /\
    nu_labels d = Some (List.length u) /\
    label_dict d = combine u (ids (List.length u)) /\
    id2label d = combine (ids (List.length u)) u.
Proof.
  intros Hinit Hlc Hmap.
  apply init_Ok in Hinit
    as (data0 & data3 & _ & _ & _ & _ & _ & Hlabels & Hu & _ & _ & Hid & _).
  destruct (Hu c Hlc) as (_ & u & Hun & Hnu & Hld).
  specialize (Hld Hmap).
  rewrite Hlc in Hlabels. simpl in Hlabels.
  exists u, (map (fun r => (ix r, cell r c)) (rows data3)).
  assert (Hvals : values_of (map (fun r => (ix r, cell r c)) (rows data3))
                  = column_of c (rows data3)).
  { unfold values_of, column_of. now rewrite map_map. }
  rewrite Hvals.
  assert (Hnd : NoDup u) by (eapply unique_NoDup; eauto).
  rewrite build_label_dict_combine in Hld by exact Hnd.
  repeat split; auto.
  rewrite Hid, Hld. apply invert_combine.
Qed.

(** ** The median of group sizes *)

Lemma median_at_least_1 (l : list Z) m :
  (forall x, In x l -> 1 <= x) ->
  py_int (median l) = Ok m -> 1 <= m.
Proof.
  intros Hall. unfold median.
  assert (Hs : forall x, In x (sort Z.leb l) -> 1 <= x).
  { intros x Hx. apply Hall. now apply sort_In in Hx. }
  set (s := sort Z.leb l) in *.
  assert (Hnth : forall i, (i < List.length s)%nat -> 1 <= nth i s 0).
  { intros i Hi. apply Hs. now apply nth_In. }
  destruct (List.length s) as [|n] eqn:Hlen; [discriminate|].
  assert (Hhalf : (S n / 2 < S n)%nat)
    by (apply Nat.Div0.div_lt_upper_bound; lia).
  assert (Ha : (S n / 2 - 1 < S n)%nat) by lia.
  apply Hnth in Ha. apply Hnth in Hhalf.
  set (x := nth (S n / 2 - 1) s 0) in *.
  set (y := nth (S n / 2) s 0) in *.
  clearbody x y.
  destruct (Nat.even (S n)); unfold py_int; intros [= <-]; cbn.
  - rewrite !Z.mul_1_r.
    rewrite Z.quot_div_nonneg by lia.
    apply Z.div_le_lower_bound; lia.
  - now rewrite Z.quot_1_r.
Qed.

Lemma groupby_sizes c df groups :
  groupby (Some c) df = Ok groups ->
  forall k g, In (k, g) groups ->
    (1 <= List.length g)%nat /\
    g = List.filter (fun r => eqb (cell r c) k) (rows df) /\
    In k (column_of c (rows df)).
Proof.
  intros Hg k g Hin.
  pose proof (@groupby_keys c df groups k Hg) as Hkeys.
  apply groupby_Ok in Hg as [c' [[= <-] [_ ->]]].
  apply in_map_iff in Hin as [k' [[= -> <-] Hk]].
  assert (Hcol : In k (column_of c (rows df))).
  { now apply sort_In, nodup_In in Hk. }
  repeat split; auto.
  apply in_map_iff in Hcol as [r [Hr Hin]].
  assert (Hf : In r (List.filter (fun r => eqb (cell r c) k) (rows df))).
  { apply filter_In. split; auto. now apply eqb_eq. }
  destruct (List.filter _ (rows df)); [destruct Hf | simpl; lia].
Qed.

Lemma groupby_present c df :
  In c (columns df) -> exists groups, groupby (Some c) df = Ok groups.
Proof.
  intros Hc. unfold groupby. apply mem_In in Hc. rewrite Hc. eauto.
Qed.

(** The label column is a column of the table kept by the dataset. *)
Lemma label_column_kept a w d w' c :
  init rand read_csv a w = (Ok d, w') ->
  Args.label_column a = Some c ->
  In c (columns (dataframe d)).
Proof.
  intros Hinit Hlc.
  apply init_Ok in Hinit
    as (data0 & data3 & _ & _ & Hcases & _ & _ & _ & Hu & _).
  destruct (Hu c Hlc) as [Hc3 _].
  destruct Hcases as [[_ (c' & g & m & Hlc' & Hg & _)]
                     |[[_ (c' & Hlc' & Hc & _)]|(_ & _ & <-)]]; auto.
  - rewrite Hlc in Hlc'. injection Hlc' as <-.
    now apply groupby_Ok in Hg as (c' & [= <-] & Hc & _).
  - rewrite Hlc in Hlc'. now injection Hlc' as <-.
Qed.

(** Every label of the filtered table is still met after sampling. *)
Lemma labels_survive a w d w' c ls v :
  init rand read_csv a w = (Ok d, w') ->
  Args.label_column a = Some c -> labels d = Some ls ->
  In v (column_of c (rows (dataframe d))) -> In v (values_of ls).
Proof.
  intros Hinit Hlc Hls Hv.
  apply init_Ok in Hinit
    as (data0 & data3 & _ & _ & Hcases & _ & _ & Hlabels & _).
  rewrite Hlc in Hlabels. simpl in Hlabels. rewrite Hls in Hlabels.
  injection Hlabels as ->.
  unfold values_of. rewrite map_map. simpl. fold (column_of c (rows data3)).
  assert (Hpos : forall n data,
             (0 < n)%nat -> sampled c n (dataframe d) data ->
             In v (column_of c (rows data))).
  { intros n data Hn (_ & _ & _ & _ & Hcount).
    apply (count_occ_In value_eq_dec). rewrite Hcount.
    destruct (in_dec value_eq_dec v (column_of c (rows (dataframe d))));
      [lia | contradiction]. }
  destruct Hcases as [[_ (c' & g & m & Hc' & Hg & Hm & _ & Hs)]
                     |[[Hns (c' & Hc' & _ & Hs)]|(_ & _ & ->)]].
  - rewrite Hlc in Hc'. injection Hc' as <-.
    apply (Hpos (Z.to_nat m)); auto.
    assert (1 <= m); [|lia].
    apply (@median_at_least_1 (size g)); auto.
    intros x Hx. unfold size in Hx.
    apply in_map_iff in Hx as [[k rs] [<- Hin]].
    destruct (@groupby_sizes c _ _ Hg k rs Hin) as [Hlen _]. simpl. lia.
  - rewrite Hlc in Hc'. injection Hc' as <-.
    apply (Hpos (Z.to_nat (Args.nsamples a))); auto. lia.
  - exact Hv.
Qed.

(** ** What the dataset serves after sampling *)

Lemma labels_values a w d w' c :
  init rand read_csv a w = (Ok d, w') -> Args.label_column a = Some c ->
  exists ls rs,
    labels d = Some ls /\
    values_of ls = column_of c rs /\
    values_of (seqs d) = column_of (Args.seq_column a) rs /\
    ls = map (fun r => (ix r, cell r c)) rs /\
    seqs d = map (fun r => (ix r, cell r (Args.seq_column a))) rs /\
    map ix rs = ids (List.length rs) /\
    forall r', In r' rs ->
      exists r,
        In r (rows (dataframe d)) /\
        (forall c, In c (columns (dataframe d)) -> cell r' c = cell r c) /\
        (~ In (Args.seq_column a) (columns (dataframe d)) ->
         cell r' (Args.seq_column a) = VInt (ix r)).
Proof.
  intros Hinit Hlc.
  apply constructed_rows in Hinit as (rs & Hseqs & Hlabels & Hix & Hdrawn).
  rewrite Hlc in Hlabels. simpl in Hlabels.
  exists (map (fun r => (ix r, cell r c)) rs), rs.
  repeat split; auto.
  - unfold values_of, column_of. now rewrite map_map.
  - rewrite Hseqs. unfold values_of, column_of. now rewrite map_map.
Qed.

(** The labels served are labels of the table kept by the dataset. *)
Lemma labels_served a w d w' c ls v :
  init rand read_csv a w = (Ok d, w') ->
  Args.label_column a = Some c -> labels d = Some ls ->
  In v (values_of ls) -> In v (column_of c (rows (dataframe d))).
Proof.
  intros Hinit Hlc Hls Hv.
  pose proof (@label_column_kept a w d w' c Hinit Hlc) as Hc.
  destruct (@labels_values a w d w' c Hinit Hlc)
    as (ls' & rs & Hls' & Hvals & _ & _ & _ & _ & Hfrom).
  rewrite Hls in Hls'. injection Hls' as <-.
  rewrite Hvals in Hv. apply in_map_iff in Hv as [r' [<- Hr']].
  destruct (Hfrom r' Hr') as (r & Hr & Hsame & _).
  rewrite (Hsame c Hc). exact (in_map (fun r => cell r c) _ _ Hr).
Qed.

(** Every row served is a copy of a row that passed the length filter. *)
Lemma served_rows a w d w' c ls i l s :
  init rand read_csv a w = (Ok d, w') ->
  Args.label_column a = Some c -> labels d = Some ls ->
  series_getitem ls i = Ok l ->
  series_getitem (seqs d) i = Ok s ->
  exists r,
    In r (rows (dataframe d)) /\
    cell r c = l /\
    (In (Args.seq_column a) (columns (dataframe d)) ->
     cell r (Args.seq_column a) = s) /\
    (~ In (Args.seq_column a) (columns (dataframe d)) ->
     s = VInt (ix r)).
Proof.
  intros Hinit Hlc Hls Hl Hs.
  pose proof (@label_column_kept a w d w' c Hinit Hlc) as Hc.
  destruct (@labels_values a w d w' c Hinit Hlc)
    as (ls' & rs & Hls' & _ & _ & -> & Hseqs & Hix & Hfrom).
  rewrite Hls in Hls'. injection Hls' as ->.
  rewrite Hseqs in Hs. rewrite column_getitem in Hl, Hs by exact Hix.
  destruct ((0 <=? i) && (i <? Z.of_nat (List.length rs)));
    [|discriminate].
  destruct (nth_error rs (Z.to_nat i)) as [r'|] eqn:Hr; [|discriminate].
  injection Hl as <-. injection Hs as <-.
  destruct (Hfrom r') as (r & Hr0 & Hsame & Hlab);
    [eapply nth_error_In; eauto|].
  exists r. split; [exact Hr0|]. split; [|split].
  - symmetry. now apply Hsame.
  - intros Hsc. symmetry. now apply Hsame.
  - exact Hlab.
Qed.

Lemma sampled_occurrences c n data data' groups k :
  groupby (Some c) data = Ok groups ->
  sampled c n data data' ->
  count_occ value_eq_dec (column_of c (rows data')) k
  = if in_dec value_eq_dec k (map fst groups) then n else O.
Proof.
  intros Hg (_ & _ & _ & _ & Hcount). rewrite Hcount.
  apply in_dec_iff. symmetry. now apply groupby_keys.
Qed.

(** ** A table with a single row *)

Lemma groupby_single c df r :
  In c (columns df) -> rows df = [r] ->
  groupby (Some c) df = Ok [(cell r c, [r])].
Proof.
  intros Hc Hrows. unfold groupby. apply mem_In in Hc. rewrite Hc, Hrows.
  cbn [map nodup sort fold_right insert_sorted List.filter].
  destruct (in_dec value_eq_dec (cell r c) []) as [[]|_].
  cbn [map sort fold_right insert_sorted List.filter].
  now rewrite eqb_refl.
Qed.

Lemma one_row_served a w d w' r :
  init rand read_csv a w = (Ok d, w') ->
  Args.nsamples a <= 0 ->
  rows (dataframe d) = [r] ->
  In (Args.seq_column a) (columns (dataframe d)) ->
  values_of (seqs d) = [cell r (Args.seq_column a)].
Proof.
  intros Hinit Hns Hrows Hsc.
  apply init_Ok in Hinit
    as (data0 & data3 & _ & _ & Hcases & _ & Hseqs & _).
  rewrite Hseqs. unfold values_of. rewrite map_map. cbn [snd].
  destruct Hcases
    as [[_ (c & groups & m & Hlc & Hg & Hm & Hpos & Hs)]
       |[[Hns' _]|(_ & _ & ->)]]; try lia.
  2:{ now rewrite Hrows. }
  assert (Hc : In c (columns (dataframe d))).
  { apply groupby_Ok in Hg as (c' & [= <-] & Hc & _). exact Hc. }
  rewrite (groupby_single _ _ Hc Hrows) in Hg. injection Hg as <-.
  vm_compute in Hm. injection Hm as <-.
  assert (Hall : forall r', In r' (rows data3) ->
             cell r' c = cell r c /\
             cell r' (Args.seq_column a) = cell r (Args.seq_column a)).
  { intros r' Hr'.
    destruct (@sampled_row c _ (dataframe d) data3 r' Hs Hr')
      as (r0 & Hr0 & _ & Hsame & _).
    rewrite Hrows in Hr0. destruct Hr0 as [<-|[]]. auto. }
  destruct Hs as (_ & _ & _ & _ & Hcount).
  rewrite Hrows in Hcount.
  specialize (Hcount (cell r c)).
  rewrite (@count_occ_constant _ (cell r c)) in Hcount.
  2:{ intros x Hx. apply in_map_iff in Hx as [r' [<- Hr']].
      now apply Hall. }
  destruct (value_eq_dec (cell r c) (cell r c)); [|congruence].
  destruct (in_dec value_eq_dec (cell r c) (column_of c [r])) as [_|Hn].
  2:{ exfalso. apply Hn. now left. }
  unfold column_of in Hcount. rewrite length_map in Hcount.
  destruct (rows data3) as [|x [|y rs]]; try discriminate.
  simpl. f_equal. apply Hall. now left.
Qed.

(** What item access finds at an index within the bounds: a value in the
    sequence column, a text when the table kept by the dataset has the
    sequence column; and, in a dataset with labels, the label of the row,
    which has an index when the constructor built the label map. *)
Lemma constructed_access a w d w' idx :
  init rand read_csv a w = (Ok d, w') ->
  0 <= idx < Z.of_nat (len d) ->
  exists v,
    series_getitem (seqs d) idx = Ok v /\
    (In (Args.seq_column a) (columns (dataframe d)) ->
     exists text, v = VStr text /\ (String.length text <= 1024)%nat) /\
    match labels d with
    | Some ls =>
        exists l,
          series_getitem ls idx = Ok l /\
          (Args.mapper a = None -> PyDict.get l (label_dict d) <> None)
    | None => True
    end.
Proof.
  intros Hinit Hidx.
  destruct (@constructed_lookup a w d w' idx Hinit Hidx)
    as (r' & r & Hs & Hr & Hsame & _ & Hlab).
  exists (cell r' (Args.seq_column a)). split; [exact Hs|]. split.
  - intros Hsc.
    apply (@constructed_text a w d w' r' r Hinit Hsc Hr (Hsame _ Hsc)).
  - destruct (Args.label_column a) as [c|] eqn:Hlc.
    + destruct Hlab as (ls & Hls & Hl). rewrite Hls.
      exists (cell r' c). split; [exact Hl|].
      intros Hmap.
      destruct (@built_label_dict_covers a w d w' c Hinit Hlc Hmap)
        as (u & ls' & Hls' & Hu & _ & Hld & _).
      rewrite Hls in Hls'. injection Hls' as <-.
      rewrite get_None. rewrite Hld. unfold PyDict.keys.
      rewrite fst_combine by now rewrite ids_length.
      intros Hnot. apply Hnot.
      apply (@unique_In _ _ (cell r' c) Hu).
      unfold series_getitem in Hl.
      destruct (find _ ls) as [p|] eqn:Hf; [|discriminate].
      injection Hl as <-. apply find_some in Hf as [Hin _].
      unfold values_of. now apply in_map.
    + rewrite Hlab. exact I.
Qed.

(** * The properties of the class *)

(** C7.  Item access outside the bounds.  For every constructed dataset of
    length [L], item access at an index below 0 or from [L] on raises
    [KeyError], the error of the lookup by label in the sequence column,
    and returns no sample; the tokenizer is not called (the world is
    unchanged).  In particular so at index [L] and at index -1. *)
Theorem getitem_out_of_bounds a w d w' :
  init rand read_csv a w = (Ok d, w') ->
  (forall idx w1,
     idx < 0 \/ Z.of_nat (len d) <= idx ->
     getitem tokenizer d idx w1 = (Raise KeyError, w1)) /\
  (forall w1,
     getitem tokenizer d (Z.of_nat (len d)) w1 = (Raise KeyError, w1)) /\
  (forall w1, getitem tokenizer d (-1) w1 = (Raise KeyError, w1)).
Proof.
  intros Hinit.
  assert (Hout : forall idx w1,
             idx < 0 \/ Z.of_nat (len d) <= idx ->
             getitem tokenizer d idx w1 = (Raise KeyError, w1)).
  { intros idx w1 Hidx. apply getitem_KeyError.
    eapply constructed_out_of_range; eauto. }
  split; [exact Hout|]. split; intros w1; apply Hout; lia.
Qed.

(** C8.  No caching.  For every constructed dataset and every index within
    bounds, the sequence column holds a value at the index, a text when
    the table kept by the dataset has the sequence column.  Two accesses
    at the index of a text call the tokenizer twice on it: the record of
    calls grows by the text each time.  Each access returns the sample
    made of the answer to its own call, the second of the answer the
    tokenizer gives after the first call (when the dataset has labels and
    an external label map lacks the label of the row, each raises
    [KeyError], after its call).  With a deterministic tokenizer the two
    outcomes are equal. *)
Theorem getitem_never_cached a w d w' idx w1 :
  init rand read_csv a w = (Ok d, w') ->
  0 <= idx < Z.of_nat (len d) ->
  exists v,
    series_getitem (seqs d) idx = Ok v /\
    (In (Args.seq_column a) (columns (dataframe d)) ->
     exists text, v = VStr text) /\
    forall text, v = VStr text ->
      let w2 := called text w1 in
      let enc1 := tokenizer (tokenizer_calls w1) text in
      let enc2 := tokenizer (tokenizer_calls w2) text in
      snd (getitem tokenizer d idx w1) = w2 /\
      snd (getitem tokenizer d idx w2) = called text w2 /\
      tokenizer_calls (called text w2) = tokenizer_calls w1 ++ [text; text] /\
      match labels d with
      | Some ls =>
          exists l,
            series_getitem ls idx = Ok l /\
            (Args.mapper a = None ->
             PyDict.get l (label_dict d) <> None) /\
            match PyDict.get l (label_dict d) with
            | Some i =>
                fst (getitem tokenizer d idx w1)
                = Ok (with_sequence d text
                        (PyDict.set "label" (FInt i) enc1)) /\
                fst (getitem tokenizer d idx w2)
                = Ok (with_sequence d text
                        (PyDict.set "label" (FInt i) enc2))
            | None =>
                fst (getitem tokenizer d idx w1) = Raise KeyError /\
                fst (getitem tokenizer d idx w2) = Raise KeyError
            end
      | None =>
          fst (getitem tokenizer d idx w1) = Ok (with_sequence d text enc1) /\
          fst (getitem tokenizer d idx w2) = Ok (with_sequence d text enc2)
      end /\
      (deterministic tokenizer ->
       fst (getitem tokenizer d idx w2) = fst (getitem tokenizer d idx w1)).
Proof.
  intros Hinit Hidx.
  destruct (@constructed_access a w d w' idx Hinit Hidx)
    as (v & Hs & Htext & Hlab).
  exists v. split; [exact Hs|]. split.
  { intros Hsc. destruct (Htext Hsc) as (text & -> & _). eauto. }
  intros text ->. cbv zeta.
  rewrite !(@getitem_run d idx text _ Hs). cbv zeta.
  destruct (labels d) as [ls|].
  - destruct Hlab as (l & Hl & Hmap). rewrite Hl.
    split; [|split; [|split; [|split]]].
    + destruct (PyDict.get l (label_dict d)); reflexivity.
    + destruct (PyDict.get l (label_dict d)); reflexivity.
    + simpl. now rewrite <- app_assoc.
    + exists l. split; [reflexivity|]. split; [exact Hmap|].
      destruct (PyDict.get l (label_dict d)); split; reflexivity.
    + intros Hdet.
      rewrite (Hdet (tokenizer_calls (called text w1)) (tokenizer_calls w1)).
      destruct (PyDict.get l (label_dict d)); reflexivity.
  - split; [reflexivity|]. split; [reflexivity|]. split.
    + simpl. now rewrite <- app_assoc.
    + split; [split; reflexivity|].
      intros Hdet.
      now rewrite (Hdet (tokenizer_calls (called text w1))
                     (tokenizer_calls w1)).
Qed.

(** C6, as amended.  For every constructed dataset and every index within
    bounds, the sequence column holds a value at the index, a text when
    the table kept by the dataset has the sequence column, and item access
    calls the tokenizer on that text.  Without labels it returns the
    encoding, with the raw sequence under ["sequence"] when sequences are
    returned.  With labels it looks the raw label of that row up in the
    label map: if the map has an entry, the sample is the encoding with
    that entry under ["label"] (and the sequence as before); if it has
    none, which only an externally supplied map allows, the access raises
    [KeyError].  A sample has a field ["label"] without labels, or a field
    ["sequence"] when sequences are not returned, only if the encoding of
    the tokenizer has it. *)
Theorem getitem_sample a w d w' idx w1 :
  init rand read_csv a w = (Ok d, w') ->
  0 <= idx < Z.of_nat (len d) ->
  exists v,
    series_getitem (seqs d) idx = Ok v /\
    (In (Args.seq_column a) (columns (dataframe d)) ->
     exists text, v = VStr text) /\
    forall text, v = VStr text ->
      let enc := tokenizer (tokenizer_calls w1) text in
      match labels d with
      | Some ls =>
          exists l,
            series_getitem ls idx = Ok l /\
            match PyDict.get l (label_dict d) with
            | Some i =>
                fst (getitem tokenizer d idx w1)
                = Ok (with_sequence d text (PyDict.set "label" (FInt i) enc))
            | None => fst (getitem tokenizer d idx w1) = Raise KeyError
            end /\
            (Args.mapper a = None -> PyDict.get l (label_dict d) <> None)
      | None =>
          fst (getitem tokenizer d idx w1) = Ok (with_sequence d text enc)
      end /\
      forall s,
        fst (getitem tokenizer d idx w1) = Ok s ->
        (labels d = None ->
         PyDict.get "label" s = PyDict.get "label" enc) /\
        (return_seqs d = false ->
         PyDict.get "sequence" s = PyDict.get "sequence" enc).
Proof.
  intros Hinit Hidx.
  destruct (@constructed_access a w d w' idx Hinit Hidx)
    as (v & Hs & Htext & Hlab).
  exists v. split; [exact Hs|]. split.
  { intros Hsc. destruct (Htext Hsc) as (text & -> & _). eauto. }
  intros text ->. cbv zeta.
  rewrite (@getitem_run d idx text _ Hs). cbv zeta.
  assert (Hls : "sequence" <> "label") by discriminate.
  assert (Hsl : "label" <> "sequence") by discriminate.
  unfold with_sequence.
  destruct (labels d) as [ls|].
  - destruct Hlab as (l & Hl & Hmap). rewrite Hl. split.
    + exists l. split; [reflexivity|]. split; [|exact Hmap].
      destruct (PyDict.get l (label_dict d)); reflexivity.
    + intros s Hret. split; [discriminate|]. intros Hno.
      rewrite Hno in *.
      destruct (PyDict.get l (label_dict d)); [|discriminate].
      injection Hret as <-. now apply get_set_other.
  - split; [reflexivity|].
    intros s Hret. simpl in Hret. injection Hret as <-. split.
    + intros _. destruct (return_seqs d); [|reflexivity].
      now apply get_set_other.
    + intros ->. reflexivity.
Qed.

(** C1.  [from_fastx] with no label column and no label map: for a file
    that parses to any list of records (two of them, say) and whatever the
    sequence column asked for, construction raises [AttributeError] and
    returns no dataset.  Line 94 asks [self.label_dict], which is [None]
    then, for its [items].  (For a file without records line 45 raises it
    before: the columns made of empty lists are not of text.) *)
Theorem from_fastx_without_map_raises fasta_filename records sc ns w :
  SeqIO_parse fasta_filename (last5 fasta_filename) = Ok records ->
  from_fastx rand read_csv SeqIO_parse fasta_filename sc None ns None w
  = (Raise AttributeError, w).
Proof.
  intros Hparse. unfold from_fastx, bind at 1, lift at 1.
  rewrite Hparse. unfold init, bind at 1, lift at 1, load_table.
  cbn [Args.dataframe Args.seq_column Args.label_column Args.nsamples
       Args.mapper Args.save_id_map Args.sim Args.return_seqs].
  unfold bind at 1, lift at 1. rewrite filter_by_length_eq.
  destruct (mem sc (columns (DataFrame_of_dict _))) eqn:Hmem;
    [|reflexivity].
  destruct (has_str _ _); reflexivity.
Qed.

(** C10.  Median sampling without a label column.  With [label_column]
    left at [None] and the sample count at its default -1, construction
    never returns a dataset; when the table loads and passes the length
    filter, the error is the [TypeError] of [groupby(None)], raised before
    any random draw or file access. *)
Theorem median_sampling_needs_label_column a w :
  Args.label_column a = None ->
  Args.nsamples a = -1 ->
  (exists e w', init rand read_csv a w = (Raise e, w')) /\
  (forall data0 data1,
     load_table read_csv a = Ok data0 ->
     filter_by_length (Args.seq_column a) data0 = Ok data1 ->
     init rand read_csv a w = (Raise TypeError, w)).
Proof.
  intros Hlc Hns.
  assert (Hinit :
    init rand read_csv a w
    = match load_table read_csv a with
      | Ok data0 =>
          match filter_by_length (Args.seq_column a) data0 with
          | Ok _ => (Raise TypeError, w)
          | Raise e => (Raise e, w)
          end
      | Raise e => (Raise e, w)
      end).
  { unfold init. rewrite Hlc, Hns. unfold bind at 1, lift at 1.
    destruct (load_table read_csv a) as [data0|e0]; [|reflexivity].
    unfold bind at 1, lift at 1.
    destruct (filter_by_length (Args.seq_column a) data0); reflexivity. }
  rewrite Hinit. split.
  - destruct (load_table read_csv a) as [data0|e0]; [|eauto].
    destruct (filter_by_length (Args.seq_column a) data0); eauto.
  - intros data0 data1 -> ->. reflexivity.
Qed.

(** C5.  The label map is a bijection.  With a label column and no
    external map, the map built by the constructor sends the distinct raw
    labels of the data one-to-one onto 0, ..., k-1, where k is their
    number, and [id2label] is its inverse.  The labels of the data are
    those of the rows that passed the length filter, resampled or not. *)
Theorem label_map_bijection a w d w' c :
  init rand read_csv a w = (Ok d, w') ->
  Args.label_column a = Some c -> Args.mapper a = None ->
  exists ls k,
    labels d = Some ls /\ nu_labels d = Some k /\
    k = List.length (nodup value_eq_dec (values_of ls)) /\
    (forall v, In v (values_of ls) ->
       exists i,
         0 <= i < Z.of_nat k /\
         PyDict.get v (label_dict d) = Some i /\
         PyDict.get i (id2label d) = Some v) /\
    (forall i, 0 <= i < Z.of_nat k ->
       exists v,
         In v (values_of ls) /\
         PyDict.get i (id2label d) = Some v /\
         PyDict.get v (label_dict d) = Some i) /\
    (forall v i,
       PyDict.get v (label_dict d) = Some i <->
       PyDict.get i (id2label d) = Some v) /\
    (forall v, In v (column_of c (rows (dataframe d))) ->
               In v (values_of ls)).
Proof.
  intros Hinit Hlc Hmap.
  destruct (@built_label_dict_covers a w d w' c Hinit Hlc Hmap)
    as (u & ls & Hls & Hu & Hnu & Hld & Hid).
  assert (Hnd : NoDup u) by (eapply unique_NoDup; eauto).
  assert (Hlen : List.length u = List.length (ids (List.length u)))
    by now rewrite ids_length.
  exists ls, (List.length u). rewrite Hld, Hid.
  split; [exact Hls|]. split; [exact Hnu|]. split.
  { unfold unique in Hu. destruct (_ || _); [|discriminate].
    injection Hu as <-. apply sort_length. }
  split; [|split; [|split]].
  - intros v Hv. apply (@unique_In _ _ v Hu) in Hv.
    apply In_nth_error in Hv as [p Hp].
    assert (Hlt : (p < List.length u)%nat).
    { apply nth_error_Some. congruence. }
    assert (Hi : nth_error (ids (List.length u)) p = Some (Z.of_nat p)).
    { rewrite ids_nth_error. apply Nat.ltb_lt in Hlt. now rewrite Hlt. }
    exists (Z.of_nat p). split; [lia|]. split.
    + eapply get_combine_nth; eauto.
    + eapply get_combine_nth; eauto. apply ids_NoDup.
  - intros i Hi.
    assert (Hlt : (Z.to_nat i < List.length u)%nat) by lia.
    destruct (nth_error u (Z.to_nat i)) as [v|] eqn:Hv.
    2:{ apply nth_error_None in Hv. lia. }
    assert (Hi' : nth_error (ids (List.length u)) (Z.to_nat i) = Some i).
    { rewrite ids_nth_error. apply Nat.ltb_lt in Hlt. rewrite Hlt.
      f_equal. lia. }
    exists v. split; [|split].
    + apply (@unique_In _ _ v Hu). eapply nth_error_In; eauto.
    + eapply get_combine_nth; eauto. apply ids_NoDup.
    + eapply get_combine_nth; eauto.
  - intros v i. split; intros Hg;
      apply get_combine_inv in Hg as [p [Hp Hq]];
      eapply get_combine_nth; eauto; apply ids_NoDup.
  - intros v Hv. eapply labels_survive; eauto.
Qed.

(** C9.  Label indices follow the ascending order of the raw labels.  With
    a label column and no external map, a label has a smaller index
    exactly when it is the smaller value, and index 0 belongs to the
    smallest label of the data. *)
Theorem label_ids_ascending a w d w' c :
  init rand read_csv a w = (Ok d, w') ->
  Args.label_column a = Some c -> Args.mapper a = None ->
  (forall u v i j,
     PyDict.get u (label_dict d) = Some i ->
     PyDict.get v (label_dict d) = Some j ->
     (i < j <-> value_ltb u v = true)) /\
  (forall ls v,
     labels d = Some ls -> In v (values_of ls) ->
     exists m,
       PyDict.get 0 (id2label d) = Some m /\
       PyDict.get m (label_dict d) = Some 0 /\
       value_leb m v = true).
Proof.
  intros Hinit Hlc Hmap.
  destruct (@built_label_dict_covers a w d w' c Hinit Hlc Hmap)
    as (u & ls & Hls & Hu & _ & Hld & Hid).
  assert (Hnd : NoDup u) by (eapply unique_NoDup; eauto).
  assert (Hsorted := unique_sorted _ Hu).
  rewrite Hld, Hid. split.
  - intros x y i j Hx Hy.
    apply get_combine_inv in Hx as [p [Hp Hi]].
    apply get_combine_inv in Hy as [q [Hq Hj]].
    rewrite ids_nth_error in Hi, Hj.
    destruct (p <? List.length u)%nat; [|discriminate].
    destruct (q <? List.length u)%nat; [|discriminate].
    injection Hi as <-. injection Hj as <-.
    rewrite value_ltb_spec. split.
    + intros Hlt. assert (Hpq : (p < q)%nat) by lia. split.
      * eapply StronglySorted_nth; eauto.
      * intros ->.
        assert (p = q); [|lia].
        eapply NoDup_nth_error; eauto.
        -- apply nth_error_Some. congruence.
        -- congruence.
    + intros [Hle Hne].
      destruct (Nat.lt_trichotomy p q) as [Hlt|[->|Hgt]]; [lia| |].
      * congruence.
      * exfalso. apply Hne. apply value_leb_antisym; auto.
        eapply StronglySorted_nth; eauto.
  - intros ls' v Hls' Hv. rewrite Hls in Hls'. injection Hls' as <-.
    apply (@unique_In _ _ v Hu) in Hv.
    destruct u as [|m u]; [destruct Hv|].
    exists m. split; [reflexivity|]. split; [|].
    + apply (@get_combine_nth value Z _ (m :: u)
               (ids (List.length (m :: u))) 0%nat m 0); auto.
      now rewrite ids_length.
    + destruct Hv as [<-|Hv].
      * destruct (value_leb_total m m); auto.
      * apply StronglySorted_inv in Hsorted as [_ Hall].
        rewrite Forall_forall in Hall. now apply Hall.
Qed.

(** C4.  An explicit sample count.  With a sample count [n > 0],
    construction resamples every label group of the length-filtered table
    to exactly [n] rows, whatever the size (at least 1) of the group; no
    other label is served, and every row served is a copy of a row of the
    filtered table with that label (the draws are with replacement, so a
    group smaller than [n] repeats rows).  The sequence served with a
    label is the sequence of the row copied; should the table have no
    column of the name given for the sequences, it is the index label of
    that row, which the resampling step keeps in a column of its own. *)
Theorem specific_sampling_counts a w d w' :
  init rand read_csv a w = (Ok d, w') ->
  0 < Args.nsamples a ->
  exists c groups ls,
    Args.label_column a = Some c /\
    groupby (Some c) (dataframe d) = Ok groups /\
    labels d = Some ls /\
    (forall k g, In (k, g) groups ->
       (1 <= List.length g)%nat /\
       Z.of_nat (occurrences k ls) = Args.nsamples a) /\
    (forall k, ~ In k (map fst groups) -> occurrences k ls = O) /\
    (forall i l s,
       series_getitem ls i = Ok l -> series_getitem (seqs d) i = Ok s ->
       exists r,
         In r (rows (dataframe d)) /\
         cell r c = l /\
         (In (Args.seq_column a) (columns (dataframe d)) ->
          cell r (Args.seq_column a) = s) /\
         (~ In (Args.seq_column a) (columns (dataframe d)) ->
          s = VInt (ix r))).
Proof.
  intros Hinit Hns.
  pose proof Hinit as Hinv.
  apply init_Ok in Hinv
    as (data0 & data3 & _ & _ & Hcases & _ & _ & Hlabels & _).
  destruct Hcases as [[Hns' _]|[[_ (c & Hlc & Hc & Hs)]|(_ & Hns' & _)]];
    try lia.
  destruct (groupby_present _ _ Hc) as [groups Hg].
  rewrite Hlc in Hlabels. simpl in Hlabels.
  exists c, groups, (map (fun r => (ix r, cell r c)) (rows data3)).
  split; [exact Hlc|]. split; [exact Hg|]. split; [exact Hlabels|].
  assert (Hocc : forall k,
             occurrences k (map (fun r => (ix r, cell r c)) (rows data3))
             = if in_dec value_eq_dec k (map fst groups)
               then Z.to_nat (Args.nsamples a) else O).
  { intros k. unfold occurrences, values_of. rewrite map_map. simpl.
    fold (column_of c (rows data3)).
    eapply sampled_occurrences; eauto. }
  split; [|split].
  - intros k g Hin. split.
    + eapply groupby_sizes; eauto.
    + rewrite Hocc.
      destruct (in_dec value_eq_dec k (map fst groups)) as [|Hn]; [lia|].
      exfalso. apply Hn. change k with (fst (k, g)). now apply in_map.
  - intros k Hk. rewrite Hocc.
    destruct (in_dec value_eq_dec k (map fst groups)); [contradiction|].
    reflexivity.
  - intros i l s Hl Hsq. eapply served_rows; eauto.
Qed.

(** C3, as amended.  With the sample count at its default -1,
    construction resamples every label group of the length-filtered table
    to exactly [int(median)] rows, the median of the group sizes truncated
    to an integer; no other label is served, and every row served is a
    copy of a row of the filtered table with that label (its sequence the
    sequence of that row or, should the table have no column of the name
    given for the sequences, the index label of that row).  For group
    sizes 2 and 6 every group has 4 rows. *)
Theorem median_sampling_counts a w d w' :
  init rand read_csv a w = (Ok d, w') ->
  Args.nsamples a = -1 ->
  exists c groups ls m,
    Args.label_column a = Some c /\
    groupby (Some c) (dataframe d) = Ok groups /\
    labels d = Some ls /\
    py_int (median (size groups)) = Ok m /\
    (forall k, In k (map fst groups) -> Z.of_nat (occurrences k ls) = m) /\
    (forall k, ~ In k (map fst groups) -> occurrences k ls = O) /\
    (forall i l s,
       series_getitem ls i = Ok l -> series_getitem (seqs d) i = Ok s ->
       exists r,
         In r (rows (dataframe d)) /\
         cell r c = l /\
         (In (Args.seq_column a) (columns (dataframe d)) ->
          cell r (Args.seq_column a) = s) /\
         (~ In (Args.seq_column a) (columns (dataframe d)) ->
          s = VInt (ix r))) /\
    (Permutation (size groups) [2; 6] -> m = 4).
Proof.
  intros Hinit Hns.
  pose proof Hinit as Hinv.
  apply init_Ok in Hinv
    as (data0 & data3 & _ & _ & Hcases & _ & _ & Hlabels & _).
  destruct Hcases
    as [[_ (c & groups & m & Hlc & Hg & Hm & Hpos & Hs)]
       |[[Hns' _]|(Hns' & _)]]; try lia.
  rewrite Hlc in Hlabels. simpl in Hlabels.
  exists c, groups, (map (fun r => (ix r, cell r c)) (rows data3)), m.
  split; [exact Hlc|]. split; [exact Hg|]. split; [exact Hlabels|].
  split; [exact Hm|].
  assert (Hocc : forall k,
             occurrences k (map (fun r => (ix r, cell r c)) (rows data3))
             = if in_dec value_eq_dec k (map fst groups)
               then Z.to_nat m else O).
  { intros k. unfold occurrences, values_of. rewrite map_map. simpl.
    fold (column_of c (rows data3)).
    eapply sampled_occurrences; eauto. }
  split; [|split; [|split]].
  - intros k Hk. rewrite Hocc.
    destruct (in_dec value_eq_dec k (map fst groups)); [lia|contradiction].
  - intros k Hk. rewrite Hocc.
    destruct (in_dec value_eq_dec k (map fst groups)); [contradiction|].
    reflexivity.
  - intros i l s Hl Hsq. eapply served_rows; eauto.
  - intros Hperm. symmetry in Hperm.
    apply Permutation_length_2_inv in Hperm as [Heq|Heq];
      rewrite Heq in Hm; vm_compute in Hm; now injection Hm.
Qed.

(** C2, as amended.  The length filter.  For every table that has the
    sequence column, the table kept by a constructed dataset consists of
    exactly the rows of the input whose sequence is a text of at most 1024
    characters, in their order: every column of the input (the scratch
    name [seq_length] apart) is there with the cells of those rows, after
    one new first column that holds their former index labels.  The
    sequences served are sequences of kept rows: all of them, in order,
    when no resampling is asked for.  A table whose sequences all have at
    most 1024 characters loses no row.  From a table of two rows with
    sequences of 2000 and of 10 characters the dataset has length 1 and
    serves the short sequence, unless a positive sample count [n] is
    given: the dataset then has length [n]. *)
Theorem length_filter a w d w' data0 :
  init rand read_csv a w = (Ok d, w') ->
  load_table read_csv a = Ok data0 ->
  In (Args.seq_column a) (columns data0) ->
  let sc := Args.seq_column a in
  let short := List.filter (short_enough sc) (rows data0) in
  (forall r,
     In r short <->
     In r (rows data0) /\
     exists t, cell r sc = VStr t /\ (String.length t <= 1024)%nat) /\
  List.length (rows (dataframe d)) = List.length short /\
  (exists name,
     columns (dataframe d)
     = name :: List.filter (fun c => negb (String.eqb c "seq_length"))
                 (columns data0) /\
     (name = "index" \/ name = "level_0") /\
     column_of name (rows (dataframe d)) = map (fun r => VInt (ix r)) short) /\
  (forall c, In c (columns data0) -> c <> "seq_length" ->
             In c (columns (dataframe d)) /\
             column_of c (rows (dataframe d)) = column_of c short) /\
  (Args.nsamples a <> -1 -> Args.nsamples a <= 0 ->
   values_of (seqs d) = column_of sc short) /\
  (forall v, In v (values_of (seqs d)) -> In v (column_of sc short)) /\
  (forallb (short_enough sc) (rows data0) = true ->
   List.length (rows (dataframe d)) = List.length (rows data0)) /\
  (forall r1 r2 t1 t2,
     rows data0 = [r1; r2] ->
     cell r1 sc = VStr t1 -> cell r2 sc = VStr t2 ->
     String.length t1 = 2000%nat -> String.length t2 = 10%nat ->
     (Args.nsamples a <= 0 ->
      len d = 1%nat /\ values_of (seqs d) = [VStr t2]) /\
     (0 < Args.nsamples a ->
      Z.of_nat (len d) = Args.nsamples a /\
      forall v, In v (values_of (seqs d)) -> v = VStr t2)).
Proof.
  intros Hinit Hload Hsc0 sc short.
  destruct (@constructed_filtered a w d w' data0 Hinit Hload Hsc0)
    as (_ & Hfresh & Hdf & Hne & Hk & Hsc).
  fold sc in Hfresh, Hdf, Hne, Hk, Hsc.
  assert (Hkeptcol : forall c, In c (columns data0) -> c <> "seq_length" ->
             In c (columns (dataframe d)) /\
             column_of c (rows (dataframe d)) = column_of c short).
  { intros c Hc Hcne. split.
    - rewrite Hdf. apply filtered_columns. right. auto.
    - rewrite Hdf. apply filtered_column.
      intros ->. apply Hfresh. now apply kept_columns. }
  assert (Hserved : forall v, In v (values_of (seqs d)) ->
                              In v (column_of sc short)).
  { intros v Hv.
    pose proof Hinit as Hrows.
    apply constructed_rows in Hrows as (rs & Hs & _ & _ & Hfrom).
    rewrite Hs in Hv. unfold values_of in Hv. rewrite map_map in Hv.
    apply in_map_iff in Hv as [r' [<- Hr']]. cbn [snd].
    destruct (Hfrom r' Hr') as (r & Hr & Hsame & _).
    fold sc. rewrite (Hsame sc Hsc).
    destruct (Hkeptcol sc Hsc0 Hne) as [_ <-].
    exact (in_map (fun r => cell r sc) _ _ Hr). }
  split; [|split; [|split; [|split; [|split; [|split; [|split]]]]]].
  - intros r. unfold short. rewrite filter_In. unfold short_enough.
    split; intros [Hr Hshort]; split; auto.
    + destruct (cell r sc) as [z|t]; [discriminate|].
      exists t. split; auto. apply Z.leb_le in Hshort. lia.
    + destruct Hshort as (t & -> & Hlen). apply Z.leb_le. lia.
  - rewrite Hdf. apply filtered_length.
  - exists (index_name (columns (kept sc data0))).
    split; [now rewrite Hdf|]. split.
    + destruct (index_name_cases (columns (kept sc data0)))
        as [[-> _]|[-> _]]; auto.
    + rewrite Hdf. unfold filtered, with_index, column_of. cbn [rows].
      apply renumber_labels.
  - exact Hkeptcol.
  - intros Hns1 Hns2.
    pose proof Hinit as Hinv.
    apply init_Ok in Hinv
      as (data0' & data3 & _ & _ & Hcases & _ & Hseqs & _).
    destruct Hcases as [[? _]|[[? _]|(_ & _ & ->)]]; try lia.
    rewrite Hseqs. unfold values_of. rewrite map_map. cbn [snd].
    now apply Hkeptcol.
  - exact Hserved.
  - intros Hall. rewrite Hdf, filtered_length.
    f_equal. apply forallb_filter_id. exact Hall.
  - intros r1 r2 t1 t2 Hrows Ht1 Ht2 Hl1 Hl2.
    assert (Hshort : short = [r2]).
    { unfold short. rewrite Hrows. simpl. unfold short_enough.
      rewrite Ht1, Ht2, Hl1, Hl2. reflexivity. }
    assert (Hone : exists r, rows (dataframe d) = [r] /\ cell r sc = VStr t2).
    { destruct (Hkeptcol sc Hsc0 Hne) as [_ Hcol].
      rewrite Hshort in Hcol. unfold column_of in Hcol. simpl in Hcol.
      destruct (rows (dataframe d)) as [|r [|r' rs]]; try discriminate.
      exists r. split; [reflexivity|]. rewrite <- Ht2. now injection Hcol. }
    destruct Hone as (r & Hone & Hr).
    assert (Hall : forall v, In v (values_of (seqs d)) -> v = VStr t2).
    { intros v Hv. apply Hserved in Hv. rewrite Hshort in Hv.
      destruct Hv as [<-|[]]. now symmetry. }
    split.
    + intros Hns.
      pose proof (@one_row_served a w d w' r Hinit Hns Hone Hsc) as Hs.
      fold sc in Hs. rewrite Hr in Hs. split; [|exact Hs].
      unfold len. unfold values_of in Hs.
      rewrite <- (length_map snd), Hs. reflexivity.
    + intros Hns. split; [|exact Hall].
      pose proof Hinit as Hinv.
      apply init_Ok in Hinv
        as (data0' & data3 & _ & _ & Hcases & _ & Hseqs & _).
      destruct Hcases as [[? _]|[[_ (c & Hlc & Hc & Hs)]|(_ & ? & _)]];
        try lia.
      unfold len. rewrite Hseqs, length_map.
      assert (Hlab : forall r', In r' (rows data3) -> cell r' c = cell r c).
      { intros r' Hr'.
        destruct (@sampled_row c _ (dataframe d) data3 r' Hs Hr')
          as (r0 & Hr0 & _ & Hsame & _).
        rewrite Hone in Hr0. destruct Hr0 as [<-|[]]. auto. }
      destruct Hs as (_ & _ & _ & _ & Hcount).
      specialize (Hcount (cell r c)). rewrite Hone in Hcount.
      rewrite (@count_occ_constant _ (cell r c)) in Hcount.
      2:{ intros x Hx. apply in_map_iff in Hx as [r' [<- Hr']].
          now apply Hlab. }
      destruct (value_eq_dec (cell r c) (cell r c)); [|congruence].
      destruct (in_dec value_eq_dec (cell r c) (column_of c [r])) as [_|Hn].
      2:{ exfalso. apply Hn. now left. }
      unfold column_of in Hcount. rewrite length_map in Hcount.
      rewrite Hcount. lia.
Qed.

(** ** Construction returns

    The statements above are about the dataset of a successful
    construction.  Here is when construction succeeds: on a table that has
    the two columns (under names other than the scratch name) and no
    column [index] or [level_0] of its own, sequences in a column of type
    [object], labels of one kind and, for median sampling, at least one
    sequence that is short enough. *)

Lemma bind_run {A B} (m : M A) (k : A -> M B) w a w1 :
  m w = (Ok a, w1) -> bind m k w = k a w1.
Proof. intros Hm. unfold bind. now rewrite Hm. Qed.

Lemma groupby_sample_run c n df w :
  In c (columns df) -> 0 <= n ->
  exists df' w', groupby_sample rand (Some c) n df w = (Ok df', w').
Proof.
  intros Hc Hn. unfold groupby_sample.
  destruct (groupby_present _ _ Hc) as [groups Hg].
  erewrite bind_run by (unfold lift; rewrite Hg; reflexivity).
  destruct (Z.ltb_spec n 0) as [?|_]; [lia|].
  apply groupby_Ok in Hg as (c' & [= <-] & _ & ->).
  rewrite map_map. cbn [snd].
  destruct (@sample_groups_run (Z.to_nat n) c (rows df)
              (sort value_leb (nodup value_eq_dec (column_of c (rows df))))
              w) as (rs & w' & Hs & _).
  - apply sort_NoDup, NoDup_nodup.
  - intros k Hk. now apply sort_In, nodup_In in Hk.
  - erewrite bind_run by exact Hs. unfold ret. eauto.
Qed.

(** Resampling, then labelling anew: it goes through when the table has
    no column of the name the former labels are to go under. *)
Lemma resample_run c n df w :
  In c (columns df) -> 0 <= n ->
  ~ In (index_name (columns df)) (columns df) ->
  exists data' w',
    (df' <- groupby_sample rand (Some c) n df ;; lift (reset_index df')) w
    = (Ok data', w').
Proof.
  intros Hc Hn Hfresh.
  destruct (@groupby_sample_run c n df w Hc Hn) as (df' & w' & Hs).
  erewrite bind_run by exact Hs.
  apply groupby_sample_Ok in Hs as (_ & _ & _ & _ & Hcols & _).
  unfold lift. rewrite reset_index_fresh by now rewrite Hcols. eauto.
Qed.

Lemma median_defined (l : list Z) :
  l <> [] -> exists m, py_int (median l) = Ok m.
Proof.
  intros Hne. unfold median.
  assert (Hlen : List.length (sort Z.leb l) <> O).
  { rewrite sort_length. destruct l; [congruence | discriminate]. }
  destruct (List.length (sort Z.leb l)) as [|n]; [congruence|].
  destruct (Nat.even (S n)); simpl; eauto.
Qed.

Lemma median_sampling_run c ns data w :
  In c (columns data) ->
  (ns = -1 -> rows data <> []) ->
  (ns = -1 -> ~ In (index_name (columns data)) (columns data)) ->
  exists data' w',
    median_sampling rand (Some c) ns data w = (Ok data', w').
Proof.
  intros Hc Hrows Hfresh. unfold median_sampling.
  destruct (Z.eqb_spec ns (-1)) as [Hns|_]; [|unfold ret; eauto].
  destruct (groupby_present _ _ Hc) as [groups Hg].
  erewrite bind_run by (unfold lift; rewrite Hg; reflexivity).
  assert (Hsize : size groups <> []).
  { pose proof (@groupby_keys c data groups) as Hkeys.
    destruct (rows data) as [|r rs] eqn:Hr; [now apply Hrows in Hns|].
    assert (Hin : In (cell r c) (map fst groups)).
    { apply Hkeys; auto. now left. }
    unfold size. destruct groups; [destruct Hin | discriminate]. }
  destruct (median_defined Hsize) as [m Hm].
  erewrite bind_run by (unfold lift; rewrite Hm; reflexivity).
  assert (Hpos : 1 <= m).
  { apply (@median_at_least_1 (size groups)); auto.
    intros x Hx. unfold size in Hx.
    apply in_map_iff in Hx as [[k g] [<- Hin]].
    destruct (@groupby_sizes c _ _ Hg k g Hin) as [Hlen _]. simpl. lia. }
  apply resample_run; auto. lia.
Qed.

Lemma specific_sampling_run c ns data w :
  In c (columns data) ->
  (0 < ns -> ~ In (index_name (columns data)) (columns data)) ->
  exists data' w',
    specific_sampling rand (Some c) ns data w = (Ok data', w').
Proof.
  intros Hc Hfresh. unfold specific_sampling.
  destruct (Z.ltb_spec 0 ns) as [Hns|_]; [|unfold ret; eauto].
  apply resample_run; auto. lia.
Qed.

(** The columns of a resampled table hold values of the table. *)
Lemma sampled_column c n data data' c' :
  sampled c n data data' -> In c' (columns data) ->
  incl (column_of c' (rows data')) (column_of c' (rows data)).
Proof.
  intros Hs Hc' v Hv. apply in_map_iff in Hv as [r' [<- Hr']].
  destruct (@sampled_row c n data data' r' Hs Hr')
    as (r & Hr & _ & Hsame & _).
  rewrite (Hsame c' Hc'). exact (in_map (fun r => cell r c') _ _ Hr).
Qed.

Lemma sampled_columns c n data data' c' :
  sampled c n data data' -> In c' (columns data) -> In c' (columns data').
Proof. intros (_ & -> & _) Hc'. now right. Qed.

Lemma one_kind_incl (l l' : list value) :
  incl l' l ->
  forallb is_int l || forallb is_str l = true ->
  forallb is_int l' || forallb is_str l' = true.
Proof.
  intros Hincl Hkind. apply orb_true_iff in Hkind as [Hk|Hk];
    apply orb_true_iff; [left|right];
    rewrite forallb_forall in *; auto.
Qed.

(** The two sampling steps, one after the other: they go through on a
    table that has the label column, some row when the median is asked
    for, and room for the column of the former labels; the columns of the
    table come out with values they had. *)
Lemma sampling_steps c ns data1 w :
  In c (columns data1) ->
  (ns = -1 -> rows data1 <> []) ->
  (ns = -1 \/ 0 < ns ->
   ~ In (index_name (columns data1)) (columns data1)) ->
  exists data2 w2 data3 w3,
    median_sampling rand (Some c) ns data1 w = (Ok data2, w2) /\
    specific_sampling rand (Some c) ns data2 w2 = (Ok data3, w3) /\
    (forall c', In c' (columns data1) ->
       In c' (columns data3) /\
       incl (column_of c' (rows data3)) (column_of c' (rows data1))) /\
    (forall c', In c' (columns data3) ->
       In c' (columns data1) \/ c' = index_name (columns data1)).
Proof.
  intros Hc Hrows Hfresh.
  destruct (@median_sampling_run c ns data1 w Hc Hrows) as (data2 & w2 & Hmed).
  { intros Hns. apply Hfresh. now left. }
  pose proof Hmed as Hinv.
  apply median_sampling_Ok in Hinv
    as [[Hns (c' & g & m & [= <-] & _ & _ & _ & Hs)]|(Hns & -> & ->)].
  - (* the median step ran; the other one does not *)
    exists data2, w2, data2, w2. split; [exact Hmed|]. split.
    { unfold specific_sampling. subst ns. reflexivity. }
    split.
    + intros c' Hc'. split.
      * eapply sampled_columns; eauto.
      * eapply sampled_column; eauto.
    + intros c' Hc'. destruct Hs as (_ & Hcols & _).
      rewrite Hcols in Hc'. destruct Hc' as [<-|Hc']; auto.
  - destruct (@specific_sampling_run c ns data1 w Hc)
      as (data3 & w3 & Hspec).
    { intros Hpos. apply Hfresh. now right. }
    exists data1, w, data3, w3. split; [exact Hmed|]. split; [exact Hspec|].
    pose proof Hspec as Hinv.
    apply specific_sampling_Ok in Hinv
      as [[Hpos (c' & [= <-] & _ & Hs)]|(_ & -> & _)].
    + split.
      * intros c' Hc'. split.
        -- eapply sampled_columns; eauto.
        -- eapply sampled_column; eauto.
      * intros c' Hc'. destruct Hs as (_ & Hcols & _).
        rewrite Hcols in Hc'. destruct Hc' as [<-|Hc']; auto.
    + split.
      * intros c' Hc'. split; [exact Hc' | apply incl_refl].
      * intros c' Hc'. now left.
Qed.

(** The run of the constructor from the label series on, to the saving of
    the id map. *)
Lemma init_from_labels a w data0 data1 data2 w2 data3 w3 c u :
  load_table read_csv a = Ok data0 ->
  filter_by_length (Args.seq_column a) data0 = Ok data1 ->
  Args.label_column a = Some c ->
  median_sampling rand (Some c) (Args.nsamples a) data1 w = (Ok data2, w2) ->
  specific_sampling rand (Some c) (Args.nsamples a) data2 w2
  = (Ok data3, w3) ->
  In c (columns data3) ->
  unique (column_of c (rows data3)) = Ok u ->
  exists ld,
    init rand read_csv a w
    = (saved <- save_map (Args.save_id_map a) (Args.sim a) (invert ld) ;;
       self_seqs <- lift (getcol data3 (Args.seq_column a)) ;;
       ret {| return_seqs := Args.return_seqs a;
              dataframe := data1;
              label_dict := ld;
              labels := Some (map (fun r => (ix r, cell r c)) (rows data3));
              nu_labels := Some (List.length u);
              label_name := Some c;
              id2label := invert ld;
              seqs := self_seqs |}) w3.
Proof.
  intros Hload Hfilter Hlc Hmed Hspec Hc3 Hu.
  assert (Hu' : unique (map snd (map (fun r => (ix r, cell r c))
                                   (rows data3))) = Ok u).
  { rewrite map_map. exact Hu. }
  unfold init. rewrite Hlc.
  erewrite bind_run by (unfold lift; rewrite Hload; reflexivity).
  erewrite bind_run by (unfold lift; rewrite Hfilter; reflexivity).
  erewrite bind_run by exact Hmed.
  erewrite bind_run by exact Hspec.
  erewrite bind_run.
  2:{ erewrite bind_run
        by (unfold lift; rewrite (getcol_present _ _ Hc3); reflexivity).
      reflexivity. }
  erewrite bind_run.
  2:{ erewrite bind_run by (unfold lift; rewrite Hu'; reflexivity).
      reflexivity. }
  destruct (Args.mapper a) as [m|].
  - exists m. erewrite bind_run by reflexivity.
    erewrite bind_run by reflexivity. reflexivity.
  - exists (build_label_dict u).
    erewrite bind_run.
    2:{ erewrite bind_run by (unfold lift; rewrite Hu'; reflexivity).
        reflexivity. }
    erewrite bind_run by reflexivity. reflexivity.
Qed.

(** X3.  When construction returns.  On a table that has the label column
    and the sequence column (under names other than [seq_length]) and no
    column named [index] or [level_0], text in its sequence column, of
    type [object], its labels of one kind and, for the default sample
    count -1, at least one sequence of at most 1024 characters,
    construction without saving the id map returns a dataset, for every
    sample count, every external map and every outcome of the random
    draws. *)
Theorem init_succeeds a w data0 c :
  load_table read_csv a = Ok data0 ->
  Args.label_column a = Some c ->
  In c (columns data0) -> c <> "seq_length" ->
  In (Args.seq_column a) (columns data0) ->
  Args.seq_column a <> "seq_length" ->
  dtypes data0 (Args.seq_column a) = object ->
  forallb (fun r => is_str (cell r (Args.seq_column a))) (rows data0)
  = true ->
  ~ In "index" (columns data0) -> ~ In "level_0" (columns data0) ->
  forallb is_int (column_of c (rows data0))
  || forallb is_str (column_of c (rows data0)) = true ->
  (Args.nsamples a = -1 ->
   existsb (short_enough (Args.seq_column a)) (rows data0) = true) ->
  Args.save_id_map a = false ->
  exists d w', init rand read_csv a w = (Ok d, w').
Proof.
  intros Hload Hlc Hc Hcne Hsc Hscne Hdt Hstr Hindex Hlevel Hkind Hshort
    Hsave.
  set (sc := Args.seq_column a) in *.
  assert (Hname : index_name (columns (kept sc data0)) = "index").
  { destruct (index_name_cases (columns (kept sc data0)))
      as [[Heq _]|[_ Hin]]; [exact Heq|].
    apply kept_columns in Hin as [Hin _]. contradiction. }
  assert (Hfresh : ~ In (index_name (columns (kept sc data0)))
                       (columns (kept sc data0))).
  { rewrite Hname. intros Hin. apply kept_columns in Hin as [Hin _].
    contradiction. }
  set (data1 := filtered sc data0).
  assert (Hfilter : filter_by_length sc data0 = Ok data1).
  { rewrite filter_by_length_eq. apply mem_In in Hsc. rewrite Hsc.
    rewrite (has_str_text _ _ Hdt Hstr). now apply reset_index_fresh. }
  assert (Hcols1 : columns data1 = "index" :: columns (kept sc data0)).
  { unfold data1, filtered, with_index. cbn [columns]. now rewrite Hname. }
  assert (Hc1 : In c (columns data1)).
  { apply filtered_columns. right. auto. }
  assert (Hsc1 : In sc (columns data1)).
  { apply filtered_columns. right. auto. }
  assert (Hfresh1 : ~ In (index_name (columns data1)) (columns data1)).
  { rewrite Hcols1. unfold index_name. simpl.
    intros [Heq|Hin]; [discriminate|].
    apply filter_In in Hin as [Hin _]. contradiction. }
  assert (Hrows1 : Args.nsamples a = -1 -> rows data1 <> []).
  { intros Hns. specialize (Hshort Hns).
    apply existsb_exists in Hshort as (r & Hr & Hok).
    intros Hnil.
    assert (Hlen : List.length (rows data1) = O) by now rewrite Hnil.
    unfold data1 in Hlen. rewrite filtered_length in Hlen.
    assert (Hin : In r (List.filter (short_enough sc) (rows data0)))
      by (apply filter_In; auto).
    destruct (List.filter (short_enough sc) (rows data0));
      [destruct Hin | discriminate]. }
  destruct (@sampling_steps c (Args.nsamples a) data1 w Hc1 Hrows1)
    as (data2 & w2 & data3 & w3 & Hmed & Hspec & Hkeep & _).
  { intros _. exact Hfresh1. }
  destruct (Hkeep c Hc1) as [Hc3 Hcol3].
  destruct (Hkeep sc Hsc1) as [Hsc3 _].
  (* the labels served are labels of the input, so of one kind *)
  assert (Hkind3 : forallb is_int (column_of c (rows data3))
                   || forallb is_str (column_of c (rows data3)) = true).
  { eapply one_kind_incl; [|exact Hkind].
    intros v Hv. apply Hcol3 in Hv.
    unfold data1, column_of in Hv. rewrite filtered_column in Hv.
    - apply in_map_iff in Hv as [r [<- Hr]]. apply filter_In in Hr as [Hr _].
      exact (in_map (fun r => cell r c) _ _ Hr).
    - intros ->. apply Hfresh. now apply kept_columns. }
  assert (Hu : exists u, unique (column_of c (rows data3)) = Ok u).
  { unfold unique. rewrite Hkind3. eauto. }
  destruct Hu as [u Hu].
  destruct (@init_from_labels a w data0 data1 data2 w2 data3 w3 c u
              Hload Hfilter Hlc Hmed Hspec Hc3 Hu) as (ld & ->).
  rewrite Hsave. unfold save_map, bind, lift, ret.
  fold sc. rewrite (getcol_present _ _ Hsc3). eauto.
Qed.

(** ** The effects of construction *)

Section Keeps.

Variable R : World -> World -> Prop.
Hypothesis R_refl : forall w, R w w.
Hypothesis R_trans : forall w1 w2 w3, R w1 w2 -> R w2 w3 -> R w1 w3.

Lemma keeps_ret {A} (x : A) : keeps R (ret x).
Proof. intros w. apply R_refl. Qed.

Lemma keeps_raise {A} (e : exn) : keeps R (@raise A e).
Proof. intros w. apply R_refl. Qed.

Lemma keeps_lift {A} (r : result A) : keeps R (lift r).
Proof. intros w. apply R_refl. Qed.

Lemma keeps_bind {A B} (m : M A) (k : A -> M B) :
  keeps R m -> (forall a, keeps R (k a)) -> keeps R (bind m k).
Proof.
  intros Hm Hk w. unfold bind. specialize (Hm w).
  destruct (m w) as [[a|e] w1]; simpl in *; auto.
  eapply R_trans; [exact Hm | apply Hk].
Qed.

Lemma keeps_path_exists path : keeps R (path_exists path).
Proof. intros w. apply R_refl. Qed.

Hypothesis R_randint : forall high, keeps R (randint rand high).

Lemma keeps_choice high n : keeps R (choice rand high n).
Proof.
  induction n as [|n IH]; simpl; [apply keeps_ret|].
  apply keeps_bind; [apply R_randint|]. intros i.
  apply keeps_bind; [exact IH|]. intros l. apply keeps_ret.
Qed.

Lemma keeps_sample_groups n groups : keeps R (sample_groups rand n groups).
Proof.
  induction groups as [|g groups IH]; cbn [sample_groups];
    [apply keeps_ret|].
  apply keeps_bind.
  - unfold sample_group. destruct g; [apply keeps_ret|].
    apply keeps_bind; [apply keeps_choice|]. intros l. apply keeps_ret.
  - intros a. apply keeps_bind; [exact IH|]. intros b. apply keeps_ret.
Qed.

Lemma keeps_groupby_sample key n df : keeps R (groupby_sample rand key n df).
Proof.
  unfold groupby_sample. apply keeps_bind; [apply keeps_lift|].
  intros groups. destruct (n <? 0); [apply keeps_raise|].
  apply keeps_bind; [apply keeps_sample_groups|]. intros rs. apply keeps_ret.
Qed.

Lemma keeps_median_sampling lc ns data :
  keeps R (median_sampling rand lc ns data).
Proof.
  unfold median_sampling. destruct (ns =? -1); [|apply keeps_ret].
  apply keeps_bind; [apply keeps_lift|]. intros groups.
  apply keeps_bind; [apply keeps_lift|]. intros m.
  apply keeps_bind; [apply keeps_groupby_sample|]. intros d.
  apply keeps_lift.
Qed.

Lemma keeps_specific_sampling lc ns data :
  keeps R (specific_sampling rand lc ns data).
Proof.
  unfold specific_sampling. destruct (0 <? ns); [|apply keeps_ret].
  apply keeps_bind; [apply keeps_groupby_sample|]. intros d.
  apply keeps_lift.
Qed.

End Keeps.

(** Construction keeps whatever its sampling steps and its saving step
    keep. *)
Lemma keeps_init (R : World -> World -> Prop) a :
  (forall w, R w w) ->
  (forall w1 w2 w3, R w1 w2 -> R w2 w3 -> R w1 w3) ->
  (forall data,
     keeps R (median_sampling rand (Args.label_column a) (Args.nsamples a)
                data)) ->
  (forall data,
     keeps R (specific_sampling rand (Args.label_column a) (Args.nsamples a)
                data)) ->
  (forall m, keeps R (save_map (Args.save_id_map a) (Args.sim a) m)) ->
  keeps R (init rand read_csv a).
Proof.
  intros Hrefl Htrans Hmed Hspec Hsave. unfold init.
  assert (Hb : forall A B (m : M A) (k : A -> M B),
             keeps R m -> (forall x, keeps R (k x)) -> keeps R (bind m k))
    by (intros; eapply keeps_bind; eauto).
  assert (Hr : forall A (x : A), keeps R (ret x))
    by (intros; eapply keeps_ret; eauto).
  assert (Hl : forall A (r : result A), keeps R (lift r))
    by (intros; eapply keeps_lift; eauto).
  assert (He : forall A e, keeps R (@raise A e))
    by (intros; eapply keeps_raise; eauto).
  apply Hb; [apply Hl|]. intros data0.
  apply Hb; [apply Hl|]. intros data1.
  apply Hb; [apply Hmed|]. intros data2.
  apply Hb; [apply Hspec|]. intros data3.
  apply Hb.
  { destruct (Args.label_column a); [|apply Hr].
    apply Hb; [apply Hl|]. intros col. apply Hr. }
  intros ls. apply Hb.
  { destruct ls; [|apply Hr]. apply Hb; [apply Hl|]. intros u. apply Hr. }
  intros nu. apply Hb.
  { destruct ls; [|apply Hr]. destruct (Args.mapper a); [apply Hr|].
    apply Hb; [apply Hl|]. intros u. apply Hr. }
  intros old. apply Hb.
  { destruct old; [apply Hr | apply He]. }
  intros ld. apply Hb; [apply Hsave|]. intros saved.
  apply Hb; [apply Hl|]. intros ss. apply Hr.
Qed.

Lemma same_calls_trans w1 w2 w3 :
  same_calls w1 w2 -> same_calls w2 w3 -> same_calls w1 w3.
Proof. unfold same_calls. intros [H1 H2] [H3 H4]. split; congruence. Qed.

Lemma keeps_save_map_false (R : World -> World -> Prop) sim m :
  (forall w, R w w) -> keeps R (save_map false sim m).
Proof. intros Hrefl w. apply Hrefl. Qed.

Lemma init_same_calls a : keeps same_calls (init rand read_csv a).
Proof.
  assert (Hrefl : forall w, same_calls w w) by (split; reflexivity).
  assert (Hrand : forall high, keeps same_calls (randint rand high))
    by (intros high w; split; reflexivity).
  apply keeps_init; auto.
  - apply same_calls_trans.
  - intros data.
    eapply keeps_median_sampling; eauto using same_calls_trans.
  - intros data.
    eapply keeps_specific_sampling; eauto using same_calls_trans.
  - intros m w. unfold save_map, bind, path_exists, dump_to, ret.
    destruct (Args.save_id_map a); [|apply Hrefl]. simpl.
    destruct (_ || _); [apply Hrefl|].
    destruct (mem id_map_dir (dirs w)); split; reflexivity.
Qed.

Lemma init_same_files a :
  Args.save_id_map a = false -> keeps same_files (init rand read_csv a).
Proof.
  intros Hsave.
  assert (Hrefl : forall w, same_files w w) by reflexivity.
  assert (Htrans : forall w1 w2 w3,
             same_files w1 w2 -> same_files w2 w3 -> same_files w1 w3)
    by (unfold same_files; congruence).
  assert (Hrand : forall high, keeps same_files (randint rand high))
    by (intros high w; reflexivity).
  apply keeps_init; auto.
  - intros data. eapply keeps_median_sampling; eauto.
  - intros data. eapply keeps_specific_sampling; eauto.
  - intros m. rewrite Hsave. now apply keeps_save_map_false.
Qed.

Lemma init_same_draws a :
  Args.nsamples a <> -1 -> Args.nsamples a <= 0 ->
  keeps same_draws (init rand read_csv a).
Proof.
  intros Hns1 Hns2.
  assert (Hrefl : forall w, same_draws w w) by reflexivity.
  assert (Htrans : forall w1 w2 w3,
             same_draws w1 w2 -> same_draws w2 w3 -> same_draws w1 w3)
    by (unfold same_draws; congruence).
  apply keeps_init; auto.
  - intros data w. unfold median_sampling.
    destruct (Z.eqb_spec (Args.nsamples a) (-1)); [contradiction|].
    apply Hrefl.
  - intros data w. unfold specific_sampling.
    destruct (Z.ltb_spec 0 (Args.nsamples a)); [lia | apply Hrefl].
  - intros m w. unfold save_map, bind, path_exists, dump_to, ret.
    destruct (Args.save_id_map a); [|apply Hrefl]. simpl.
    destruct (_ || _); [apply Hrefl|].
    destruct (mem id_map_dir (dirs w)); reflexivity.
Qed.

(** X1.  What construction touches.  Whether it returns a dataset or
    raises, construction never calls the tokenizer and creates no
    directory; it writes no file unless asked to save the id map; and it
    consumes no random number unless it resamples (a sample count of -1 or
    above 0). *)
Theorem init_effects a w :
  tokenizer_calls (snd (init rand read_csv a w)) = tokenizer_calls w /\
  dirs (snd (init rand read_csv a w)) = dirs w /\
  (Args.save_id_map a = false ->
   files (snd (init rand read_csv a w)) = files w) /\
  (Args.nsamples a <> -1 -> Args.nsamples a <= 0 ->
   draws (snd (init rand read_csv a w)) = draws w).
Proof.
  destruct (init_same_calls a w) as [Hcalls Hdirs].
  split; [exact Hcalls|]. split; [exact Hdirs|]. split.
  - intros Hsave. exact (init_same_files a Hsave w).
  - intros Hns1 Hns2. exact (init_same_draws a Hns1 Hns2 w).
Qed.

(** ** The runs inside a successful construction *)

Lemma keeps_eq_run {A} (m : M A) w a w' :
  keeps eq m -> m w = (Ok a, w') -> w' = w.
Proof. intros Hk Hm. specialize (Hk w). rewrite Hm in Hk. now symmetry. Qed.

Lemma init_runs a w d w' :
  init rand read_csv a w = (Ok d, w') ->
  exists data2 data3 w2 w3,
    median_sampling rand (Args.label_column a) (Args.nsamples a)
      (dataframe d) w = (Ok data2, w2) /\
    specific_sampling rand (Args.label_column a) (Args.nsamples a)
      data2 w2 = (Ok data3, w3) /\
    save_map (Args.save_id_map a) (Args.sim a) (id2label d) w3
    = (Ok tt, w') /\
    seqs d
    = map (fun r => (ix r, cell r (Args.seq_column a))) (rows data3) /\
    labels d
    = option_map (fun c => map (fun r => (ix r, cell r c)) (rows data3))
        (Args.label_column a).
Proof.
  unfold init. intros Hrun.
  assert (Hb : forall A B (m : M A) (k : A -> M B),
             keeps eq m -> (forall x, keeps eq (k x)) -> keeps eq (bind m k))
    by (intros; eapply keeps_bind; eauto; congruence).
  assert (Hr : forall A (x : A), keeps eq (ret x)) by (intros A x w0; reflexivity).
  assert (Hl : forall A (r : result A), keeps eq (lift r))
    by (intros A r w0; reflexivity).
  assert (He : forall A e, keeps eq (@raise A e)) by (intros A e w0; reflexivity).
  apply bind_Ok in Hrun as [data0 [w0 [Hload Hrun]]].
  apply bind_Ok in Hrun as [data1 [w1 [Hfilter Hrun]]].
  apply bind_Ok in Hrun as [data2 [w2 [Hmedian Hrun]]].
  apply bind_Ok in Hrun as [data3 [w3 [Hspecific Hrun]]].
  apply bind_Ok in Hrun as [ls [w4 [Hlabels Hrun]]].
  apply bind_Ok in Hrun as [nu [w5 [Hnu Hrun]]].
  apply bind_Ok in Hrun as [old [w6 [Hdict Hrun]]].
  apply bind_Ok in Hrun as [ld [w7 [Hld Hrun]]].
  apply bind_Ok in Hrun as [u0 [w8 [Hsave Hrun]]].
  apply bind_Ok in Hrun as [ss [w9 [Hseqs Hrun]]].
  apply ret_Ok in Hrun as [-> ->]. simpl.
  apply lift_Ok in Hload as [_ ->].
  apply lift_Ok in Hfilter as [_ ->].
  apply lift_Ok in Hseqs as [Hseqs ->].
  apply getcol_Ok in Hseqs as [_ ->].
  assert (Hw4 : w4 = w3).
  { eapply keeps_eq_run; [|exact Hlabels].
    destruct (Args.label_column a); [|apply Hr].
    apply Hb; [apply Hl|]. intros col. apply Hr. }
  assert (Hw5 : w5 = w4).
  { eapply keeps_eq_run; [|exact Hnu].
    destruct ls; [|apply Hr]. apply Hb; [apply Hl|]. intros u. apply Hr. }
  assert (Hw6 : w6 = w5).
  { eapply keeps_eq_run; [|exact Hdict].
    destruct ls; [|apply Hr]. destruct (Args.mapper a); [apply Hr|].
    apply Hb; [apply Hl|]. intros u. apply Hr. }
  assert (Hw7 : w7 = w6).
  { eapply keeps_eq_run; [|exact Hld]. destruct old; [apply Hr | apply He]. }
  subst w7 w6 w5 w4. destruct u0.
  exists data2, data3, w2, w3. repeat split; auto.
  destruct (Args.label_column a) as [c|]; simpl.
  - apply bind_Ok in Hlabels as [col [wl [Hl' Hlabels]]].
    apply ret_Ok in Hlabels as [-> _].
    apply lift_Ok in Hl' as [Hl' _]. now apply getcol_Ok in Hl' as [_ ->].
  - now apply ret_Ok in Hlabels as [-> _].
Qed.

(** ** The layout of a resampled table *)

Lemma constant_repeat (l : list value) k :
  (forall x, In x l -> x = k) -> l = repeat k (List.length l).
Proof.
  induction l as [|x l IH]; intros Hall; simpl; auto.
  rewrite (Hall x) by now left. f_equal. apply IH.
  intros y Hy. apply Hall. now right.
Qed.

Lemma length_blocks (keys : list value) n :
  List.length (flat_map (fun k => repeat k n) keys)
  = (n * List.length keys)%nat.
Proof.
  induction keys as [|k keys IH]; simpl; [lia|].
  rewrite length_app, repeat_length, IH. lia.
Qed.

Lemma sample_groups_layout n c (rs0 : list Row) keys w rs w' :
  incl keys (column_of c rs0) ->
  sample_groups rand n
    (map (fun k => List.filter (fun r => eqb (cell r c) k) rs0) keys) w
  = (Ok rs, w') ->
  column_of c rs = flat_map (fun k => repeat k n) keys /\
  draws w' = (draws w + n * List.length keys)%nat.
Proof.
  revert w rs w'. induction keys as [|k0 keys IH]; intros w rs w' Hincl;
    cbn [map sample_groups].
  - intros Hrun. apply ret_Ok in Hrun as [-> ->]. simpl.
    split; [reflexivity | lia].
  - intros Hrun.
    apply bind_Ok in Hrun as [a [w1 [Ha Hrun]]].
    apply bind_Ok in Hrun as [b [w2 [Hb Hrun]]].
    apply ret_Ok in Hrun as [-> ->].
    assert (Hg : List.filter (fun r => eqb (cell r c) k0) rs0 <> []).
    { assert (Hin : In k0 (column_of c rs0)) by (apply Hincl; now left).
      apply in_map_iff in Hin as [r [Hr Hin]]. intros Hnil.
      assert (Hf : In r (List.filter (fun r => eqb (cell r c) k0) rs0)).
      { apply filter_In. split; auto. now apply eqb_eq. }
      rewrite Hnil in Hf. destruct Hf. }
    destruct (sample_group_run n w Hg) as [a' [Ha' [Hlen Hsub]]].
    rewrite Ha in Ha'. injection Ha' as <- ->.
    apply IH in Hb as [Hcol Hdraws].
    2:{ intros k Hk. apply Hincl. now right. }
    split.
    + unfold column_of in *. rewrite map_app, Hcol. simpl. f_equal.
      rewrite <- Hlen. rewrite <- (length_map (fun r => cell r c) a).
      apply constant_repeat.
      intros x Hx. apply in_map_iff in Hx as [r [<- Hr]].
      apply Hsub, filter_In in Hr. now apply eqb_eq.
    + rewrite Hdraws. simpl. lia.
Qed.

Lemma groupby_sample_layout key n df w df' w' :
  groupby_sample rand key n df w = (Ok df', w') ->
  exists c groups,
    key = Some c /\ groupby (Some c) df = Ok groups /\ 0 <= n /\
    In c (columns df) /\ columns df' = columns df /\
    column_of c (rows df')
    = flat_map (fun k => repeat k (Z.to_nat n)) (map fst groups) /\
    draws w' = (draws w + Z.to_nat n * List.length groups)%nat.
Proof.
  unfold groupby_sample. intros Hrun.
  apply bind_Ok in Hrun as [groups [w1 [Hg Hrun]]].
  apply lift_Ok in Hg as [Hg ->].
  destruct (Z.ltb_spec n 0) as [Hneg|Hpos]; [discriminate|].
  pose proof Hg as Hg'.
  apply groupby_Ok in Hg' as [c [-> [Hc Hgroups]]].
  exists c, groups. repeat split; auto.
  - apply bind_Ok in Hrun as [rs [w2 [Hs Hret]]].
    now apply ret_Ok in Hret as [-> _].
  - apply bind_Ok in Hrun as [rs [w2 [Hs Hret]]].
    apply ret_Ok in Hret as [-> _]. simpl.
    rewrite Hgroups in Hs. rewrite map_map in Hs. cbn [snd] in Hs.
    apply sample_groups_layout in Hs as [Hcol _].
    + rewrite Hcol, Hgroups, map_map. simpl. now rewrite map_id.
    + intros k Hk. now apply sort_In, nodup_In in Hk.
  - apply bind_Ok in Hrun as [rs [w2 [Hs Hret]]].
    apply ret_Ok in Hret as [_ ->].
    rewrite Hgroups in Hs. rewrite map_map in Hs. cbn [snd] in Hs.
    apply sample_groups_layout in Hs as [_ Hdraws].
    + rewrite Hdraws, Hgroups, length_map. reflexivity.
    + intros k Hk. now apply sort_In, nodup_In in Hk.
Qed.

Lemma groupby_keys_sorted c df groups :
  groupby (Some c) df = Ok groups ->
  StronglySorted (fun x y => value_leb x y = true) (map fst groups) /\
  NoDup (map fst groups).
Proof.
  intros Hg. apply groupby_Ok in Hg as (c' & [= <-] & _ & ->).
  rewrite map_map. simpl. rewrite map_id. split.
  - apply sort_StronglySorted;
      [apply value_leb_total | apply value_leb_trans].
  - apply sort_NoDup, NoDup_nodup.
Qed.

Lemma save_map_draws save sim m w u w' :
  save_map save sim m w = (Ok u, w') -> draws w' = draws w.
Proof.
  unfold save_map, bind, path_exists, dump_to, ret.
  destruct save; [|now intros [= _ <-]]. simpl.
  destruct (_ || _); [now intros [= _ <-]|].
  destruct (mem id_map_dir (dirs w)); [|discriminate].
  now intros [= _ <-].
Qed.

(** X2.  The order and number of the rows after resampling.  When
    construction resamples (sample count -1 or above 0), the dataset
    serves its rows label after label, in ascending order of the labels,
    [n] rows for each: the labels read [n] times the least label, then
    [n] times the next, and so on; the length of the dataset is [n] times
    the number of distinct labels, and as many random numbers were drawn.
    Here [n] is the sample count, or the truncated median for -1. *)
Theorem resampled_layout a w d w' :
  init rand read_csv a w = (Ok d, w') ->
  Args.nsamples a = -1 \/ 0 < Args.nsamples a ->
  exists c groups ls n,
    Args.label_column a = Some c /\
    groupby (Some c) (dataframe d) = Ok groups /\
    labels d = Some ls /\
    (0 < Args.nsamples a -> Z.of_nat n = Args.nsamples a) /\
    (Args.nsamples a = -1 ->
     py_int (median (size groups)) = Ok (Z.of_nat n)) /\
    StronglySorted (fun x y => value_leb x y = true) (map fst groups) /\
    NoDup (map fst groups) /\
    values_of ls = flat_map (fun k => repeat k n) (map fst groups) /\
    len d = (n * List.length groups)%nat /\
    draws w' = (draws w + n * List.length groups)%nat.
Proof.
  intros Hinit Hns.
  apply init_runs in Hinit
    as (data2 & data3 & w2 & w3 & Hmed & Hspec & Hsave & Hseqs & Hlabels).
  apply save_map_draws in Hsave.
  assert (Hcore : exists c groups n,
    Args.label_column a = Some c /\
    groupby (Some c) (dataframe d) = Ok groups /\
    (0 < Args.nsamples a -> Z.of_nat n = Args.nsamples a) /\
    (Args.nsamples a = -1 ->
     py_int (median (size groups)) = Ok (Z.of_nat n)) /\
    column_of c (rows data3)
    = flat_map (fun k => repeat k n) (map fst groups) /\
    draws w3 = (draws w + n * List.length groups)%nat).
  { unfold median_sampling, specific_sampling in *.
    destruct Hns as [Hns|Hns].
    - rewrite Hns in *. simpl in Hmed, Hspec.
      apply ret_Ok in Hspec as [-> ->].
      apply bind_Ok in Hmed as [groups [w4 [Hg Hmed]]].
      apply lift_Ok in Hg as [Hg ->].
      apply bind_Ok in Hmed as [m [w5 [Hm Hmed]]].
      apply lift_Ok in Hm as [Hm ->].
      apply bind_Ok in Hmed as [df' [w6 [Hs Hmed]]].
      apply lift_Ok in Hmed as [Hr ->].
      apply reset_index_Ok in Hr as [Hfresh ->].
      apply groupby_sample_layout in Hs
        as (c & groups' & Hlc & Hg' & Hpos & Hc & Hcols & Hcol & Hdraws).
      rewrite Hlc in Hg. rewrite Hg in Hg'. injection Hg' as <-.
      exists c, groups, (Z.to_nat m).
      rewrite Z2Nat.id by exact Hpos.
      repeat split; auto; try lia.
      unfold with_index, column_of. cbn [rows].
      rewrite renumber_column; [exact Hcol|].
      intros Heq. apply Hfresh. rewrite <- Heq, Hcols. exact Hc.
    - destruct (Z.eqb_spec (Args.nsamples a) (-1)) as [?|_]; [lia|].
      apply ret_Ok in Hmed as [-> ->].
      destruct (Z.ltb_spec 0 (Args.nsamples a)) as [_|?]; [|lia].
      apply bind_Ok in Hspec as [df' [w6 [Hs Hspec]]].
      apply lift_Ok in Hspec as [Hr ->].
      apply reset_index_Ok in Hr as [Hfresh ->].
      apply groupby_sample_layout in Hs
        as (c & groups & Hlc & Hg & Hpos & Hc & Hcols & Hcol & Hdraws).
      exists c, groups, (Z.to_nat (Args.nsamples a)).
      rewrite Z2Nat.id by exact Hpos.
      repeat split; auto; try lia.
      unfold with_index, column_of. cbn [rows].
      rewrite renumber_column; [exact Hcol|].
      intros Heq. apply Hfresh. rewrite <- Heq, Hcols. exact Hc. }
  destruct Hcore as (c & groups & n & Hlc & Hg & Hn1 & Hn2 & Hcol & Hdraws).
  rewrite Hlc in Hlabels. simpl in Hlabels.
  destruct (groupby_keys_sorted _ _ Hg) as [Hsorted Hnd].
  exists c, groups, (map (fun r => (ix r, cell r c)) (rows data3)), n.
  repeat split; auto.
  - unfold values_of. rewrite map_map. simpl. exact Hcol.
  - unfold len. rewrite Hseqs, length_map.
    rewrite <- (length_map (fun r => cell r c)).
    fold (column_of c (rows data3)).
    rewrite Hcol, length_blocks, length_map. reflexivity.
  - congruence.
Qed.

(** ** Columns that are missing, tables that are empty *)

(** X4.  A missing sequence column.  When the table has no column of the
    name given for the sequences, the length filter is skipped without an
    error, and construction nevertheless never returns a dataset: it
    raises, at the latest when line 101 reads the column.  The one way
    out is a resampling step that makes the column: it keeps the former
    index labels under [index] or [level_0], so the statement is for
    other names, or for constructions that do not resample. *)
Theorem missing_sequence_column a w data0 :
  load_table read_csv a = Ok data0 ->
  ~ In (Args.seq_column a) (columns data0) ->
  Args.nsamples a <> -1 /\ Args.nsamples a <= 0
  \/ Args.seq_column a <> "index" /\ Args.seq_column a <> "level_0" ->
  filter_by_length (Args.seq_column a) data0 = Ok data0 /\
  exists e w', init rand read_csv a w = (Raise e, w').
Proof.
  intros Hload Hnot Hway.
  assert (Hskip : filter_by_length (Args.seq_column a) data0 = Ok data0).
  { rewrite filter_by_length_eq. apply mem_nIn in Hnot. now rewrite Hnot. }
  split; [exact Hskip|].
  destruct (init rand read_csv a w) as [[d|e] w'] eqn:Hinit; [|eauto].
  exfalso. apply init_Ok in Hinit
    as (data0' & data3 & Hload' & Hfilter & Hcases & Hsc & _).
  rewrite Hload in Hload'. injection Hload' as <-.
  rewrite Hskip in Hfilter. injection Hfilter as Hdf.
  assert (Hmade : forall c n, sampled c n (dataframe d) data3 ->
                  Args.seq_column a = "index"
                  \/ Args.seq_column a = "level_0").
  { intros c n (_ & Hcols & _). rewrite Hcols, <- Hdf in Hsc.
    destruct Hsc as [<-|Hsc]; [|contradiction].
    destruct (index_name_cases (columns data0)) as [[-> _]|[-> _]]; auto. }
  destruct Hcases as [[Hns (c & g & m & _ & _ & _ & _ & Hs)]
                     |[[Hns (c & _ & _ & Hs)]|(_ & _ & ->)]].
  - destruct Hway as [[? _]|[? ?]]; [contradiction|].
    destruct (Hmade _ _ Hs); contradiction.
  - destruct Hway as [[_ ?]|[? ?]]; [lia|].
    destruct (Hmade _ _ Hs); contradiction.
  - rewrite <- Hdf in Hsc. contradiction.
Qed.

Lemma groupby_nothing c df :
  In c (columns df) -> rows df = [] -> groupby (Some c) df = Ok [].
Proof.
  intros Hc Hrows. unfold groupby. apply mem_In in Hc.
  rewrite Hc, Hrows. reflexivity.
Qed.

(** X5.  Median sampling of nothing.  With the sample count at its default
    -1, a table that has both columns, text for sequences in a column of
    type [object], but no sequence of at most 1024 characters (a table
    without rows read from a file, for one) makes construction raise
    [ValueError]: the median of no group sizes is NaN, which [int]
    refuses (on a table that has columns [index] and [level_0] of its own,
    [reset_index] raises it before, at line 53).  Nothing was drawn or
    written. *)
Theorem median_sampling_of_nothing a w data0 c :
  load_table read_csv a = Ok data0 ->
  Args.label_column a = Some c ->
  In c (columns data0) -> c <> "seq_length" ->
  In (Args.seq_column a) (columns data0) ->
  dtypes data0 (Args.seq_column a) = object ->
  forallb (fun r => is_str (cell r (Args.seq_column a))) (rows data0)
  = true ->
  existsb (short_enough (Args.seq_column a)) (rows data0) = false ->
  Args.nsamples a = -1 ->
  init rand read_csv a w = (Raise ValueError, w).
Proof.
  intros Hload Hlc Hc Hcne Hsc Hdt Hstr Hnone Hns.
  set (sc := Args.seq_column a) in *.
  assert (Hrows : rows (filtered sc data0) = []).
  { assert (Hlen : List.length (rows (filtered sc data0)) = O).
    { rewrite filtered_length.
      destruct (List.filter (short_enough sc) (rows data0)) as [|r rs] eqn:E;
        auto.
      assert (Hin : In r (List.filter (short_enough sc) (rows data0)))
        by (rewrite E; now left).
      apply filter_In in Hin as [Hr Hok].
      assert (Hex : existsb (short_enough sc) (rows data0) = true)
        by (apply existsb_exists; eauto).
      congruence. }
    destruct (rows (filtered sc data0)); [reflexivity | discriminate]. }
  assert (Hc1 : In c (columns (filtered sc data0))).
  { apply filtered_columns. right. auto. }
  unfold init. fold sc. rewrite Hlc, Hns.
  erewrite bind_run by (unfold lift; rewrite Hload; reflexivity).
  assert (Hfilter : filter_by_length sc data0 = reset_index (kept sc data0)).
  { rewrite filter_by_length_eq. apply mem_In in Hsc. rewrite Hsc.
    now rewrite (has_str_text _ _ Hdt Hstr). }
  unfold bind at 1, lift at 1. rewrite Hfilter. unfold reset_index.
  destruct (mem (index_name (columns (kept sc data0)))
              (columns (kept sc data0))); [reflexivity|].
  fold (filtered sc data0).
  assert (Hmed : median_sampling rand (Some c) (-1) (filtered sc data0) w
                 = (Raise ValueError, w)).
  { unfold median_sampling. rewrite Z.eqb_refl. unfold bind, lift.
    now rewrite (groupby_nothing _ _ Hc1 Hrows). }
  unfold bind at 1. now rewrite Hmed.
Qed.

(** ** Which labels get an index *)

(** X6.  The labels that get an index.  With a label column and no
    external map, on a table that has the label column and the sequence
    column, a raw label has an index in the label map exactly when one of
    the rows of the input carrying it has a sequence of at most 1024
    characters: a label met on too long sequences only gets no index, and
    the labels after it move up. *)
Theorem label_dict_keys a w d w' data0 c v :
  init rand read_csv a w = (Ok d, w') ->
  load_table read_csv a = Ok data0 ->
  Args.label_column a = Some c -> Args.mapper a = None ->
  In c (columns data0) ->
  In (Args.seq_column a) (columns data0) ->
  (exists i, PyDict.get v (label_dict d) = Some i) <->
  (exists r,
     In r (rows data0) /\ cell r c = v /\
     short_enough (Args.seq_column a) r = true).
Proof.
  intros Hinit Hload Hlc Hmap Hc0 Hsc0.
  destruct (@built_label_dict_covers a w d w' c Hinit Hlc Hmap)
    as (u & ls & Hls & Hu & _ & Hld & _).
  pose proof (@label_column_kept a w d w' c Hinit Hlc) as Hc.
  destruct (@constructed_filtered a w d w' data0 Hinit Hload Hsc0)
    as (_ & Hfresh & Hdf & _).
  assert (Hck : In c (columns (kept (Args.seq_column a) data0))).
  { rewrite Hdf in Hc. apply filtered_columns in Hc as [Hc|Hc].
    - (* the label column is a column of the input and no other column is
         dropped than the scratch column, whose name the new column
         does not have *)
      destruct (String.eqb_spec c "seq_length") as [Heq|Hne].
      + exfalso. rewrite Hc in Heq. now apply index_name_not_scratch in Heq.
      + now apply kept_columns.
    - now apply kept_columns. }
  assert (Hcol : In v (column_of c (rows (dataframe d))) <->
                 exists r, In r (rows data0) /\ cell r c = v /\
                           short_enough (Args.seq_column a) r = true).
  { rewrite Hdf. unfold column_of. rewrite filtered_column.
    2:{ intros ->. contradiction. }
    rewrite in_map_iff. split.
    - intros (r & Hr & Hin). apply filter_In in Hin as [Hin Hok]. eauto.
    - intros (r & Hin & Hr & Hok). exists r. split; auto.
      apply filter_In. auto. }
  rewrite <- Hcol. rewrite Hld. split.
  - intros [i Hi]. apply get_In, in_combine_l in Hi.
    apply (@unique_In _ _ v Hu) in Hi.
    eapply labels_served; eauto.
  - intros Hv.
    assert (Hin : In v (values_of ls)) by (eapply labels_survive; eauto).
    apply (@unique_In _ _ v Hu) in Hin.
    destruct (PyDict.get v (combine u (ids (List.length u)))) as [i|] eqn:E;
      [eauto|].
    exfalso. apply get_None in E. apply E. unfold PyDict.keys.
    rewrite fst_combine by now rewrite ids_length. exact Hin.
Qed.

(** ** An external label map *)

Lemma fold_set_other {K V} `{Eqb K} (l acc : list (K * V)) k :
  ~ In k (PyDict.keys l) ->
  PyDict.get k (fold_left (fun d kv => PyDict.set (fst kv) (snd kv) d) l acc)
  = PyDict.get k acc.
Proof.
  revert acc. induction l as [|[k' v'] l IH]; intros acc Hn; simpl; auto.
  simpl in Hn. rewrite IH by tauto.
  apply get_set_other. intros ->. apply Hn. now left.
Qed.

(** In [dict(pairs)] the last pair of a key gives its value. *)
Lemma of_items_last {K V} `{Eqb K} (l1 l2 : list (K * V)) k x :
  ~ In k (PyDict.keys l2) ->
  PyDict.get k (PyDict.of_items (l1 ++ (k, x) :: l2)) = Some x.
Proof.
  intros Hn. unfold PyDict.of_items. rewrite fold_left_app. simpl.
  rewrite fold_set_other by exact Hn. apply get_set_same.
Qed.

Lemma fold_set_In {K V} `{Eqb K} (l acc : list (K * V)) k x :
  PyDict.get k (fold_left (fun d kv => PyDict.set (fst kv) (snd kv) d) l acc)
  = Some x ->
  In (k, x) l \/ PyDict.get k acc = Some x.
Proof.
  revert acc. induction l as [|[k' v'] l IH]; intros acc Hg; simpl in *;
    auto.
  apply IH in Hg as [Hin|Hg]; [left; now right|].
  destruct (eqb_spec k' k) as [->|Hne].
  - rewrite get_set_same in Hg. injection Hg as ->. left. now left.
  - rewrite get_set_other in Hg by exact Hne. now right.
Qed.

Lemma of_items_In {K V} `{Eqb K} (l : list (K * V)) k x :
  PyDict.get k (PyDict.of_items l) = Some x -> In (k, x) l.
Proof.
  unfold PyDict.of_items. intros Hg.
  apply fold_set_In in Hg as [Hin|Hg]; [exact Hin | discriminate].
Qed.

Lemma invert_In (m : list (value * Z)) i v :
  PyDict.get i (invert m) = Some v -> In (v, i) m.
Proof.
  unfold invert. intros Hg. apply of_items_In in Hg.
  apply in_map_iff in Hg as [[v' i'] [[= -> ->] Hin]]. exact Hin.
Qed.

Lemma invert_last (m1 m2 : list (value * Z)) v i :
  ~ In i (PyDict.values m2) ->
  PyDict.get i (invert (m1 ++ (v, i) :: m2)) = Some v.
Proof.
  intros Hn. unfold invert. rewrite map_app. simpl.
  apply of_items_last. unfold PyDict.keys, PyDict.values in *.
  now rewrite map_map.
Qed.

(** X7.  An external label map.  A map given to the constructor is kept as
    it is, and [id2label] is read off it pair by pair: every entry of
    [id2label] comes from a pair of the map, and when two labels share an
    index the later pair wins.  For a map that sends distinct labels to
    distinct indices, [id2label] is its inverse. *)
Theorem external_map_inverse a w d w' m :
  init rand read_csv a w = (Ok d, w') ->
  Args.mapper a = Some m ->
  label_dict d = m /\
  (forall i v, PyDict.get i (id2label d) = Some v -> In (v, i) m) /\
  (forall m1 m2 v i,
     m = m1 ++ (v, i) :: m2 -> ~ In i (PyDict.values m2) ->
     PyDict.get i (id2label d) = Some v) /\
  (NoDup (PyDict.keys m) -> NoDup (PyDict.values m) ->
   forall v i,
     PyDict.get v m = Some i <-> PyDict.get i (id2label d) = Some v).
Proof.
  intros Hinit Hmap.
  apply init_Ok in Hinit
    as (data0 & data3 & _ & _ & _ & _ & _ & _ & _ & Hkept & _ & Hid & _).
  specialize (Hkept m Hmap). rewrite Hid, Hkept.
  split; [reflexivity|]. split; [apply invert_In|]. split.
  - intros m1 m2 v i -> Hn. now apply invert_last.
  - intros Hkeys Hvals v i. split.
    + intros Hg. apply get_In in Hg.
      apply in_split in Hg as (m1 & m2 & ->).
      apply invert_last.
      unfold PyDict.values in *. rewrite map_app in Hvals. simpl in Hvals.
      now apply NoDup_remove_2 in Hvals; intros Hin; apply Hvals, in_or_app;
        right.
    + intros Hg. apply invert_In in Hg. now apply In_get.
Qed.

(** ** The fields of a sample *)

(** X10.  The fields of a sample.  Whenever item access returns a sample,
    on whatever dataset, the tokenizer was called once, on the text stored
    at the index; the sample holds under ["label"] the index of the row's
    label when the dataset has labels, under ["sequence"] the text when
    sequences are returned, each replacing a field of that name in the
    encoding, should there be one; every other field is the encoding's. *)
Theorem getitem_fields d idx w1 s w2 :
  getitem tokenizer d idx w1 = (Ok s, w2) ->
  exists text,
    series_getitem (seqs d) idx = Ok (VStr text) /\
    w2 = called text w1 /\
    let enc := tokenizer (tokenizer_calls w1) text in
    (forall k, k <> "label" -> k <> "sequence" ->
               PyDict.get k s = PyDict.get k enc) /\
    match labels d with
    | Some ls =>
        exists l i,
          series_getitem ls idx = Ok l /\
          PyDict.get l (label_dict d) = Some i /\
          PyDict.get "label" s = Some (FInt i)
    | None => PyDict.get "label" s = PyDict.get "label" enc
    end /\
    PyDict.get "sequence" s
    = if return_seqs d then Some (FValue (VStr text))
      else PyDict.get "sequence" enc.
Proof.
  intros Hrun.
  destruct (series_getitem (seqs d) idx) as [[z|text]|e] eqn:Hs.
  - unfold getitem, bind, lift in Hrun. rewrite Hs in Hrun. discriminate.
  - exists text. split; [reflexivity|].
    rewrite (@getitem_run d idx text w1 Hs) in Hrun. cbv zeta in *.
    set (enc := tokenizer (tokenizer_calls w1) text) in *.
    assert (Hls : "label" <> "sequence") by discriminate.
    assert (Hsl : "sequence" <> "label") by discriminate.
    unfold with_sequence in Hrun.
    destruct (labels d) as [ls|].
    + destruct (series_getitem ls idx) as [l|e]; [|discriminate].
      destruct (PyDict.get l (label_dict d)) as [i|] eqn:Hi; [|discriminate].
      injection Hrun as <- <-. split; [reflexivity|].
      destruct (return_seqs d).
      * split; [|split].
        -- intros k Hk1 Hk2. now rewrite !get_set_other by congruence.
        -- exists l, i. repeat split; auto.
           rewrite get_set_other by exact Hsl. apply get_set_same.
        -- apply get_set_same.
      * split; [|split].
        -- intros k Hk1 Hk2. now rewrite get_set_other by congruence.
        -- exists l, i. repeat split; auto. apply get_set_same.
        -- now rewrite get_set_other by exact Hls.
    + injection Hrun as <- <-. split; [reflexivity|].
      destruct (return_seqs d).
      * split; [|split].
        -- intros k Hk1 Hk2. now rewrite get_set_other by congruence.
        -- now rewrite get_set_other by exact Hsl.
        -- apply get_set_same.
      * repeat split; auto.
  - unfold getitem, bind, lift in Hrun. rewrite Hs in Hrun. discriminate.
Qed.

(** ** Saving the id map *)

Lemma sampling_same_disk lc ns data w data' w' :
  median_sampling rand lc ns data w = (Ok data', w')
  \/ specific_sampling rand lc ns data w = (Ok data', w') ->
  same_disk w w'.
Proof.
  assert (Hrefl : forall w0, same_disk w0 w0) by (split; reflexivity).
  assert (Htrans : forall w1 w2 w3,
             same_disk w1 w2 -> same_disk w2 w3 -> same_disk w1 w3)
    by (unfold same_disk; intros ? ? ? [? ?] [? ?]; split; congruence).
  assert (Hrand : forall high, keeps same_disk (randint rand high))
    by (intros high w0; split; reflexivity).
  intros [Hrun|Hrun].
  - assert (Hk : keeps same_disk (median_sampling rand lc ns data))
      by (eapply keeps_median_sampling; eauto).
    specialize (Hk w). now rewrite Hrun in Hk.
  - assert (Hk : keeps same_disk (specific_sampling rand lc ns data))
      by (eapply keeps_specific_sampling; eauto).
    specialize (Hk w). now rewrite Hrun in Hk.
Qed.

(** X8.  Saving the id map, once.  When a construction that was asked to
    save the id map returns, either something already existed at the path
    [cyc_id_maps/cyc_label_id_map_<sim>.pickle] and no file was written or
    changed (a map saved earlier stays, whatever this dataset's map is),
    or the directory [cyc_id_maps] exists and the path now holds this
    dataset's [id2label], all other files being as before. *)
Theorem save_id_map_once a w d w' :
  init rand read_csv a w = (Ok d, w') ->
  Args.save_id_map a = true ->
  if exists_on_disk (id_map_path (Args.sim a)) w
  then files w' = files w
  else
    In id_map_dir (dirs w) /\
    PyDict.get (id_map_path (Args.sim a)) (files w') = Some (id2label d) /\
    forall p, p <> id_map_path (Args.sim a) ->
              PyDict.get p (files w') = PyDict.get p (files w).
Proof.
  intros Hinit Hsave.
  apply init_runs in Hinit
    as (data2 & data3 & w2 & w3 & Hmed & Hspec & Hrun & _).
  assert (H2 : same_disk w w2)
    by (eapply sampling_same_disk; left; exact Hmed).
  assert (H3 : same_disk w2 w3)
    by (eapply sampling_same_disk; right; exact Hspec).
  destruct H2 as [Hf2 Hd2], H3 as [Hf3 Hd3].
  assert (Hf : files w3 = files w) by congruence.
  assert (Hd : dirs w3 = dirs w) by congruence.
  rewrite Hsave in Hrun. unfold save_map, bind, path_exists in Hrun.
  unfold exists_on_disk. rewrite <- Hf, <- Hd.
  destruct (mem (id_map_path (Args.sim a)) (dirs w3)
            || match PyDict.get (id_map_path (Args.sim a)) (files w3) with
               | Some _ => true
               | None => false
               end).
  - apply ret_Ok in Hrun as [_ ->]. reflexivity.
  - unfold dump_to in Hrun.
    destruct (mem id_map_dir (dirs w3)) eqn:Hdir; [|discriminate].
    injection Hrun as <-. simpl. split; [now apply mem_In|]. split.
    + apply get_set_same.
    + intros p Hp. apply get_set_other. congruence.
Qed.

(** ** Reading a sequence file *)

Lemma nth_columns (g : SeqRecord -> value) (pre l : list SeqRecord) :
  map (fun i => nth i (map g (pre ++ l)) (VInt 0))
    (seq (List.length pre) (List.length l))
  = map g l.
Proof.
  revert pre. induction l as [|x l IH]; intros pre; simpl; auto.
  f_equal.
  - rewrite map_app, app_nth2 by (rewrite length_map; lia).
    now rewrite length_map, Nat.sub_diag.
  - specialize (IH (pre ++ [x])).
    rewrite <- app_assoc, length_app in IH. simpl in IH.
    now rewrite Nat.add_1_r in IH.
Qed.

(** The rows of the table [from_fastx] builds, record by record. *)
Lemma fastx_table_rows (records : list SeqRecord) :
  map (fun r => (cell r "IDs", cell r "SEQS"))
    (rows (DataFrame_of_dict
             [("IDs", map (fun r => VStr (rec_id r)) records);
              ("SEQS", map (fun r => VStr (rec_seq r)) records)]))
  = map (fun r => (VStr (rec_id r), VStr (rec_seq r))) records.
Proof.
  unfold DataFrame_of_dict. simpl. rewrite map_map. simpl.
  rewrite length_map.
  pose proof (nth_columns (fun r => VStr (rec_id r)) [] records) as Hid.
  pose proof (nth_columns (fun r => VStr (rec_seq r)) [] records) as Hsq.
  simpl in Hid, Hsq.
  assert (Hzip : forall (l : list nat) (f1 f2 : nat -> value)
                        (g1 g2 : SeqRecord -> value) (rs : list SeqRecord),
             map f1 l = map g1 rs -> map f2 l = map g2 rs ->
             map (fun i => (f1 i, f2 i)) l
             = map (fun r => (g1 r, g2 r)) rs).
  { induction l as [|i l IH]; intros f1 f2 g1 g2 [|r rs] H1 H2;
      simpl in *; try discriminate; auto.
    injection H1 as -> H1. injection H2 as -> H2. f_equal. now apply IH. }
  now apply Hzip.
Qed.

Lemma filter_aligned {A B C} (h : A -> C) (h' : B -> C) (P : C -> bool)
  (l : list A) (l' : list B) :
  map h l = map h' l' ->
  map h (List.filter (fun x => P (h x)) l)
  = map h' (List.filter (fun y => P (h' y)) l').
Proof.
  revert l'. induction l as [|x l IH]; intros [|y l'] Heq;
    simpl in *; try discriminate; auto.
  injection Heq as Hxy Heq. rewrite Hxy.
  destruct (P (h' y)); simpl; [rewrite Hxy; f_equal|]; now apply IH.
Qed.

Lemma fastx_kept_rows (records : list SeqRecord) :
  map (fun r => (cell r "IDs", cell r "SEQS"))
    (List.filter (short_enough "SEQS")
       (rows (DataFrame_of_dict
                [("IDs", map (fun r => VStr (rec_id r)) records);
                 ("SEQS", map (fun r => VStr (rec_seq r)) records)])))
  = map (fun r => (VStr (rec_id r), VStr (rec_seq r)))
      (short_records records).
Proof.
  set (P := fun p : value * value =>
              match snd p with
              | VStr t => Z.leb (Z.of_nat (String.length t)) 1024
              | VInt _ => false
              end).
  rewrite (filter_ext (short_enough "SEQS")
             (fun r => P (cell r "IDs", cell r "SEQS")))
    by reflexivity.
  unfold short_records.
  rewrite (filter_ext
             (fun r => Nat.leb (String.length (rec_seq r)) 1024)
             (fun r => P (VStr (rec_id r), VStr (rec_seq r)))).
  - apply (filter_aligned
             (fun r => (cell r "IDs", cell r "SEQS"))
             (fun r => (VStr (rec_id r), VStr (rec_seq r))) P).
    apply fastx_table_rows.
  - intros r. unfold P. simpl.
    destruct (Nat.leb_spec (String.length (rec_seq r)) 1024),
      (Z.leb_spec (Z.of_nat (String.length (rec_seq r))) 1024);
      auto; lia.
Qed.

(** X9.  What [from_fastx] serves.  When [from_fastx], with the sequence
    column at its default [SEQS], returns a dataset, the dataset serves
    the sequences of the records of the file that have at most 1024
    characters, all of them, once each and in the order of the file,
    whatever sample count was passed; sequences are returned with the
    samples; the labels, when the identifiers are taken as labels, are the
    identifiers of those records; and the world is as before: nothing
    drawn, nothing written, the tokenizer not called. *)
Theorem from_fastx_serves_records fasta_filename records lc ns mapper
  w d w' :
  SeqIO_parse fasta_filename (last5 fasta_filename) = Ok records ->
  from_fastx rand read_csv SeqIO_parse fasta_filename "SEQS" lc ns mapper w
  = (Ok d, w') ->
  return_seqs d = true /\
  values_of (seqs d)
  = map (fun r => VStr (rec_seq r)) (short_records records) /\
  len d = List.length (short_records records) /\
  (lc = Some "IDs" ->
   exists ls,
     labels d = Some ls /\
     values_of ls = map (fun r => VStr (rec_id r)) (short_records records)) /\
  w' = w.
Proof.
  intros Hparse Hrun. unfold from_fastx in Hrun.
  apply bind_Ok in Hrun as [recs [w0 [Hp Hinit]]].
  apply lift_Ok in Hp as [Hp ->]. rewrite Hparse in Hp. injection Hp as <-.
  set (df := DataFrame_of_dict _) in Hinit.
  set (a := Args.make _ _ _ _ _ _ _ _ _) in Hinit.
  pose proof (init_same_calls a w) as [Hcalls Hdirs].
  pose proof (init_same_files a eq_refl w) as Hfiles.
  assert (Hdraws : same_draws w (snd (init rand read_csv a w))).
  { apply init_same_draws; simpl; lia. }
  rewrite Hinit in Hcalls, Hdirs, Hfiles, Hdraws.
  unfold same_files, same_draws in *. simpl in *.
  pose proof Hinit as Hinv.
  apply init_Ok in Hinv
    as (data0 & data3 & Hload & Hfilter & Hcases & _ & Hseqs & Hlabels
        & _ & _ & _ & _ & Hret).
  simpl in Hload. injection Hload as <-.
  destruct Hcases as [[Hns _]|[[Hns _]|(_ & _ & ->)]];
    [discriminate Hns | discriminate Hns |].
  simpl in Hfilter, Hseqs, Hlabels, Hret.
  assert (Hdf : dataframe d = filtered "SEQS" df).
  { apply filter_by_length_Ok in Hfilter as [(_ & _ & _ & Hdf)|(Hnot & _)];
      [exact Hdf|].
    exfalso. apply Hnot. simpl. auto. }
  assert (Hpairs :
    map (fun r => (cell r "IDs", cell r "SEQS")) (rows (dataframe d))
    = map (fun r => (VStr (rec_id r), VStr (rec_seq r)))
        (short_records records)).
  { rewrite <- fastx_kept_rows. fold df.
    assert (Hid := @filtered_column "SEQS" df "IDs" ltac:(discriminate)).
    assert (Hsq := @filtered_column "SEQS" df "SEQS" ltac:(discriminate)).
    rewrite Hdf.
    assert (Hzip : forall (l l' : list Row) (f1 f2 : Row -> value),
               map f1 l = map f1 l' -> map f2 l = map f2 l' ->
               map (fun r => (f1 r, f2 r)) l = map (fun r => (f1 r, f2 r)) l').
    { induction l as [|x l IH]; intros [|y l'] f1 f2 H1 H2;
        simpl in *; try discriminate; auto.
      injection H1 as -> H1. injection H2 as -> H2. f_equal. now apply IH. }
    apply Hzip; [exact Hid | exact Hsq]. }
  split; [exact Hret|]. split; [|split; [|split]].
  - rewrite Hseqs. unfold values_of. rewrite map_map. simpl.
    rewrite <- (map_map (fun r => (cell r "IDs", cell r "SEQS")) snd).
    rewrite Hpairs, map_map. reflexivity.
  - unfold len. rewrite Hseqs, length_map.
    rewrite <- (length_map (fun r => (cell r "IDs", cell r "SEQS"))).
    now rewrite Hpairs, length_map.
  - intros ->. simpl in Hlabels. eexists. split; [exact Hlabels|].
    unfold values_of. rewrite map_map. simpl.
    rewrite <- (map_map (fun r => (cell r "IDs", cell r "SEQS")) fst).
    rewrite Hpairs, map_map. reflexivity.
  - destruct w, w'. simpl in *. congruence.
Qed.

(** ** A map saved by a construction that fails *)

(** X11.  The id map is saved before the sequence column is read.  On a
    table that has the label column (labels of one kind) and lacks the
    sequence column, a construction asked to save the id map, with the
    directory there and nothing yet at the path, raises [KeyError] at
    line 101, and by then has written the file: the path exists
    afterwards, so that a later construction will not save its own map.
    (The sequence column is not to be named [index] or [level_0], the
    names under which a resampling step keeps the former labels, and the
    table is to have no column [level_0], which would stop that step.) *)
Theorem save_before_failure a w data0 c :
  load_table read_csv a = Ok data0 ->
  Args.label_column a = Some c ->
  In c (columns data0) ->
  ~ In (Args.seq_column a) (columns data0) ->
  Args.seq_column a <> "index" -> Args.seq_column a <> "level_0" ->
  ~ In "level_0" (columns data0) ->
  forallb is_int (column_of c (rows data0))
  || forallb is_str (column_of c (rows data0)) = true ->
  (Args.nsamples a = -1 -> rows data0 <> []) ->
  Args.save_id_map a = true ->
  exists_on_disk (id_map_path (Args.sim a)) w = false ->
  In id_map_dir (dirs w) ->
  exists w',
    init rand read_csv a w = (Raise KeyError, w') /\
    exists_on_disk (id_map_path (Args.sim a)) w' = true.
Proof.
  intros Hload Hlc Hc Hsc Hsc1 Hsc2 Hlevel Hkind Hrows Hsave Hfree Hdir.
  set (sc := Args.seq_column a) in *.
  assert (Hfilter : filter_by_length sc data0 = Ok data0).
  { rewrite filter_by_length_eq. apply mem_nIn in Hsc. now rewrite Hsc. }
  assert (Hfresh : ~ In (index_name (columns data0)) (columns data0)).
  { destruct (index_name_cases (columns data0)) as [[-> Hn]|[-> _]]; auto. }
  destruct (@sampling_steps c (Args.nsamples a) data0 w Hc Hrows)
    as (data2 & w2 & data3 & w3 & Hmed & Hspec & Hkeep & Hcols).
  { intros _. exact Hfresh. }
  destruct (Hkeep c Hc) as [Hc3 Hcol3].
  assert (Hsc3 : mem sc (columns data3) = false).
  { apply mem_nIn. intros Hin. apply Hcols in Hin as [Hin|Hin];
      [contradiction|].
    destruct (index_name_cases (columns data0)) as [[Heq _]|[Heq _]];
      rewrite Heq in Hin; contradiction. }
  assert (Hkind3 : forallb is_int (column_of c (rows data3))
                   || forallb is_str (column_of c (rows data3)) = true).
  { eapply one_kind_incl; [exact Hcol3 | exact Hkind]. }
  assert (Hu : exists u, unique (column_of c (rows data3)) = Ok u).
  { unfold unique. rewrite Hkind3. eauto. }
  destruct Hu as [u Hu].
  assert (Hdisk : same_disk w w3).
  { assert (Ha : same_disk w w2)
      by (eapply sampling_same_disk; left; exact Hmed).
    assert (Hb : same_disk w2 w3)
      by (eapply sampling_same_disk; right; exact Hspec).
    destruct Ha, Hb. split; congruence. }
  destruct Hdisk as [Hfiles Hdirs].
  assert (Hfree3 : exists_on_disk (id_map_path (Args.sim a)) w3 = false).
  { unfold exists_on_disk in *. now rewrite Hfiles, Hdirs. }
  assert (Hdir3 : mem id_map_dir (dirs w3) = true).
  { rewrite Hdirs. now apply mem_In. }
  destruct (@init_from_labels a w data0 data0 data2 w2 data3 w3 c u
              Hload Hfilter Hlc Hmed Hspec Hc3 Hu) as (ld & ->).
  assert (Hsaved : exists w',
            save_map true (Args.sim a) (invert ld) w3 = (Ok tt, w') /\
            exists_on_disk (id_map_path (Args.sim a)) w' = true).
  { unfold save_map, bind, path_exists.
    unfold exists_on_disk in Hfree3. rewrite Hfree3.
    unfold dump_to. rewrite Hdir3. eexists. split; [reflexivity|].
    unfold exists_on_disk. simpl. rewrite get_set_same.
    apply orb_true_r. }
  destruct Hsaved as (w' & Hrun & Hthere).
  exists w'. split; [|exact Hthere].
  rewrite Hsave. erewrite bind_run by exact Hrun.
  unfold bind, lift, getcol. fold sc. now rewrite Hsc3.
Qed.

(** ** The column of the former labels *)

(** X12.  A column named [index] in the input.  When the table has the
    sequence column and a column named [index] of its own, a construction
    that resamples (sample count -1 or above 0) never returns a dataset:
    the length filter keeps the former labels under [level_0], the name
    the resampling step then needs for its own. *)
Theorem own_index_column a w data0 :
  load_table read_csv a = Ok data0 ->
  In (Args.seq_column a) (columns data0) ->
  In "index" (columns data0) ->
  Args.nsamples a = -1 \/ 0 < Args.nsamples a ->
  exists e w', init rand read_csv a w = (Raise e, w').
Proof.
  intros Hload Hsc Hindex Hns.
  destruct (init rand read_csv a w) as [[d|e] w'] eqn:Hinit; [|eauto].
  exfalso.
  destruct (@constructed_filtered a w d w' data0 Hinit Hload Hsc)
    as (_ & Hfresh & Hdf & _).
  set (sc := Args.seq_column a) in *.
  assert (Hk : In "index" (columns (kept sc data0))).
  { apply kept_columns. split; [exact Hindex | discriminate]. }
  assert (Hname : index_name (columns (kept sc data0)) = "level_0").
  { destruct (index_name_cases (columns (kept sc data0)))
      as [[_ Hn]|[Heq _]]; [contradiction | exact Heq]. }
  assert (Hcols : columns (dataframe d) = "level_0" :: columns (kept sc data0)).
  { rewrite Hdf. unfold filtered, with_index. cbn [columns].
    now rewrite Hname. }
  assert (Htaken : forall c n data3, ~ sampled c n (dataframe d) data3).
  { intros c n data3 (Hfree & _). apply Hfree.
    assert (Hin : In "index" (columns (dataframe d)))
      by (rewrite Hcols; now right).
    destruct (index_name_cases (columns (dataframe d)))
      as [[_ Hn]|[-> _]]; [contradiction|].
    rewrite Hcols. now left. }
  apply init_Ok in Hinit as (data0' & data3 & _ & _ & Hcases & _).
  destruct Hcases as [[_ (c & g & m & _ & _ & _ & _ & Hs)]
                     |[[_ (c & _ & _ & Hs)]|(Hn1 & Hn2 & _)]].
  - exact (Htaken _ _ _ Hs).
  - exact (Htaken _ _ _ Hs).
  - destruct Hns; [contradiction | lia].
Qed.

(** X13.  Row labels served for sequences.  A construction on a table that
    lacks the column named for the sequences returns a dataset only when
    it resamples and the name is [index] or [level_0], the name under
    which the resampling step keeps the former labels; the table was not
    filtered by length, and what the dataset serves as sequences are
    index labels of rows of the input, integers. *)
Theorem row_labels_for_sequences a w d w' data0 :
  init rand read_csv a w = (Ok d, w') ->
  load_table read_csv a = Ok data0 ->
  ~ In (Args.seq_column a) (columns data0) ->
  (Args.nsamples a = -1 \/ 0 < Args.nsamples a) /\
  (Args.seq_column a = "index" \/ Args.seq_column a = "level_0") /\
  dataframe d = data0 /\
  forall v, In v (values_of (seqs d)) ->
    exists r, In r (rows data0) /\ v = VInt (ix r).
Proof.
  intros Hinit Hload Hnot.
  pose proof Hinit as Hrows.
  apply constructed_rows in Hrows as (rs & Hseqs & _ & _ & Hfrom).
  apply init_Ok in Hinit
    as (data0' & data3 & Hload' & Hfilter & Hcases & Hsc & _).
  rewrite Hload in Hload'. injection Hload' as <-.
  assert (Hdf : dataframe d = data0).
  { apply filter_by_length_Ok in Hfilter as [(Hin & _)|(_ & Hdf)];
      [contradiction | exact Hdf]. }
  assert (Hmade : forall c n, sampled c n (dataframe d) data3 ->
                  Args.seq_column a = "index"
                  \/ Args.seq_column a = "level_0").
  { intros c n (_ & Hcols & _). rewrite Hcols, Hdf in Hsc.
    destruct Hsc as [<-|Hsc]; [|contradiction].
    destruct (index_name_cases (columns data0)) as [[-> _]|[-> _]]; auto. }
  assert (Hserved : forall v, In v (values_of (seqs d)) ->
                    exists r, In r (rows data0) /\ v = VInt (ix r)).
  { intros v Hv. rewrite Hseqs in Hv. unfold values_of in Hv.
    rewrite map_map in Hv. apply in_map_iff in Hv as [r' [<- Hr']].
    destruct (Hfrom r' Hr') as (r & Hr & _ & Hix).
    rewrite Hdf in Hr, Hix. exists r. split; [exact Hr|].
    now apply Hix. }
  destruct Hcases as [[Hns (c & g & m & _ & _ & _ & _ & Hs)]
                     |[[Hns (c & _ & _ & Hs)]|(_ & _ & ->)]].
  - split; [now left|]. split; [exact (Hmade _ _ Hs)|]. auto.
  - split; [now right|]. split; [exact (Hmade _ _ Hs)|]. auto.
  - rewrite Hdf in Hsc. contradiction.
Qed.

End Properties.

(** * The properties at concrete inputs *)

(** Each lemma below instantiates one of the theorems in the world of
    [Demo], with its hypotheses established by evaluation. *)

Lemma from_fastx_without_map_raises_witness :
  Demo.SeqIO_parse "two.fasta" (last5 "two.fasta") = Ok Demo.records /\
  from_fastx Demo.rand Demo.read_csv Demo.SeqIO_parse
    "two.fasta" "SEQS" None 0 None Demo.world0
  = (Raise AttributeError, Demo.world0).
Proof.
  split; [reflexivity|].
  exact (@from_fastx_without_map_raises Demo.rand Demo.read_csv
           Demo.SeqIO_parse "two.fasta" Demo.records "SEQS" 0 Demo.world0
           eq_refl).
Defined.

(** With a label map, even an empty one, the same file gives a dataset of
    length 2 whose items hold the sequence and no label. *)
Example from_fastx_with_map :
  exists d w,
    from_fastx Demo.rand Demo.read_csv Demo.SeqIO_parse
      "two.fasta" "SEQS" None 0 (Some []) Demo.world0 = (Ok d, w) /\
    len d = 2%nat /\
    values_of (seqs d) = [VStr "MKV"; VStr "MALW"] /\
    (exists s,
       fst (getitem Demo.tokenizer d 1 w) = Ok s /\
       PyDict.get "sequence" s = Some (FValue (VStr "MALW")) /\
       PyDict.get "label" s = None).
Proof.
  eexists. eexists. split; [reflexivity|].
  split; [reflexivity|]. split; [reflexivity|].
  eexists. split; [reflexivity|]. split; reflexivity.
Qed.

Lemma length_filter_witness :
  init Demo.rand Demo.read_csv (Demo.args Demo.table_long (-1) None)
    Demo.world0
  = (Ok Demo.one_short, Demo.world_after (Demo.args Demo.table_long (-1) None))
  /\ load_table Demo.read_csv (Demo.args Demo.table_long (-1) None)
     = Ok Demo.table_long
  /\ In (Args.seq_column (Demo.args Demo.table_long (-1) None))
       (columns Demo.table_long)
  /\ List.length (rows Demo.table_long) = 2%nat
  /\ columns (dataframe Demo.one_short) = ["index"; "label"; "sequence"]
  /\ column_of "index" (rows (dataframe Demo.one_short)) = [VInt 1]
  /\ len Demo.one_short = 1%nat
  /\ values_of (seqs Demo.one_short) = [VStr Demo.short_sequence].
Proof.
  assert (Hinit :
    init Demo.rand Demo.read_csv (Demo.args Demo.table_long (-1) None)
      Demo.world0
    = (Ok Demo.one_short,
       Demo.world_after (Demo.args Demo.table_long (-1) None)))
    by (vm_compute; reflexivity).
  assert (Hsc : In (Args.seq_column (Demo.args Demo.table_long (-1) None))
                  (columns Demo.table_long)) by (simpl; auto).
  split; [exact Hinit|]. split; [reflexivity|]. split; [exact Hsc|].
  split; [reflexivity|]. split; [reflexivity|]. split; [reflexivity|].
  pose proof (@length_filter Demo.rand Demo.read_csv _ _ _ _
                Demo.table_long Hinit eq_refl Hsc) as H.
  cbv zeta in H.
  destruct H as (_ & _ & _ & _ & _ & _ & _ & Htwo).
  destruct (rows Demo.table_long) as [|r1 [|r2 [|r3 rs]]] eqn:Hrows;
    try discriminate.
  apply (Htwo r1 r2 Demo.long_sequence Demo.short_sequence eq_refl).
  - vm_compute in Hrows. injection Hrows as <- <-. reflexivity.
  - vm_compute in Hrows. injection Hrows as <- <-. reflexivity.
  - vm_compute. reflexivity.
  - reflexivity.
  - simpl. lia.
Defined.

(** C2, counterexample to "a two-row table with sequence lengths 2000 and
    10 yields a dataset of length 1": with the sample count 3 the row that
    passes the filter is drawn three times, and the dataset has length
    3. *)
Lemma length_filter_resampled :
  exists w',
    init Demo.rand Demo.read_csv (Demo.args Demo.table_long 3 None)
      Demo.world0 = (Ok Cases.three_of_short, w') /\
    column_of "sequence" (rows Demo.table_long)
    = [VStr Demo.long_sequence; VStr Demo.short_sequence] /\
    String.length Demo.long_sequence = 2000%nat /\
    String.length Demo.short_sequence = 10%nat /\
    List.length (rows (dataframe Cases.three_of_short)) = 1%nat /\
    len Cases.three_of_short = 3%nat /\
    values_of (seqs Cases.three_of_short)
    = [VStr Demo.short_sequence; VStr Demo.short_sequence;
       VStr Demo.short_sequence].
Proof.
  eexists. split; [vm_compute; reflexivity|].
  split; [reflexivity|]. split; [vm_compute; reflexivity|].
  split; [reflexivity|]. split; [reflexivity|]. split; reflexivity.
Qed.

(** C3, counterexample to resampling "to exactly the median": on the
    2-and-7 table the median of the group sizes is 9/2, and every group
    gets 4 rows. *)
Lemma median_sampling_truncates :
  exists w' groups ls,
    init Demo.rand Demo.read_csv (Demo.args Demo.table_2_7 (-1) None)
      Demo.world0 = (Ok Demo.median_2_7, w') /\
    groupby (Some "label") (dataframe Demo.median_2_7) = Ok groups /\
    size groups = [2; 7] /\
    median (size groups) = Some (9 # 2)%Q /\
    labels Demo.median_2_7 = Some ls /\
    occurrences (VStr "A") ls = 4%nat /\
    occurrences (VStr "B") ls = 4%nat /\
    ~ (inject_Z 4 == 9 # 2)%Q.
Proof.
  eexists. eexists. eexists.
  split; [vm_compute; reflexivity|].
  split; [reflexivity|]. split; [reflexivity|]. split; [reflexivity|].
  split; [reflexivity|]. split; [reflexivity|]. split; [reflexivity|].
  unfold Qeq. simpl. lia.
Qed.

Lemma median_sampling_counts_witness :
  init Demo.rand Demo.read_csv (Demo.args Demo.table_2_6 (-1) None)
    Demo.world0
  = (Ok Demo.median_2_6, Demo.world_after (Demo.args Demo.table_2_6 (-1) None))
  /\ Args.nsamples (Demo.args Demo.table_2_6 (-1) None) = -1
  /\ exists c groups ls m,
       Args.label_column (Demo.args Demo.table_2_6 (-1) None) = Some c /\
       groupby (Some c) (dataframe Demo.median_2_6) = Ok groups /\
       labels Demo.median_2_6 = Some ls /\
       py_int (median (size groups)) = Ok m /\
       (forall k, In k (map fst groups) ->
                  Z.of_nat (occurrences k ls) = m) /\
       (forall k, ~ In k (map fst groups) -> occurrences k ls = O) /\
       (forall i l s,
          series_getitem ls i = Ok l ->
          series_getitem (seqs Demo.median_2_6) i = Ok s ->
          exists r,
            In r (rows (dataframe Demo.median_2_6)) /\
            cell r c = l /\
            (In (Args.seq_column (Demo.args Demo.table_2_6 (-1) None))
               (columns (dataframe Demo.median_2_6)) ->
             cell r (Args.seq_column (Demo.args Demo.table_2_6 (-1) None))
             = s) /\
            (~ In (Args.seq_column (Demo.args Demo.table_2_6 (-1) None))
                 (columns (dataframe Demo.median_2_6)) ->
             s = VInt (ix r))) /\
       (Permutation (size groups) [2; 6] -> m = 4).
Proof.
  assert (Hinit :
    init Demo.rand Demo.read_csv (Demo.args Demo.table_2_6 (-1) None)
      Demo.world0
    = (Ok Demo.median_2_6,
       Demo.world_after (Demo.args Demo.table_2_6 (-1) None)))
    by (vm_compute; reflexivity).
  split; [exact Hinit|]. split; [reflexivity|].
  exact (@median_sampling_counts Demo.rand Demo.read_csv _ _ _ _
           Hinit eq_refl).
Defined.

Lemma specific_sampling_counts_witness :
  init Demo.rand Demo.read_csv (Demo.args Demo.table_2_6 3 None) Demo.world0
  = (Ok Demo.three_each, Demo.world_after (Demo.args Demo.table_2_6 3 None))
  /\ 0 < Args.nsamples (Demo.args Demo.table_2_6 3 None)
  /\ exists c groups ls,
       Args.label_column (Demo.args Demo.table_2_6 3 None) = Some c /\
       groupby (Some c) (dataframe Demo.three_each) = Ok groups /\
       labels Demo.three_each = Some ls /\
       (forall k g, In (k, g) groups ->
          (1 <= List.length g)%nat /\
          Z.of_nat (occurrences k ls)
          = Args.nsamples (Demo.args Demo.table_2_6 3 None)) /\
       (forall k, ~ In k (map fst groups) -> occurrences k ls = O) /\
       (forall i l s,
          series_getitem ls i = Ok l ->
          series_getitem (seqs Demo.three_each) i = Ok s ->
          exists r,
            In r (rows (dataframe Demo.three_each)) /\
            cell r c = l /\
            (In (Args.seq_column (Demo.args Demo.table_2_6 3 None))
               (columns (dataframe Demo.three_each)) ->
             cell r (Args.seq_column (Demo.args Demo.table_2_6 3 None))
             = s) /\
            (~ In (Args.seq_column (Demo.args Demo.table_2_6 3 None))
                 (columns (dataframe Demo.three_each)) ->
             s = VInt (ix r))).
Proof.
  assert (Hinit :
    init Demo.rand Demo.read_csv (Demo.args Demo.table_2_6 3 None)
      Demo.world0
    = (Ok Demo.three_each,
       Demo.world_after (Demo.args Demo.table_2_6 3 None)))
    by (vm_compute; reflexivity).
  split; [exact Hinit|]. split; [reflexivity|].
  exact (@specific_sampling_counts Demo.rand Demo.read_csv _ _ _ _
           Hinit eq_refl).
Defined.

Lemma label_map_bijection_witness :
  init Demo.rand Demo.read_csv (Demo.args Demo.table_2_6 3 None) Demo.world0
  = (Ok Demo.three_each, Demo.world_after (Demo.args Demo.table_2_6 3 None))
  /\ Args.label_column (Demo.args Demo.table_2_6 3 None) = Some "label"
  /\ Args.mapper (Demo.args Demo.table_2_6 3 None) = None
  /\ label_dict Demo.three_each = [(VStr "A", 0); (VStr "B", 1)]
  /\ id2label Demo.three_each = [(0, VStr "A"); (1, VStr "B")]
  /\ exists ls k,
       labels Demo.three_each = Some ls /\
       nu_labels Demo.three_each = Some k /\
       k = List.length (nodup value_eq_dec (values_of ls)) /\
       (forall v, In v (values_of ls) ->
          exists i,
            0 <= i < Z.of_nat k /\
            PyDict.get v (label_dict Demo.three_each) = Some i /\
            PyDict.get i (id2label Demo.three_each) = Some v) /\
       (forall i, 0 <= i < Z.of_nat k ->
          exists v,
            In v (values_of ls) /\
            PyDict.get i (id2label Demo.three_each) = Some v /\
            PyDict.get v (label_dict Demo.three_each) = Some i) /\
       (forall v i,
          PyDict.get v (label_dict Demo.three_each) = Some i <->
          PyDict.get i (id2label Demo.three_each) = Some v) /\
       (forall v,
          In v (column_of "label" (rows (dataframe Demo.three_each))) ->
          In v (values_of ls)).
Proof.
  assert (Hinit :
    init Demo.rand Demo.read_csv (Demo.args Demo.table_2_6 3 None)
      Demo.world0
    = (Ok Demo.three_each,
       Demo.world_after (Demo.args Demo.table_2_6 3 None)))
    by (vm_compute; reflexivity).
  split; [exact Hinit|]. split; [reflexivity|]. split; [reflexivity|].
  split; [reflexivity|]. split; [reflexivity|].
  exact (@label_map_bijection Demo.rand Demo.read_csv _ _ _ _ "label"
           Hinit eq_refl eq_refl).
Defined.

Lemma label_ids_ascending_witness :
  init Demo.rand Demo.read_csv (Demo.args Demo.table_2_6 3 None) Demo.world0
  = (Ok Demo.three_each, Demo.world_after (Demo.args Demo.table_2_6 3 None))
  /\ Args.label_column (Demo.args Demo.table_2_6 3 None) = Some "label"
  /\ Args.mapper (Demo.args Demo.table_2_6 3 None) = None
  /\ (forall u v i j,
        PyDict.get u (label_dict Demo.three_each) = Some i ->
        PyDict.get v (label_dict Demo.three_each) = Some j ->
        (i < j <-> value_ltb u v = true))
  /\ (forall ls v,
        labels Demo.three_each = Some ls -> In v (values_of ls) ->
        exists m,
          PyDict.get 0 (id2label Demo.three_each) = Some m /\
          PyDict.get m (label_dict Demo.three_each) = Some 0 /\
          value_leb m v = true).
Proof.
  assert (Hinit :
    init Demo.rand Demo.read_csv (Demo.args Demo.table_2_6 3 None)
      Demo.world0
    = (Ok Demo.three_each,
       Demo.world_after (Demo.args Demo.table_2_6 3 None)))
    by (vm_compute; reflexivity).
  split; [exact Hinit|]. split; [reflexivity|]. split; [reflexivity|].
  exact (@label_ids_ascending Demo.rand Demo.read_csv _ _ _ _ "label"
           Hinit eq_refl eq_refl).
Defined.

(** C6, counterexample.  First, to "item access returns a sample at every
    index within bounds": with an external map that lacks a label of the
    data the dataset is constructed, index 1 is within bounds, its row is
    labelled B, the map knows A only, and item access raises [KeyError];
    at index 0, labelled A, it returns a sample.  Second, to "neither
    field appears otherwise": the dataset does not return sequences, and a
    tokenizer whose encoding has a field named [sequence] makes the sample
    have it. *)
Lemma getitem_label_outside_map :
  exists w',
    init Demo.rand Demo.read_csv
      (Demo.args Demo.table_2_6 0 (Some [(VStr "A", 0)])) Demo.world0
    = (Ok Demo.partial_map, w') /\
    len Demo.partial_map = 8%nat /\
    (exists ls,
       labels Demo.partial_map = Some ls /\
       series_getitem ls 1 = Ok (VStr "B")) /\
    label_dict Demo.partial_map = [(VStr "A", 0)] /\
    fst (getitem Demo.tokenizer Demo.partial_map 1 w') = Raise KeyError /\
    (exists s,
       fst (getitem Demo.tokenizer Demo.partial_map 0 w') = Ok s /\
       PyDict.get "label" s = Some (FInt 0)) /\
    return_seqs Demo.partial_map = false /\
    (exists s,
       fst (getitem Cases.tagging Demo.partial_map 0 w') = Ok s /\
       PyDict.get "sequence" s = Some (FValue (VStr "tokens"))).
Proof.
  eexists. split; [vm_compute; reflexivity|].
  split; [reflexivity|].
  split; [eexists; split; reflexivity|].
  split; [reflexivity|]. split; [reflexivity|].
  split; [eexists; split; reflexivity|].
  split; [reflexivity|].
  eexists. split; reflexivity.
Qed.

Lemma getitem_sample_witness :
  init Demo.rand Demo.read_csv (Demo.args Demo.table_2_6 3 None) Demo.world0
  = (Ok Demo.three_each, Demo.world_after (Demo.args Demo.table_2_6 3 None))
  /\ 0 <= 4 < Z.of_nat (len Demo.three_each)
  /\ series_getitem (seqs Demo.three_each) 4 = Ok (VStr "MGS")
  /\ fst (getitem Demo.tokenizer Demo.three_each 4 Demo.world0)
     = Ok [("input_ids", FTensor [[77; 71; 83]]);
           ("attention_mask", FTensor [[1; 1; 1]]);
           ("label", FInt 1)]
  /\ exists v,
       series_getitem (seqs Demo.three_each) 4 = Ok v /\
       (In (Args.seq_column (Demo.args Demo.table_2_6 3 None))
          (columns (dataframe Demo.three_each)) ->
        exists text, v = VStr text) /\
       forall text, v = VStr text ->
         let enc := Demo.tokenizer (tokenizer_calls Demo.world0) text in
         match labels Demo.three_each with
         | Some ls =>
             exists l,
               series_getitem ls 4 = Ok l /\
               match PyDict.get l (label_dict Demo.three_each) with
               | Some i =>
                   fst (getitem Demo.tokenizer Demo.three_each 4 Demo.world0)
                   = Ok (with_sequence Demo.three_each text
                           (PyDict.set "label" (FInt i) enc))
               | None =>
                   fst (getitem Demo.tokenizer Demo.three_each 4 Demo.world0)
                   = Raise KeyError
               end /\
               (Args.mapper (Demo.args Demo.table_2_6 3 None) = None ->
                PyDict.get l (label_dict Demo.three_each) <> None)
         | None =>
             fst (getitem Demo.tokenizer Demo.three_each 4 Demo.world0)
             = Ok (with_sequence Demo.three_each text enc)
         end /\
         forall s,
           fst (getitem Demo.tokenizer Demo.three_each 4 Demo.world0) = Ok s ->
           (labels Demo.three_each = None ->
            PyDict.get "label" s = PyDict.get "label" enc) /\
           (return_seqs Demo.three_each = false ->
            PyDict.get "sequence" s = PyDict.get "sequence" enc).
Proof.
  assert (Hinit :
    init Demo.rand Demo.read_csv (Demo.args Demo.table_2_6 3 None)
      Demo.world0
    = (Ok Demo.three_each,
       Demo.world_after (Demo.args Demo.table_2_6 3 None)))
    by (vm_compute; reflexivity).
  assert (Hidx : 0 <= 4 < Z.of_nat (len Demo.three_each))
    by (vm_compute; split; [discriminate | reflexivity]).
  split; [exact Hinit|]. split; [exact Hidx|].
  split; [reflexivity|]. split; [reflexivity|].
  exact (@getitem_sample Demo.rand Demo.read_csv Demo.tokenizer _ _ _ _
           4 Demo.world0 Hinit Hidx).
Defined.

Lemma getitem_out_of_bounds_witness :
  init Demo.rand Demo.read_csv (Demo.args Demo.table_2_6 3 None) Demo.world0
  = (Ok Demo.three_each, Demo.world_after (Demo.args Demo.table_2_6 3 None))
  /\ len Demo.three_each = 6%nat
  /\ getitem Demo.tokenizer Demo.three_each 6 Demo.world0
     = (Raise KeyError, Demo.world0)
  /\ getitem Demo.tokenizer Demo.three_each (-1) Demo.world0
     = (Raise KeyError, Demo.world0).
Proof.
  assert (Hinit :
    init Demo.rand Demo.read_csv (Demo.args Demo.table_2_6 3 None)
      Demo.world0
    = (Ok Demo.three_each,
       Demo.world_after (Demo.args Demo.table_2_6 3 None)))
    by (vm_compute; reflexivity).
  split; [exact Hinit|]. split; [reflexivity|].
  destruct (@getitem_out_of_bounds Demo.rand Demo.read_csv Demo.tokenizer
              _ _ _ _ Hinit) as (_ & Hlen & Hneg).
  split; [exact (Hlen Demo.world0) | exact (Hneg Demo.world0)].
Defined.

Lemma getitem_never_cached_witness :
  init Demo.rand Demo.read_csv (Demo.args Demo.table_2_6 3 None) Demo.world0
  = (Ok Demo.three_each, Demo.world_after (Demo.args Demo.table_2_6 3 None))
  /\ 0 <= 4 < Z.of_nat (len Demo.three_each)
  /\ deterministic Demo.tokenizer
  /\ series_getitem (seqs Demo.three_each) 4 = Ok (VStr "MGS")
  /\ exists v,
       series_getitem (seqs Demo.three_each) 4 = Ok v /\
       (In (Args.seq_column (Demo.args Demo.table_2_6 3 None))
          (columns (dataframe Demo.three_each)) ->
        exists text, v = VStr text) /\
       forall text, v = VStr text ->
         let w2 := called text Demo.world0 in
         let enc1 := Demo.tokenizer (tokenizer_calls Demo.world0) text in
         let enc2 := Demo.tokenizer (tokenizer_calls w2) text in
         snd (getitem Demo.tokenizer Demo.three_each 4 Demo.world0) = w2 /\
         snd (getitem Demo.tokenizer Demo.three_each 4 w2)
         = called text w2 /\
         tokenizer_calls (called text w2)
         = tokenizer_calls Demo.world0 ++ [text; text] /\
         match labels Demo.three_each with
         | Some ls =>
             exists l,
               series_getitem ls 4 = Ok l /\
               (Args.mapper (Demo.args Demo.table_2_6 3 None) = None ->
                PyDict.get l (label_dict Demo.three_each) <> None) /\
               match PyDict.get l (label_dict Demo.three_each) with
               | Some i =>
                   fst (getitem Demo.tokenizer Demo.three_each 4 Demo.world0)
                   = Ok (with_sequence Demo.three_each text
                           (PyDict.set "label" (FInt i) enc1)) /\
                   fst (getitem Demo.tokenizer Demo.three_each 4 w2)
                   = Ok (with_sequence Demo.three_each text
                           (PyDict.set "label" (FInt i) enc2))
               | None =>
                   fst (getitem Demo.tokenizer Demo.three_each 4 Demo.world0)
                   = Raise KeyError /\
                   fst (getitem Demo.tokenizer Demo.three_each 4 w2)
                   = Raise KeyError
               end
         | None =>
             fst (getitem Demo.tokenizer Demo.three_each 4 Demo.world0)
             = Ok (with_sequence Demo.three_each text enc1) /\
             fst (getitem Demo.tokenizer Demo.three_each 4 w2)
             = Ok (with_sequence Demo.three_each text enc2)
         end /\
         (deterministic Demo.tokenizer ->
          fst (getitem Demo.tokenizer Demo.three_each 4 w2)
          = fst (getitem Demo.tokenizer Demo.three_each 4 Demo.world0)).
Proof.
  assert (Hinit :
    init Demo.rand Demo.read_csv (Demo.args Demo.table_2_6 3 None)
      Demo.world0
    = (Ok Demo.three_each,
       Demo.world_after (Demo.args Demo.table_2_6 3 None)))
    by (vm_compute; reflexivity).
  assert (Hidx : 0 <= 4 < Z.of_nat (len Demo.three_each))
    by (vm_compute; split; [discriminate | reflexivity]).
  split; [exact Hinit|]. split; [exact Hidx|].
  split; [intros h1 h2 text; reflexivity|].
  split; [reflexivity|].
  exact (@getitem_never_cached Demo.rand Demo.read_csv Demo.tokenizer
           _ _ _ _ 4 Demo.world0 Hinit Hidx).
Defined.

(** With a tokenizer that counts the calls made before, the two accesses
    return different samples: the second holds the answer to the second
    call. *)
Example getitem_twice_counting :
  fst (getitem Cases.counting Demo.three_each 4 Demo.world0)
  = Ok [("input_ids", FTensor [[0]]); ("label", FInt 1)] /\
  fst (getitem Cases.counting Demo.three_each 4
         (snd (getitem Cases.counting Demo.three_each 4 Demo.world0)))
  = Ok [("input_ids", FTensor [[1]]); ("label", FInt 1)].
Proof. split; reflexivity. Qed.

Lemma median_sampling_needs_label_column_witness :
  Args.label_column (Demo.unlabelled Demo.table_2_6) = None
  /\ Args.nsamples (Demo.unlabelled Demo.table_2_6) = -1
  /\ init Demo.rand Demo.read_csv (Demo.unlabelled Demo.table_2_6)
       Demo.world0
     = (Raise TypeError, Demo.world0).
Proof.
  split; [reflexivity|]. split; [reflexivity|].
  destruct (@median_sampling_needs_label_column Demo.rand Demo.read_csv
              (Demo.unlabelled Demo.table_2_6) Demo.world0 eq_refl eq_refl)
    as [_ Hraise].
  eapply Hraise; reflexivity.
Defined.

(** ** The further properties at concrete inputs *)

Lemma resampled_layout_witness :
  init Demo.rand Demo.read_csv (Demo.args Demo.table_2_6 3 None) Demo.world0
  = (Ok Demo.three_each, Demo.world_after (Demo.args Demo.table_2_6 3 None))
  /\ (Args.nsamples (Demo.args Demo.table_2_6 3 None) = -1
      \/ 0 < Args.nsamples (Demo.args Demo.table_2_6 3 None))
  /\ values_of (seqs Demo.three_each)
     = [VStr "MKT"; VStr "MKV"; VStr "MKT";
        VStr "MAL"; VStr "MGS"; VStr "MPQ"]
  /\ exists c groups ls n,
       Args.label_column (Demo.args Demo.table_2_6 3 None) = Some c /\
       groupby (Some c) (dataframe Demo.three_each) = Ok groups /\
       labels Demo.three_each = Some ls /\
       (0 < Args.nsamples (Demo.args Demo.table_2_6 3 None) ->
        Z.of_nat n = Args.nsamples (Demo.args Demo.table_2_6 3 None)) /\
       (Args.nsamples (Demo.args Demo.table_2_6 3 None) = -1 ->
        py_int (median (size groups)) = Ok (Z.of_nat n)) /\
       StronglySorted (fun x y => value_leb x y = true) (map fst groups) /\
       NoDup (map fst groups) /\
       values_of ls = flat_map (fun k => repeat k n) (map fst groups) /\
       len Demo.three_each = (n * List.length groups)%nat /\
       draws (Demo.world_after (Demo.args Demo.table_2_6 3 None))
       = (draws Demo.world0 + n * List.length groups)%nat.
Proof.
  assert (Hinit :
    init Demo.rand Demo.read_csv (Demo.args Demo.table_2_6 3 None)
      Demo.world0
    = (Ok Demo.three_each,
       Demo.world_after (Demo.args Demo.table_2_6 3 None)))
    by (vm_compute; reflexivity).
  assert (Hns : Args.nsamples (Demo.args Demo.table_2_6 3 None) = -1
                \/ 0 < Args.nsamples (Demo.args Demo.table_2_6 3 None))
    by (right; reflexivity).
  split; [exact Hinit|]. split; [exact Hns|]. split; [reflexivity|].
  exact (@resampled_layout Demo.rand Demo.read_csv _ _ _ _ Hinit Hns).
Defined.

Lemma init_succeeds_witness :
  load_table Demo.read_csv (Demo.args Demo.table_2_6 (-1) None)
  = Ok Demo.table_2_6
  /\ Args.label_column (Demo.args Demo.table_2_6 (-1) None) = Some "label"
  /\ columns Demo.table_2_6 = ["label"; "sequence"]
  /\ dtypes Demo.table_2_6 "sequence" = object
  /\ exists d w',
       init Demo.rand Demo.read_csv (Demo.args Demo.table_2_6 (-1) None)
         Demo.world0 = (Ok d, w').
Proof.
  assert (Hlabel : In "label" (columns Demo.table_2_6))
    by (simpl; auto).
  assert (Hseq : In (Args.seq_column (Demo.args Demo.table_2_6 (-1) None))
                   (columns Demo.table_2_6))
    by (simpl; auto).
  assert (Hindex : ~ In "index" (columns Demo.table_2_6)).
  { simpl. intros [H|[H|[]]]; discriminate H. }
  assert (Hlevel : ~ In "level_0" (columns Demo.table_2_6)).
  { simpl. intros [H|[H|[]]]; discriminate H. }
  split; [reflexivity|]. split; [reflexivity|]. split; [reflexivity|].
  split; [reflexivity|].
  apply (@init_succeeds Demo.rand Demo.read_csv
           (Demo.args Demo.table_2_6 (-1) None) Demo.world0
           Demo.table_2_6 "label");
    try reflexivity; try discriminate; auto.
Defined.

Lemma missing_sequence_column_witness :
  load_table Demo.read_csv Cases.wrong_column = Ok Demo.table_2_6
  /\ columns Demo.table_2_6 = ["label"; "sequence"]
  /\ Args.seq_column Cases.wrong_column = "SEQS"
  /\ filter_by_length (Args.seq_column Cases.wrong_column) Demo.table_2_6
     = Ok Demo.table_2_6
  /\ exists e w',
       init Demo.rand Demo.read_csv Cases.wrong_column Demo.world0
       = (Raise e, w').
Proof.
  assert (Hnot : ~ In (Args.seq_column Cases.wrong_column)
                     (columns Demo.table_2_6)).
  { simpl. intros [H|[H|[]]]; discriminate H. }
  assert (Hway :
    Args.nsamples Cases.wrong_column <> -1
    /\ Args.nsamples Cases.wrong_column <= 0
    \/ Args.seq_column Cases.wrong_column <> "index"
       /\ Args.seq_column Cases.wrong_column <> "level_0").
  { right. split; discriminate. }
  split; [reflexivity|]. split; [reflexivity|]. split; [reflexivity|].
  exact (@missing_sequence_column Demo.rand Demo.read_csv
           Cases.wrong_column Demo.world0 Demo.table_2_6 eq_refl Hnot Hway).
Defined.

Lemma median_sampling_of_nothing_witness :
  load_table Demo.read_csv (Demo.args Cases.only_long (-1) None)
  = Ok Cases.only_long
  /\ List.length (rows Cases.only_long) = 1%nat
  /\ existsb (short_enough "sequence") (rows Cases.only_long) = false
  /\ init Demo.rand Demo.read_csv (Demo.args Cases.only_long (-1) None)
       Demo.world0
     = (Raise ValueError, Demo.world0).
Proof.
  assert (Hnone : existsb (short_enough "sequence") (rows Cases.only_long)
                  = false) by (vm_compute; reflexivity).
  split; [reflexivity|]. split; [reflexivity|]. split; [exact Hnone|].
  apply (@median_sampling_of_nothing Demo.rand Demo.read_csv
           (Demo.args Cases.only_long (-1) None) Demo.world0
           Cases.only_long "label");
    try reflexivity; try discriminate; try exact Hnone; simpl; auto.
Defined.

Lemma label_dict_keys_witness :
  init Demo.rand Demo.read_csv (Demo.args Demo.table_long (-1) None)
    Demo.world0
  = (Ok Demo.one_short, Demo.world_after (Demo.args Demo.table_long (-1) None))
  /\ load_table Demo.read_csv (Demo.args Demo.table_long (-1) None)
     = Ok Demo.table_long
  /\ Args.label_column (Demo.args Demo.table_long (-1) None) = Some "label"
  /\ Args.mapper (Demo.args Demo.table_long (-1) None) = None
  /\ label_dict Demo.one_short = [(VStr "B", 0)]
  /\ ((exists i, PyDict.get (VStr "A") (label_dict Demo.one_short) = Some i)
      <->
      (exists r,
         In r (rows Demo.table_long) /\ cell r "label" = VStr "A" /\
         short_enough
           (Args.seq_column (Demo.args Demo.table_long (-1) None)) r
         = true)).
Proof.
  assert (Hinit :
    init Demo.rand Demo.read_csv (Demo.args Demo.table_long (-1) None)
      Demo.world0
    = (Ok Demo.one_short,
       Demo.world_after (Demo.args Demo.table_long (-1) None)))
    by (vm_compute; reflexivity).
  assert (Hlabel : In "label" (columns Demo.table_long)) by (simpl; auto).
  assert (Hseq : In (Args.seq_column (Demo.args Demo.table_long (-1) None))
                   (columns Demo.table_long)) by (simpl; auto).
  split; [exact Hinit|]. split; [reflexivity|]. split; [reflexivity|].
  split; [reflexivity|]. split; [reflexivity|].
  exact (@label_dict_keys Demo.rand Demo.read_csv _ _ _ _ Demo.table_long
           "label" (VStr "A") Hinit eq_refl eq_refl eq_refl Hlabel Hseq).
Defined.

Lemma external_map_inverse_witness :
  init Demo.rand Demo.read_csv
    (Demo.args Demo.table_2_6 0 (Some Cases.both_labels)) Demo.world0
  = (Ok Cases.mapped,
     Demo.world_after (Demo.args Demo.table_2_6 0 (Some Cases.both_labels)))
  /\ Args.mapper (Demo.args Demo.table_2_6 0 (Some Cases.both_labels))
     = Some Cases.both_labels
  /\ id2label Cases.mapped = [(7, VStr "A"); (9, VStr "B")]
  /\ label_dict Cases.mapped = Cases.both_labels
  /\ (forall i v,
        PyDict.get i (id2label Cases.mapped) = Some v ->
        In (v, i) Cases.both_labels)
  /\ (forall m1 m2 v i,
        Cases.both_labels = m1 ++ (v, i) :: m2 ->
        ~ In i (PyDict.values m2) ->
        PyDict.get i (id2label Cases.mapped) = Some v)
  /\ (NoDup (PyDict.keys Cases.both_labels) ->
      NoDup (PyDict.values Cases.both_labels) ->
      forall v i,
        PyDict.get v Cases.both_labels = Some i <->
        PyDict.get i (id2label Cases.mapped) = Some v).
Proof.
  assert (Hinit :
    init Demo.rand Demo.read_csv
      (Demo.args Demo.table_2_6 0 (Some Cases.both_labels)) Demo.world0
    = (Ok Cases.mapped,
       Demo.world_after
         (Demo.args Demo.table_2_6 0 (Some Cases.both_labels))))
    by (vm_compute; reflexivity).
  split; [exact Hinit|]. split; [reflexivity|]. split; [reflexivity|].
  exact (@external_map_inverse Demo.rand Demo.read_csv _ _ _ _
           Cases.both_labels Hinit eq_refl).
Defined.

Lemma save_id_map_once_witness :
  init Demo.rand Demo.read_csv Cases.saving Cases.disk
  = (Ok Cases.saved, snd (init Demo.rand Demo.read_csv Cases.saving Cases.disk))
  /\ Args.save_id_map Cases.saving = true
  /\ id_map_path (Args.sim Cases.saving)
     = "cyc_id_maps/cyc_label_id_map_40.pickle"
  /\ exists_on_disk (id_map_path (Args.sim Cases.saving)) Cases.disk = false
  /\ files (snd (init Demo.rand Demo.read_csv Cases.saving Cases.disk))
     = [("cyc_id_maps/cyc_label_id_map_40.pickle",
         [(0, VStr "A"); (1, VStr "B")])]
  /\ if exists_on_disk (id_map_path (Args.sim Cases.saving)) Cases.disk
     then files (snd (init Demo.rand Demo.read_csv Cases.saving Cases.disk))
          = files Cases.disk
     else
       In id_map_dir (dirs Cases.disk) /\
       PyDict.get (id_map_path (Args.sim Cases.saving))
         (files (snd (init Demo.rand Demo.read_csv Cases.saving Cases.disk)))
       = Some (id2label Cases.saved) /\
       forall p, p <> id_map_path (Args.sim Cases.saving) ->
         PyDict.get p
           (files (snd (init Demo.rand Demo.read_csv Cases.saving
                          Cases.disk)))
         = PyDict.get p (files Cases.disk).
Proof.
  assert (Hinit :
    init Demo.rand Demo.read_csv Cases.saving Cases.disk
    = (Ok Cases.saved,
       snd (init Demo.rand Demo.read_csv Cases.saving Cases.disk)))
    by (vm_compute; reflexivity).
  split; [exact Hinit|]. split; [reflexivity|]. split; [reflexivity|].
  split; [reflexivity|]. split; [reflexivity|].
  exact (@save_id_map_once Demo.rand Demo.read_csv _ _ _ _ Hinit eq_refl).
Defined.

Lemma from_fastx_serves_records_witness :
  Demo.SeqIO_parse "two.fasta" (last5 "two.fasta") = Ok Demo.records
  /\ from_fastx Demo.rand Demo.read_csv Demo.SeqIO_parse
       "two.fasta" "SEQS" (Some "IDs") 5 None Demo.world0
     = (Ok Cases.from_file, Demo.world0)
  /\ return_seqs Cases.from_file = true
  /\ values_of (seqs Cases.from_file)
     = map (fun r => VStr (rec_seq r)) (short_records Demo.records)
  /\ len Cases.from_file = List.length (short_records Demo.records)
  /\ (Some "IDs" = Some "IDs" ->
      exists ls,
        labels Cases.from_file = Some ls /\
        values_of ls
        = map (fun r => VStr (rec_id r)) (short_records Demo.records))
  /\ Demo.world0 = Demo.world0.
Proof.
  assert (Hrun :
    from_fastx Demo.rand Demo.read_csv Demo.SeqIO_parse
      "two.fasta" "SEQS" (Some "IDs") 5 None Demo.world0
    = (Ok Cases.from_file, Demo.world0)) by (vm_compute; reflexivity).
  split; [reflexivity|]. split; [exact Hrun|].
  exact (@from_fastx_serves_records Demo.rand Demo.read_csv
           Demo.SeqIO_parse "two.fasta" Demo.records (Some "IDs") 5 None
           Demo.world0 Cases.from_file Demo.world0 eq_refl Hrun).
Defined.

Lemma getitem_fields_witness :
  getitem Demo.tokenizer Demo.three_each 4 Demo.world0
  = (Ok [("input_ids", FTensor [[77; 71; 83]]);
         ("attention_mask", FTensor [[1; 1; 1]]);
         ("label", FInt 1)],
     called "MGS" Demo.world0)
  /\ exists text,
       series_getitem (seqs Demo.three_each) 4 = Ok (VStr text) /\
       called "MGS" Demo.world0 = called text Demo.world0 /\
       let enc := Demo.tokenizer (tokenizer_calls Demo.world0) text in
       (forall k, k <> "label" -> k <> "sequence" ->
          PyDict.get k
            [("input_ids", FTensor [[77; 71; 83]]);
             ("attention_mask", FTensor [[1; 1; 1]]);
             ("label", FInt 1)]
          = PyDict.get k enc) /\
       match labels Demo.three_each with
       | Some ls =>
           exists l i,
             series_getitem ls 4 = Ok l /\
             PyDict.get l (label_dict Demo.three_each) = Some i /\
             PyDict.get "label"
               [("input_ids", FTensor [[77; 71; 83]]);
                ("attention_mask", FTensor [[1; 1; 1]]);
                ("label", FInt 1)]
             = Some (FInt i)
       | None =>
           PyDict.get "label"
             [("input_ids", FTensor [[77; 71; 83]]);
              ("attention_mask", FTensor [[1; 1; 1]]);
              ("label", FInt 1)]
           = PyDict.get "label" enc
       end /\
       PyDict.get "sequence"
         [("input_ids", FTensor [[77; 71; 83]]);
          ("attention_mask", FTensor [[1; 1; 1]]);
          ("label", FInt 1)]
       = if return_seqs Demo.three_each then Some (FValue (VStr text))
         else PyDict.get "sequence" enc.
Proof.
  assert (Hrun :
    getitem Demo.tokenizer Demo.three_each 4 Demo.world0
    = (Ok [("input_ids", FTensor [[77; 71; 83]]);
           ("attention_mask", FTensor [[1; 1; 1]]);
           ("label", FInt 1)],
       called "MGS" Demo.world0)) by (vm_compute; reflexivity).
  split; [exact Hrun|].
  exact (@getitem_fields Demo.tokenizer _ _ _ _ _ Hrun).
Defined.

Lemma save_before_failure_witness :
  load_table Demo.read_csv saving_wrong_column = Ok Demo.table_2_6
  /\ Args.save_id_map saving_wrong_column = true
  /\ exists_on_disk (id_map_path (Args.sim saving_wrong_column)) Cases.disk
     = false
  /\ In id_map_dir (dirs Cases.disk)
  /\ init Demo.rand Demo.read_csv saving_wrong_column Cases.disk
     = (Raise KeyError,
        snd (init Demo.rand Demo.read_csv saving_wrong_column Cases.disk))
  /\ files (snd (init Demo.rand Demo.read_csv saving_wrong_column Cases.disk))
     = [("cyc_id_maps/cyc_label_id_map_40.pickle",
         [(0, VStr "A"); (1, VStr "B")])]
  /\ exists w',
       init Demo.rand Demo.read_csv saving_wrong_column Cases.disk
       = (Raise KeyError, w') /\
       exists_on_disk (id_map_path (Args.sim saving_wrong_column)) w' = true.
Proof.
  assert (Hlabel : In "label" (columns Demo.table_2_6)) by (simpl; auto).
  assert (Hnot : ~ In (Args.seq_column saving_wrong_column)
                     (columns Demo.table_2_6)).
  { simpl. intros [H|[H|[]]]; discriminate H. }
  assert (Hdir : In id_map_dir (dirs Cases.disk)) by (simpl; auto).
  assert (Hlevel : ~ In "level_0" (columns Demo.table_2_6)).
  { simpl. intros [H|[H|[]]]; discriminate H. }
  split; [reflexivity|]. split; [reflexivity|]. split; [reflexivity|].
  split; [exact Hdir|]. split; [vm_compute; reflexivity|].
  split; [vm_compute; reflexivity|].
  apply (@save_before_failure Demo.rand Demo.read_csv saving_wrong_column
           Cases.disk Demo.table_2_6 "label");
    try reflexivity; try discriminate; auto.
Defined.

Lemma own_index_column_witness :
  load_table Demo.read_csv (Demo.args Cases.own_index 3 None)
  = Ok Cases.own_index
  /\ columns Cases.own_index = ["index"; "label"; "sequence"]
  /\ init Demo.rand Demo.read_csv (Demo.args Cases.own_index 3 None)
       Demo.world0
     = (Raise ValueError,
        snd (init Demo.rand Demo.read_csv (Demo.args Cases.own_index 3 None)
               Demo.world0))
  /\ (exists d w',
        init Demo.rand Demo.read_csv (Demo.args Cases.own_index 0 None)
          Demo.world0 = (Ok d, w') /\
        columns (dataframe d) = ["level_0"; "index"; "label"; "sequence"])
  /\ exists e w',
       init Demo.rand Demo.read_csv (Demo.args Cases.own_index 3 None)
         Demo.world0 = (Raise e, w').
Proof.
  assert (Hseq : In (Args.seq_column (Demo.args Cases.own_index 3 None))
                   (columns Cases.own_index)) by (simpl; auto).
  assert (Hindex : In "index" (columns Cases.own_index)) by (simpl; auto).
  assert (Hns : Args.nsamples (Demo.args Cases.own_index 3 None) = -1
                \/ 0 < Args.nsamples (Demo.args Cases.own_index 3 None))
    by (right; reflexivity).
  split; [reflexivity|]. split; [reflexivity|].
  split; [vm_compute; reflexivity|].
  split; [eexists; eexists; split; [vm_compute; reflexivity | reflexivity]|].
  exact (@own_index_column Demo.rand Demo.read_csv
           (Demo.args Cases.own_index 3 None) Demo.world0 Cases.own_index
           eq_refl Hseq Hindex Hns).
Defined.

Lemma row_labels_for_sequences_witness :
  init Demo.rand Demo.read_csv Cases.index_for_sequences Demo.world0
  = (Ok Cases.row_labels, Demo.world_after Cases.index_for_sequences)
  /\ load_table Demo.read_csv Cases.index_for_sequences = Ok Demo.table_2_6
  /\ columns Demo.table_2_6 = ["label"; "sequence"]
  /\ values_of (seqs Cases.row_labels)
     = [VInt 3; VInt 0; VInt 3; VInt 1; VInt 2; VInt 4]
  /\ (Args.nsamples Cases.index_for_sequences = -1
      \/ 0 < Args.nsamples Cases.index_for_sequences)
  /\ (Args.seq_column Cases.index_for_sequences = "index"
      \/ Args.seq_column Cases.index_for_sequences = "level_0")
  /\ dataframe Cases.row_labels = Demo.table_2_6
  /\ forall v, In v (values_of (seqs Cases.row_labels)) ->
       exists r, In r (rows Demo.table_2_6) /\ v = VInt (ix r).
Proof.
  assert (Hinit :
    init Demo.rand Demo.read_csv Cases.index_for_sequences Demo.world0
    = (Ok Cases.row_labels, Demo.world_after Cases.index_for_sequences))
    by (vm_compute; reflexivity).
  assert (Hnot : ~ In (Args.seq_column Cases.index_for_sequences)
                     (columns Demo.table_2_6)).
  { simpl. intros [H|[H|[]]]; discriminate H. }
  split; [exact Hinit|]. split; [reflexivity|]. split; [reflexivity|].
  split; [reflexivity|].
  exact (@row_labels_for_sequences Demo.rand Demo.read_csv _ _ _ _
           Demo.table_2_6 Hinit eq_refl Hnot).
Defined.
